(** * Gomoku game server: board rules, room sessions and wire protocol

    A shallow embedding of the Python sources

      - [server/game_logic.py]   (class [GomokuBoard]),
      - [server/room_manager.py] (class [GameRoom]),
      - [examples/gomoku_server.py] (the handlers of [GomokuServer]),
      - [common/protocol.py]     (class [Protocol]),

    together with the properties of the specification that concern them. *)

From Stdlib Require Import ZArith Lia Bool String Ascii List.
From stdpp Require Import base tactics option list gmap strings pretty.
Import ListNotations.

Local Open Scope string_scope.
Local Open Scope Z_scope.

(** ** Exceptions and results

    The Python code signals failure by raising.  A call either returns a
    value or raises; state that the call may have mutated is threaded
    explicitly next to the result. *)

Inductive exn : Type :=
| InvalidPosition (x y : Z)      (* ValueError("Invalid position: (x, y)") *)
| Occupied (x y : Z)             (* ValueError("Position already occupied: (x, y)") *)
| BadColor (color : string)      (* ValueError("Invalid color: ...") *)
| IndexError                     (* list index out of range *)
| RoomFull.                      (* Exception("Room is full") *)

Inductive result (A : Type) : Type :=
| Ok (a : A)
| Raise (e : exn).
Arguments Ok {A} a.
Arguments Raise {A} e.

#[global] Instance result_ret : MRet result := fun A a => Ok a.

#[global] Instance result_bind : MBind result := fun A B k r =>
  match r with
  | Ok a => k a
  | Raise e => Raise e
  end.

(** ** Python list indexing

    [l[i]] accepts [-len(l) <= i < len(l)]; a negative index counts from
    the end; anything else raises [IndexError]. *)

Definition py_norm_index (len : nat) (i : Z) : option nat :=
  if (0 <=? i) && (i <? Z.of_nat len) then Some (Z.to_nat i)
  else if (- Z.of_nat len <=? i) && (i <? 0) then Some (Z.to_nat (Z.of_nat len + i))
  else None.

Definition py_getitem {A} (l : list A) (i : Z) : result A :=
  match py_norm_index (length l) i with
  | Some n => match l !! n with Some a => Ok a | None => Raise IndexError end
  | None => Raise IndexError
  end.

Definition py_setitem {A} (l : list A) (i : Z) (v : A) : result (list A) :=
  match py_norm_index (length l) i with
  | Some n => Ok (<[n:=v]> l)
  | None => Raise IndexError
  end.

(** ** The board ([server/game_logic.py]) *)

Module Board.

(** A cell is [None] (empty) or a colour string. *)
Abbreviation cell := (option string).

Record GomokuBoard : Type := mkBoard {
  size : Z;
  board : list (list cell)
}.

(** [GomokuBoard.__init__] and [reset]: a fresh [size] x [size] grid. *)
Definition empty_grid (sz : Z) : list (list cell) :=
  replicate (Z.to_nat sz) (replicate (Z.to_nat sz) None).

Definition init (sz : Z) : GomokuBoard := mkBoard sz (empty_grid sz).

Definition reset (b : GomokuBoard) : GomokuBoard :=
  mkBoard (size b) (empty_grid (size b)).

Definition is_valid_position (b : GomokuBoard) (x y : Z) : bool :=
  (0 <=? x) && (x <? size b) && (0 <=? y) && (y <? size b).

(** [self.board[x][y]] *)
Definition get (b : GomokuBoard) (x y : Z) : result cell :=
  row ← py_getitem (board b) x; py_getitem row y.

Definition is_empty (b : GomokuBoard) (x y : Z) : result bool :=
  if negb (is_valid_position b x y) then Ok false
  else c ← get b x y; Ok (match c with None => true | Some _ => false end).

Definition color_in_black_white (color : string) : bool :=
  String.eqb color "black" || String.eqb color "white".

(** [self.board[x][y] = color] *)
Definition set (b : GomokuBoard) (x y : Z) (color : string) : result GomokuBoard :=
  row ← py_getitem (board b) x;
  row' ← py_setitem row y (Some color);
  g' ← py_setitem (board b) x row';
  Ok (mkBoard (size b) g').

(** [place_stone]: the result of the call and the board afterwards. *)
Definition place_stone (b : GomokuBoard) (x y : Z) (color : string)
  : result bool * GomokuBoard :=
  if negb (is_valid_position b x y) then (Raise (InvalidPosition x y), b)
  else
    match is_empty b x y with
    | Raise e => (Raise e, b)
    | Ok false => (Raise (Occupied x y), b)
    | Ok true =>
        if negb (color_in_black_white color) then (Raise (BadColor color), b)
        else
          match set b x y color with
          | Raise e => (Raise e, b)
          | Ok b' => (Ok true, b')
          end
    end.

(** [self.board[nx][ny] == color] for a colour that is not [None]. *)
Definition cell_is (c : cell) (color : string) : bool :=
  match c with
  | Some s => String.eqb s color
  | None => false
  end.

(** The inner [while] loop of [check_winner]: walk from [(nx, ny)] in steps
    of [(dx, dy)] while the position is on the board and holds [color],
    counting the cells passed.  [None] means the fuel ran out. *)
Fixpoint walk (fuel : nat) (b : GomokuBoard) (color : string)
    (nx ny dx dy count : Z) : option (result Z) :=
  match fuel with
  | O => None
  | S fuel' =>
      if is_valid_position b nx ny then
        match get b nx ny with
        | Raise e => Some (Raise e)
        | Ok c =>
            if cell_is c color
            then walk fuel' b color (nx + dx) (ny + dy) dx dy (count + 1)
            else Some (Ok count)
        end
      else Some (Ok count)
  end.

(** The four axes, each as a pair of opposite directions. *)
Definition directions : list ((Z * Z) * (Z * Z)) :=
  [ ((0, 1), (0, -1));
    ((1, 0), (-1, 0));
    ((1, 1), (-1, -1));
    ((1, -1), (-1, 1)) ].

(** [count = 1], then the loop over the two directions of one axis. *)
Definition count_axis (fuel : nat) (b : GomokuBoard) (color : string)
    (x y : Z) (direction_pair : (Z * Z) * (Z * Z)) : option (result Z) :=
  let '((dx1, dy1), (dx2, dy2)) := direction_pair in
  match walk fuel b color (x + dx1) (y + dy1) dx1 dy1 1 with
  | None => None
  | Some (Raise e) => Some (Raise e)
  | Some (Ok count) => walk fuel b color (x + dx2) (y + dy2) dx2 dy2 count
  end.

(** The loop over the axes, returning at the first one with [count >= 5]. *)
Fixpoint check_axes (fuel : nat) (b : GomokuBoard) (color : string)
    (x y : Z) (dirs : list ((Z * Z) * (Z * Z))) : option (result cell) :=
  match dirs with
  | [] => Some (Ok None)
  | direction_pair :: rest =>
      match count_axis fuel b color x y direction_pair with
      | None => None
      | Some (Raise e) => Some (Raise e)
      | Some (Ok count) =>
          if 5 <=? count then Some (Ok (Some color))
          else check_axes fuel b color x y rest
      end
  end.

Definition check_winner_fuel (fuel : nat) (b : GomokuBoard) (x y : Z)
  : option (result cell) :=
  match get b x y with
  | Raise e => Some (Raise e)
  | Ok None => Some (Ok None)
  | Ok (Some color) => check_axes fuel b color x y directions
  end.

(** Every walk leaves the board within [size] steps, so [size + 1] rounds
    of each inner loop are enough (lemma [check_winner_fuel_enough]). *)
Definition check_winner (b : GomokuBoard) (x y : Z) : option (result cell) :=
  check_winner_fuel (S (Z.to_nat (size b))) b x y.

(** [get_board_state]: a copy of the grid (values are immutable, so the
    copy is the grid itself). *)
Definition get_board_state (b : GomokuBoard) : list (list cell) := board b.

(** [count_stones] *)
Definition count_color (color : string) (g : list (list cell)) : nat :=
  length (filter (fun c => cell_is c color = true) (concat g)).

(** *** Specification-side notions *)

(** The shape invariant of a board: a [size] x [size] grid. *)
Definition wf (b : GomokuBoard) : Prop :=
  0 <= size b /\
  length (board b) = Z.to_nat (size b) /\
  Forall (fun row => length row = Z.to_nat (size b)) (board b).

(** The stone at [(x, y)], with [None] off the grid. *)
Definition stone (b : GomokuBoard) (x y : Z) : cell :=
  match board b !! Z.to_nat x with
  | Some row => match row !! Z.to_nat y with Some c => c | None => None end
  | None => None
  end.

(** [(x, y)] is on the board and holds [color]. *)
Definition holds (b : GomokuBoard) (color : string) (x y : Z) : Prop :=
  is_valid_position b x y = true /\ stone b x y = Some color.

(** A contiguous run of [len] cells of [color] through [(x, y)] along the
    axis [(dx, dy)]: the cells at offsets [lo .. hi] with [lo <= 0 <= hi]. *)
Definition run_through (b : GomokuBoard) (color : string)
    (x y dx dy len : Z) : Prop :=
  exists lo hi : Z,
    lo <= 0 <= hi /\ hi - lo + 1 = len /\
    forall k, lo <= k <= hi -> holds b color (x + k * dx) (y + k * dy).

(** The four axes: horizontal, vertical and the two diagonals. *)
Definition axes : list (Z * Z) := [ (0, 1); (1, 0); (1, 1); (1, -1) ].

Definition winning_run (b : GomokuBoard) (color : string) (x y : Z) : Prop :=
  exists dx dy len, (dx, dy) ∈ axes /\ 5 <= len /\ run_through b color x y dx dy len.

(** The loop test of [walk], as a boolean. *)
Definition holdsb (b : GomokuBoard) (color : string) (x y : Z) : bool :=
  is_valid_position b x y && cell_is (stone b x y) color.

(** A unit step along one of the eight compass directions. *)
Definition unit_dir (dx dy : Z) : Prop :=
  (dx = -1 \/ dx = 0 \/ dx = 1) /\ (dy = -1 \/ dy = 0 \/ dy = 1) /\
  (dx <> 0 \/ dy <> 0).

(** How many more steps from [(nx, ny)] can stay on the board. *)
Definition room_left (b : GomokuBoard) (nx ny dx dy : Z) : Z :=
  if is_valid_position b nx ny then
    if dx =? 1 then size b - nx
    else if dx =? -1 then nx + 1
    else if dy =? 1 then size b - ny
    else ny + 1
  else 0.

(** The shape of the entries of [directions]. *)
Definition axis_pair (p : (Z * Z) * (Z * Z)) : Prop :=
  unit_dir (fst (fst p)) (snd (fst p)) /\
  snd p = (- fst (fst p), - snd (fst p)).

(** Playing a list of moves, ignoring the ones that are refused. *)
Definition place_many (b : GomokuBoard) (moves : list (Z * Z * string)) : GomokuBoard :=
  fold_left (fun b m => let '(x, y, color) := m in snd (place_stone b x y color)) moves b.

(** Scenario boards.  S1: black completes (7,3)..(7,7); S2: black's sixth
    stone on the main diagonal. *)
Definition board_S1_before : GomokuBoard :=
  place_many (init 15)
    [ (7, 3, "black"); (8, 3, "white"); (7, 4, "black"); (8, 4, "white");
      (7, 5, "black"); (8, 5, "white"); (7, 6, "black") ].

Definition board_S1 : GomokuBoard := place_many board_S1_before [ (7, 7, "black") ].

Definition board_S2 : GomokuBoard :=
  place_many (init 15)
    [ (0, 0, "black"); (14, 0, "white"); (1, 1, "black"); (14, 2, "white");
      (2, 2, "black"); (14, 4, "white"); (4, 4, "black"); (14, 6, "white");
      (5, 5, "black"); (14, 8, "white"); (3, 3, "black") ].

(** The grid after [self.board[x][y] = color]. *)
Definition grid_with (b : GomokuBoard) (x y : Z) (color : string) : list (list cell) :=
  match board b !! Z.to_nat x with
  | Some row => <[Z.to_nat x := <[Z.to_nat y := Some color]> row]> (board b)
  | None => board b
  end.

(** [get_stone_at] *)
Definition get_stone_at (b : GomokuBoard) (x y : Z) : result cell :=
  if negb (is_valid_position b x y) then Ok None else get b x y.

(** [count_stones]: the dictionary [{"black", "white", "empty"}] that the
    two nested loops fill. *)
Record StoneCount : Type := mkCount {
  black_count : Z;
  white_count : Z;
  empty_count : Z
}.

(** One round of the inner loop. *)
Definition count_cell (n : StoneCount) (c : cell) : StoneCount :=
  if cell_is c "black" then mkCount (black_count n + 1) (white_count n) (empty_count n)
  else if cell_is c "white" then mkCount (black_count n) (white_count n + 1) (empty_count n)
  else mkCount (black_count n) (white_count n) (empty_count n + 1).

Definition count_stones (b : GomokuBoard) : StoneCount :=
  fold_left (fun n row => fold_left count_cell row n) (board b) (mkCount 0 0 0).

(** [None in row] *)
Definition none_in (row : list cell) : bool :=
  existsb (fun c => match c with None => true | Some _ => false end) row.

(** [is_board_full] *)
Definition is_board_full (b : GomokuBoard) : bool :=
  forallb (fun row => negb (none_in row)) (board b).

(** The sum of the three counters. *)
Definition count_total (n : StoneCount) : Z :=
  black_count n + white_count n + empty_count n.

End Board.

(** ** Rooms ([server/room_manager.py]) *)

Module Room.

(** A connection handle.  The room only compares handles and stores them. *)
Definition Socket : Type := Z.

(** Clock readings ([time.time()]), in seconds. *)
Definition Time : Type := Z.

(** [self.status]: ["waiting"], ["playing"] or ["finished"]. *)
Inductive Status : Type := Waiting | Playing | Finished.

#[global] Instance Status_eq_dec : EqDecision Status.
Proof. solve_decision. Defined.

(** A seat: the dictionary [{socket, name, color, ready}].  The socket is
    [None] while the seat is kept for a player whose connection was lost. *)
Record Player : Type := mkPlayer {
  socket : option Socket;
  name : string;
  color : string;
  ready : bool
}.

#[global] Instance Player_eq_dec : EqDecision Player.
Proof. solve_decision. Defined.

Record Spectator : Type := mkSpectator {
  spec_socket : option Socket;
  spec_name : string
}.

#[global] Instance Spectator_eq_dec : EqDecision Spectator.
Proof. solve_decision. Defined.

(** An entry of [self.disconnected_players]. *)
Record Disconnection : Type := mkDisconnection {
  disconnect_time : Time;
  player_data : Player;
  last_color : string;
  reconnect_count : Z
}.

Record GameRoom : Type := mkRoom {
  room_id : string;
  players : list Player;
  spectators : list Spectator;
  status : Status;
  board : Board.GomokuBoard;
  current_turn : string;
  turn_start_time : option Time;
  timer_alive : bool;        (* a timer thread runs and its stop event is clear *)
  timer_callback : bool;     (* [hasattr(self, '_timer_callback')] *)
  disconnected_players : gmap string Disconnection;
  is_paused : bool;
  reconnect_attempts : gmap string Z;
  rematch_requests : gmap string bool
}.

(** The attributes that [__init__] sets and nothing reassigns. *)
Definition turn_time_limit : Z := 60.
Definition reconnect_timeout : Z := 180.
Definition max_reconnect_attempts : Z := 2.

(** [GameRoom.__init__] *)
Definition init (rid : string) : GameRoom :=
  {| room_id := rid; players := []; spectators := []; status := Waiting;
     board := Board.init 15; current_turn := "black";
     turn_start_time := None; timer_alive := false; timer_callback := false;
     disconnected_players := ∅; is_paused := false;
     reconnect_attempts := ∅; rematch_requests := ∅ |}.

(** Attribute assignment. *)
Definition set_players (v : list Player) (r : GameRoom) : GameRoom :=
  mkRoom (room_id r) v (spectators r) (status r) (board r) (current_turn r)
    (turn_start_time r) (timer_alive r) (timer_callback r)
    (disconnected_players r) (is_paused r) (reconnect_attempts r) (rematch_requests r).
Definition set_spectators (v : list Spectator) (r : GameRoom) : GameRoom :=
  mkRoom (room_id r) (players r) v (status r) (board r) (current_turn r)
    (turn_start_time r) (timer_alive r) (timer_callback r)
    (disconnected_players r) (is_paused r) (reconnect_attempts r) (rematch_requests r).
Definition set_status (v : Status) (r : GameRoom) : GameRoom :=
  mkRoom (room_id r) (players r) (spectators r) v (board r) (current_turn r)
    (turn_start_time r) (timer_alive r) (timer_callback r)
    (disconnected_players r) (is_paused r) (reconnect_attempts r) (rematch_requests r).
Definition set_board (v : Board.GomokuBoard) (r : GameRoom) : GameRoom :=
  mkRoom (room_id r) (players r) (spectators r) (status r) v (current_turn r)
    (turn_start_time r) (timer_alive r) (timer_callback r)
    (disconnected_players r) (is_paused r) (reconnect_attempts r) (rematch_requests r).
Definition set_current_turn (v : string) (r : GameRoom) : GameRoom :=
  mkRoom (room_id r) (players r) (spectators r) (status r) (board r) v
    (turn_start_time r) (timer_alive r) (timer_callback r)
    (disconnected_players r) (is_paused r) (reconnect_attempts r) (rematch_requests r).
Definition set_turn_start_time (v : option Time) (r : GameRoom) : GameRoom :=
  mkRoom (room_id r) (players r) (spectators r) (status r) (board r) (current_turn r)
    v (timer_alive r) (timer_callback r)
    (disconnected_players r) (is_paused r) (reconnect_attempts r) (rematch_requests r).
Definition set_timer_alive (v : bool) (r : GameRoom) : GameRoom :=
  mkRoom (room_id r) (players r) (spectators r) (status r) (board r) (current_turn r)
    (turn_start_time r) v (timer_callback r)
    (disconnected_players r) (is_paused r) (reconnect_attempts r) (rematch_requests r).
Definition set_timer_callback (v : bool) (r : GameRoom) : GameRoom :=
  mkRoom (room_id r) (players r) (spectators r) (status r) (board r) (current_turn r)
    (turn_start_time r) (timer_alive r) v
    (disconnected_players r) (is_paused r) (reconnect_attempts r) (rematch_requests r).
Definition set_disconnected_players (v : gmap string Disconnection) (r : GameRoom) : GameRoom :=
  mkRoom (room_id r) (players r) (spectators r) (status r) (board r) (current_turn r)
    (turn_start_time r) (timer_alive r) (timer_callback r)
    v (is_paused r) (reconnect_attempts r) (rematch_requests r).
Definition set_is_paused (v : bool) (r : GameRoom) : GameRoom :=
  mkRoom (room_id r) (players r) (spectators r) (status r) (board r) (current_turn r)
    (turn_start_time r) (timer_alive r) (timer_callback r)
    (disconnected_players r) v (reconnect_attempts r) (rematch_requests r).
Definition set_reconnect_attempts (v : gmap string Z) (r : GameRoom) : GameRoom :=
  mkRoom (room_id r) (players r) (spectators r) (status r) (board r) (current_turn r)
    (turn_start_time r) (timer_alive r) (timer_callback r)
    (disconnected_players r) (is_paused r) v (rematch_requests r).
Definition set_rematch_requests (v : gmap string bool) (r : GameRoom) : GameRoom :=
  mkRoom (room_id r) (players r) (spectators r) (status r) (board r) (current_turn r)
    (turn_start_time r) (timer_alive r) (timer_callback r)
    (disconnected_players r) (is_paused r) (reconnect_attempts r) v.

(** *** List helpers *)

(** [for x in l: if test(x): x[...] = ...; break]: update the first
    element that passes the test, in place. *)
Fixpoint update_first {A} (test : A -> bool) (f : A -> A) (l : list A) : list A :=
  match l with
  | [] => []
  | x :: l' => if test x then f x :: l' else x :: update_first test f l'
  end.

(** [l.remove(x)]: drop the first element equal to [x]. *)
Fixpoint py_remove {A} `{EqDecision A} (x : A) (l : list A) : list A :=
  match l with
  | [] => []
  | y :: l' => if decide (y = x) then l' else y :: py_remove x l'
  end.

(** [player["socket"] == client_socket] for a live [client_socket]. *)
Definition has_socket (sock : Socket) (p : Player) : bool :=
  match socket p with
  | Some s => Z.eqb s sock
  | None => false
  end.

Definition has_name (n : string) (p : Player) : bool := String.eqb (name p) n.

Definition spec_has_socket (sock : Socket) (s : Spectator) : bool :=
  match spec_socket s with
  | Some s' => Z.eqb s' sock
  | None => false
  end.

(** *** Timer *)

(** [stop_timer]: signal the worker, forget the start time. *)
Definition stop_timer (r : GameRoom) : GameRoom :=
  set_turn_start_time None (set_timer_alive false r).

(** [start_timer]: skipped while paused; otherwise the old worker is
    stopped and a new one started at [now]. *)
Definition start_timer (now : Time) (r : GameRoom) : GameRoom :=
  if is_paused r then r
  else set_timer_alive true (set_timer_callback true (set_turn_start_time (Some now) r)).

(** [get_remaining_time]: [int(max(0, limit - elapsed))]. *)
Definition get_remaining_time (now : Time) (r : GameRoom) : Z :=
  match turn_start_time r with
  | None => 0
  | Some t => Z.max 0 (turn_time_limit - (now - t))
  end.

(** The test of [_timer_worker] that launches the ["timeout"] callback:
    the worker is running, a start time is set, and [remaining <= 0]. *)
Definition timer_expired (now : Time) (r : GameRoom) : bool :=
  timer_alive r &&
  match turn_start_time r with
  | None => false
  | Some t => turn_time_limit - (now - t) <=? 0
  end.

(** *** Seats *)

Definition add_player (sock : Socket) (player_name : string) (r : GameRoom)
  : result string * GameRoom :=
  if (2 <=? length (players r))%nat then (Raise RoomFull, r)
  else
    let color := if (length (players r) =? 0)%nat then "black" else "white" in
    let player := mkPlayer (Some sock) player_name color false in
    (Ok color, set_players (players r ++ [player]) r).

Definition add_spectator (sock : Socket) (spectator_name : string) (r : GameRoom) : GameRoom :=
  set_spectators (spectators r ++ [mkSpectator (Some sock) spectator_name]) r.

Definition get_player_by_socket (sock : Socket) (r : GameRoom) : option Player :=
  find (has_socket sock) (players r).

Definition get_spectator_by_socket (sock : Socket) (r : GameRoom) : option Spectator :=
  find (spec_has_socket sock) (spectators r).

Definition is_full (r : GameRoom) : bool := (2 <=? length (players r))%nat.

Definition lost_socket (p : Player) : Player :=
  mkPlayer None (name p) (color p) (ready p).

Definition with_ready (v : bool) (p : Player) : Player :=
  mkPlayer (socket p) (name p) (color p) v.

Definition with_socket (s : Socket) (p : Player) : Player :=
  mkPlayer (Some s) (name p) (color p) (ready p).

(** [dict.get(key, 0)] *)
Definition attempts_of (player_name : string) (r : GameRoom) : Z :=
  default 0 (reconnect_attempts r !! player_name).

(** [remove_player]: the returned name (or [None]) and the room afterwards. *)
Definition remove_player (sock : Socket) (is_disconnect : bool) (now : Time)
    (r : GameRoom) : option string * GameRoom :=
  match find (has_socket sock) (players r) with
  | None => (None, r)
  | Some player =>
      let player_name := name player in
      let player_color := color player in
      if is_disconnect && bool_decide (status r = Playing) then
        let current_attempts := attempts_of player_name r in
        let r1 :=
          if current_attempts <? max_reconnect_attempts then
            set_disconnected_players
              (<[player_name := mkDisconnection now player player_color current_attempts]>
                 (disconnected_players r)) r
          else r in
        let r2 := set_players (update_first (has_socket sock) lost_socket (players r1)) r1 in
        let r3 := set_is_paused true r2 in
        (Some player_name, stop_timer r3)
      else
        let r1 := set_players (py_remove player (players r)) r in
        if (length (players r1) =? 1)%nat then
          let r2 := set_status Waiting r1 in
          let r3 := set_board (Board.reset (board r2)) r2 in
          let r4 := set_current_turn "black" r3 in
          let r5 := stop_timer r4 in
          let r6 := set_players (map (with_ready false) (players r5)) r5 in
          (Some player_name, set_rematch_requests ∅ r6)
        else if (length (players r1) =? 0)%nat then
          (Some player_name, set_status Waiting r1)
        else (Some player_name, r1)
  end.

Definition remove_spectator (sock : Socket) (r : GameRoom) : option string * GameRoom :=
  match find (spec_has_socket sock) (spectators r) with
  | None => (None, r)
  | Some spectator =>
      (Some (spec_name spectator), set_spectators (py_remove spectator (spectators r)) r)
  end.

(** *** Play *)

Definition place_stone (x y : Z) (color : string) (r : GameRoom)
  : result bool * GameRoom :=
  let '(res, b) := Board.place_stone (board r) x y color in (res, set_board b r).

Definition check_winner (x y : Z) (r : GameRoom) : option (result (option string)) :=
  Board.check_winner (board r) x y.

Definition other_color (c : string) : string :=
  if String.eqb c "black" then "white" else "black".

Definition switch_turn (r : GameRoom) : GameRoom :=
  set_current_turn (other_color (current_turn r)) r.

Definition set_player_ready (sock : Socket) (ready_state : bool) (r : GameRoom)
  : bool * GameRoom :=
  match find (has_socket sock) (players r) with
  | None => (false, r)
  | Some _ =>
      (true, set_players (update_first (has_socket sock) (with_ready ready_state) (players r)) r)
  end.

Definition are_all_players_ready (r : GameRoom) : bool :=
  if (length (players r) <? 2)%nat then false
  else forallb ready (players r).

(** *** Reconnection *)

Definition can_reconnect (player_name : string) (now : Time) (r : GameRoom) : bool :=
  match disconnected_players r !! player_name with
  | None => false
  | Some d =>
      if max_reconnect_attempts <=? attempts_of player_name r then false
      else now - disconnect_time d <=? reconnect_timeout
  end.

Definition reconnect_player (player_name : string) (new_socket : Socket) (now : Time)
    (r : GameRoom) : bool * GameRoom :=
  match disconnected_players r !! player_name with
  | None => (false, r)
  | Some _ =>
      if negb (can_reconnect player_name now r) then (false, r)
      else
        let current_attempts := attempts_of player_name r in
        let r1 := set_reconnect_attempts
                    (<[player_name := current_attempts + 1]> (reconnect_attempts r)) r in
        let r2 := set_players
                    (update_first (has_name player_name) (with_socket new_socket) (players r1)) r1 in
        let r3 := set_disconnected_players (delete player_name (disconnected_players r2)) r2 in
        if bool_decide (disconnected_players r3 = ∅) then
          let r4 := set_is_paused false r3 in
          if bool_decide (status r4 = Playing) && timer_callback r4
          then (true, start_timer now r4)
          else (true, r4)
        else (true, r3)
  end.

(** [check_reconnect_timeout]: the records older than the grace period. *)
Definition check_reconnect_timeout (now : Time) (r : GameRoom) : list (string * string) :=
  omap (fun kv : string * Disconnection =>
          if reconnect_timeout <? now - disconnect_time (snd kv)
          then Some (fst kv, last_color (snd kv)) else None)
       (map_to_list (disconnected_players r)).

(** [forfeit_player]: the winner's colour and name, and the room afterwards. *)
Definition forfeit_player (player_name player_color : string) (r : GameRoom)
  : (string * option string) * GameRoom :=
  let r1 := set_disconnected_players (delete player_name (disconnected_players r)) r in
  let winner_color := other_color player_color in
  let winner_name :=
    name <$> find (fun p => String.eqb (color p) winner_color) (players r1) in
  let r2 := stop_timer r1 in
  let r3 := set_status Finished r2 in
  ((winner_color, winner_name), set_is_paused false r3).

(** *** Rematch *)

Definition request_rematch (player_name : string) (r : GameRoom) : bool * GameRoom :=
  if negb (bool_decide (status r = Finished)) then (false, r)
  else (true, set_rematch_requests (<[player_name := true]> (rematch_requests r)) r).

Definition is_rematch_agreed (r : GameRoom) : bool :=
  if negb (length (players r) =? 2)%nat then false
  else forallb (fun p => default false (rematch_requests r !! name p)) (players r).

Definition swap_color (c : string) : string :=
  if String.eqb c "black" then "white"
  else if String.eqb c "white" then "black"
  else c.

Definition rematch_seat (p : Player) : Player :=
  mkPlayer (socket p) (name p) (swap_color (color p)) true.

Definition start_rematch (r : GameRoom) : GameRoom :=
  let r1 := set_board (Board.reset (board r)) r in
  let r2 := set_current_turn "black" r1 in
  let r3 := set_status Playing r2 in
  let r4 := set_rematch_requests ∅ r3 in
  set_players (map rematch_seat (players r4)) r4.

End Room.

(** ** The session handlers ([examples/gomoku_server.py])

    Each handler is modelled by its effect on the room it addresses; the
    messages it sends are not part of the room state.  [now] is the clock
    reading at the time of the call. *)

Module Server.
Import Room.

(** Python truthiness of the value returned by [check_winner]. *)
Definition truthy (w : option string) : bool :=
  match w with
  | None => false
  | Some s => negb (String.eqb s "")
  end.

(** [handle_ready]: toggle the seat's flag; when every seat is ready the
    game starts. *)
Definition handle_ready (sock : Socket) (now : Time) (r : GameRoom) : GameRoom :=
  match get_player_by_socket sock r with
  | None => r
  | Some player =>
      let new_ready := negb (ready player) in
      let r1 := snd (set_player_ready sock new_ready r) in
      if are_all_players_ready r1
      then start_timer now (set_status Playing r1)
      else r1
  end.

(** [handle_place_stone]; [x] and [y] are [data.get("x")], [data.get("y")]. *)
Definition handle_place_stone (sock : Socket) (x y : option Z) (now : Time)
    (r : GameRoom) : GameRoom :=
  match get_player_by_socket sock r with
  | None => r
  | Some player =>
      if negb (bool_decide (status r = Playing)) then r
      else if negb (String.eqb (color player) (current_turn r)) then r
      else
        match x, y with
        | Some x, Some y =>
            match Room.place_stone x y (color player) r with
            | (Raise _, _) => r
            | (Ok _, r1) =>
                match Room.check_winner x y r1 with
                | Some (Ok winner) =>
                    if truthy winner
                    then set_status Finished (stop_timer r1)
                    else start_timer now (switch_turn (stop_timer r1))
                | _ => r1   (* the exception leaves the handler *)
                end
            end
        | _, _ => r
        end
  end.

(** [handle_timer_event(room_id, "timeout")] *)
Definition handle_timer_timeout (now : Time) (r : GameRoom) : GameRoom :=
  if negb (bool_decide (status r = Playing)) then r
  else start_timer now (switch_turn r).

(** The timer worker reaching the deadline: it launches the callback and
    ends. *)
Definition time_up (now : Time) (r : GameRoom) : GameRoom :=
  if timer_expired now r
  then handle_timer_timeout now (set_timer_alive false r)
  else r.

(** [handle_reconnect], for the room in which the name can reconnect. *)
Definition handle_reconnect (player_name : option string) (sock : Socket) (now : Time)
    (r : GameRoom) : GameRoom :=
  match player_name with
  | None => r
  | Some n =>
      if String.eqb n "" then r
      else if can_reconnect n now r then snd (reconnect_player n sock now r)
      else r
  end.

(** [handle_join_room], after the room was found.  [handle_create_room]
    is the same call on a fresh room. *)
Definition handle_join_room (sock : Socket) (player_name : string) (now : Time)
    (r : GameRoom) : GameRoom :=
  if can_reconnect player_name now r then handle_reconnect (Some player_name) sock now r
  else if is_full r then r
  else snd (add_player sock player_name r).

Definition handle_spectate_room (sock : Socket) (spectator_name : string)
    (r : GameRoom) : GameRoom :=
  add_spectator sock spectator_name r.

(** [remove_from_room] for a player and for a spectator. *)
Definition remove_from_room_player (sock : Socket) (is_disconnect : bool) (now : Time)
    (r : GameRoom) : GameRoom :=
  snd (remove_player sock is_disconnect now r).

Definition remove_from_room_spectator (sock : Socket) (r : GameRoom) : GameRoom :=
  snd (remove_spectator sock r).

Definition handle_surrender (sock : Socket) (r : GameRoom) : GameRoom :=
  if negb (bool_decide (status r = Playing)) then r
  else
    match get_player_by_socket sock r with
    | None => r
    | Some _ => set_status Finished (stop_timer r)
    end.

(** The shared tail of [handle_rematch] and [handle_rematch_response]:
    start the rematch once every seat has agreed. *)
Definition rematch_if_agreed (now : Time) (r : GameRoom) : GameRoom :=
  if is_rematch_agreed r then start_timer now (start_rematch r) else r.

Definition handle_rematch (sock : Socket) (now : Time) (r : GameRoom) : GameRoom :=
  if negb (bool_decide (status r = Finished)) then r
  else
    match get_player_by_socket sock r with
    | None => r
    | Some requesting_player =>
        match request_rematch (name requesting_player) r with
        | (true, r1) => rematch_if_agreed now r1
        | (false, r1) => r1
        end
    end.

Definition handle_rematch_response (sock : Socket) (accepted : bool) (now : Time)
    (r : GameRoom) : GameRoom :=
  match get_player_by_socket sock r with
  | None => r
  | Some responding_player =>
      if accepted then
        rematch_if_agreed now (snd (request_rematch (name responding_player) r))
      else set_rematch_requests ∅ r
  end.

(** One pass of [monitor_reconnection_timeouts] over a room. *)
Definition forfeit_sweep (now : Time) (r : GameRoom) : GameRoom :=
  fold_left (fun r nc => snd (forfeit_player (fst nc) (snd nc) r))
            (check_reconnect_timeout now r) r.

(** *** Events of a room *)

Inductive event : Type :=
| Join (sock : Socket) (player_name : string) (now : Time)
| Spectate (sock : Socket) (spectator_name : string)
| Ready (sock : Socket) (now : Time)
| PlaceStone (sock : Socket) (x y : option Z) (now : Time)
| Leave (sock : Socket) (now : Time)            (* clean leave of a player *)
| ConnectionLost (sock : Socket) (now : Time)   (* a player's connection closes *)
| SpectatorGone (sock : Socket)
| TimeUp (now : Time)
| Reconnect (player_name : option string) (sock : Socket) (now : Time)
| ForfeitSweep (now : Time)
| Surrender (sock : Socket)
| Rematch (sock : Socket) (now : Time)
| RematchResponse (sock : Socket) (accepted : bool) (now : Time).

Definition step (r : GameRoom) (ev : event) : GameRoom :=
  match ev with
  | Join sock n now => handle_join_room sock n now r
  | Spectate sock n => handle_spectate_room sock n r
  | Ready sock now => handle_ready sock now r
  | PlaceStone sock x y now => handle_place_stone sock x y now r
  | Leave sock now => remove_from_room_player sock false now r
  | ConnectionLost sock now => remove_from_room_player sock true now r
  | SpectatorGone sock => remove_from_room_spectator sock r
  | TimeUp now => time_up now r
  | Reconnect n sock now => handle_reconnect n sock now r
  | ForfeitSweep now => forfeit_sweep now r
  | Surrender sock => handle_surrender sock r
  | Rematch sock now => handle_rematch sock now r
  | RematchResponse sock accepted now => handle_rematch_response sock accepted now r
  end.

Definition run (r : GameRoom) (evs : list event) : GameRoom := fold_left step evs r.

(** The states a room can be in: those that the handlers produce from a
    new room. *)
Inductive reachable : GameRoom -> Prop :=
| reachable_init rid : reachable (Room.init rid)
| reachable_step r ev : reachable r -> reachable (step r ev).

End Server.

(** ** Invariants of a room and scenario traces *)

Module Invariants.
Import Room Server.

(** Seats, status, board and turn. *)
Record game_inv (r : GameRoom) : Prop := {
  inv_seats : (length (players r) <= 2)%nat;
  inv_board_wf : Board.wf (board r);
  inv_board_size : Board.size (board r) = 15;
  inv_turn : current_turn r = "black" \/ current_turn r = "white";
  inv_few_seats :
    (length (players r) <= 1)%nat ->
    status r <> Playing /\ board r = Board.init 15 /\ current_turn r = "black";
  inv_waiting :
    status r = Waiting -> board r = Board.init 15 /\ current_turn r = "black"
}.

(** A seat kept for a player whose connection is lost. *)
Definition ghost (p : Player) : Prop := socket p = None.

(** Disconnection records, the pause flag and the seats they refer to. *)
Record pause_inv (r : GameRoom) : Prop := {
  inv_record_seat :
    forall n, is_Some (disconnected_players r !! n) ->
              exists p, p ∈ players r /\ name p = n /\ ghost p;
  inv_paused_ghost :
    is_paused r = true -> exists p, p ∈ players r /\ ghost p;
  inv_waiting_ghost :
    status r = Waiting -> forall p, p ∈ players r -> ghost p -> ready p = false
}.

(** Every ghost seat of [l] is still a ghost seat, under its name, in [l']. *)
Definition ghosts_kept (l l' : list Player) : Prop :=
  forall p, p ∈ l -> ghost p -> exists p', p' ∈ l' /\ name p' = name p /\ ghost p'.

(** Every ghost seat of [l'] was one, with the same flag, in [l]. *)
Definition ghosts_old (l l' : list Player) : Prop :=
  forall p', p' ∈ l' -> ghost p' -> exists p, p ∈ l /\ ghost p /\ ready p = ready p'.

(** A running timer means the game is not paused. *)
Definition timer_inv (r : GameRoom) : Prop :=
  timer_alive r = true -> is_paused r = false.

(** A record carries the attempt count of its name, which is below the
    maximum. *)
Definition record_inv (r : GameRoom) : Prop :=
  forall n d, disconnected_players r !! n = Some d ->
              reconnect_count d = attempts_of n r /\
              attempts_of n r < max_reconnect_attempts.

(** Stone counts ([GomokuBoard.count_stones]). *)
Definition black_count (r : GameRoom) : Z :=
  Z.of_nat (Board.count_color "black" (Board.board (board r))).
Definition white_count (r : GameRoom) : Z :=
  Z.of_nat (Board.count_color "white" (Board.board (board r))).

(** The counts differ by 0 or 1. *)
Definition counts_close (r : GameRoom) : Prop :=
  Z.abs (black_count r - white_count r) <= 1.

(** The counts as alternate play from an empty board leaves them. *)
Definition balanced (r : GameRoom) : Prop :=
  (current_turn r = "black" /\ black_count r = white_count r) \/
  (current_turn r = "white" /\ black_count r = white_count r + 1).

(** Events other than a timeout, with READY sent only while Waiting. *)
Definition orderly (r : GameRoom) (ev : event) : Prop :=
  match ev with
  | TimeUp _ => False
  | Ready _ _ => status r = Waiting
  | _ => True
  end.

Inductive reachable_orderly : GameRoom -> Prop :=
| orderly_init rid : reachable_orderly (Room.init rid)
| orderly_step r ev :
    reachable_orderly r -> orderly r ev -> reachable_orderly (step r ev).

(** How a step other than a placement relates the game before and after:
    status, board and turn are kept, or the room is not Playing afterwards,
    or a new game starts on an empty board with black to move. *)
Definition tame (r r' : GameRoom) : Prop :=
  (status r' = status r /\ board r' = board r /\ current_turn r' = current_turn r) \/
  status r' <> Playing \/
  (board r' = Board.init 15 /\ current_turn r' = "black").

(** The deadline of the running turn timer is reached at [now]. *)
Definition deadline_reached (now : Time) (r : GameRoom) : Prop :=
  timer_expired now r = true.

(** *** Scenario traces *)

(** Two players take their seats and both send READY at time 0. *)
Definition started : GameRoom :=
  run (Room.init "room_1") [Join 1 "A" 0; Join 2 "B" 0; Ready 1 0; Ready 2 0].

(** The first player leaves and a third one joins. *)
Definition rejoined : GameRoom :=
  run (Room.init "room_1") [Join 1 "A" 0; Join 2 "B" 0; Leave 1 0; Join 3 "C" 0].

(** Black lets the clock run out twice; white plays twice. *)
Definition two_timeouts : GameRoom :=
  run started [TimeUp 60; PlaceStone 2 (Some 7) (Some 7) 61;
               TimeUp 121; PlaceStone 2 (Some 7) (Some 8) 122].

(** A loses the connection and reconnects twice. *)
Definition reconnected_twice : GameRoom :=
  run started [ConnectionLost 1 10; Reconnect (Some "A") 3 20;
               ConnectionLost 3 30; Reconnect (Some "A") 4 40].

(** One seat is ready, the other not yet. *)
Definition one_ready : GameRoom :=
  run (Room.init "room_1") [Join 1 "A" 0; Join 2 "B" 0; Ready 1 0].

(** Black's first stone. *)
Definition first_move : GameRoom := step started (PlaceStone 1 (Some 7) (Some 7) 5).

(** A's connection is lost at time 10. *)
Definition lost_once : GameRoom := step started (ConnectionLost 1 10).

(** A surrenders, then asks for a rematch. *)
Definition rematch_asked : GameRoom := run started [Surrender 1; Rematch 1 100].

(** ... and loses it a third time. *)
Definition third_loss : GameRoom := step reconnected_twice (ConnectionLost 4 50).

(** The counters of [reconnect_attempts] stay within the maximum. *)
Definition attempts_bounded (r : GameRoom) : Prop :=
  forall n, 0 <= attempts_of n r <= max_reconnect_attempts.

(** How one step can change the board: not at all, back to the empty
    board, or by the stone of the player to move. *)
Definition board_change (r : GameRoom) (ev : event) : Prop :=
  board (step r ev) = board r \/
  board (step r ev) = Board.init 15 \/
  exists sock x y now p,
    ev = PlaceStone sock (Some x) (Some y) now /\
    get_player_by_socket sock r = Some p /\
    status r = Playing /\ color p = current_turn r /\
    Board.place_stone (board r) x y (current_turn r) = (Ok true, board (step r ev)).

(** Black has four in a row and is to move. *)
Definition four_in_row : GameRoom :=
  run started
    [ PlaceStone 1 (Some 7) (Some 3) 1; PlaceStone 2 (Some 8) (Some 3) 2;
      PlaceStone 1 (Some 7) (Some 4) 3; PlaceStone 2 (Some 8) (Some 4) 4;
      PlaceStone 1 (Some 7) (Some 5) 5; PlaceStone 2 (Some 8) (Some 5) 6;
      PlaceStone 1 (Some 7) (Some 6) 7; PlaceStone 2 (Some 8) (Some 6) 8 ].

End Invariants.

(** ** The room manager ([server/room_manager.py], [RoomManager]) *)

Module Manager.
Import Room Server.

(** [self.rooms]: a dictionary from room ids to rooms, in insertion
    order. *)
Record RoomManager : Type := mkManager {
  rooms : list (string * GameRoom);
  next_room_id : Z
}.

(** [RoomManager.__init__] *)
Definition init : RoomManager := mkManager [] 1.

(** [d[k] = v]: the value of an existing key is replaced in place, a new
    key goes to the end. *)
Fixpoint dict_store (k : string) (v : GameRoom) (d : list (string * GameRoom))
  : list (string * GameRoom) :=
  match d with
  | [] => [(k, v)]
  | (k', v') :: d' =>
      if String.eqb k' k then (k, v) :: d' else (k', v') :: dict_store k v d'
  end.

(** [d.get(k)] *)
Fixpoint dict_lookup (k : string) (d : list (string * GameRoom)) : option GameRoom :=
  match d with
  | [] => None
  | (k', v) :: d' => if String.eqb k' k then Some v else dict_lookup k d'
  end.

(** [if k in d: del d[k]] *)
Fixpoint dict_delete (k : string) (d : list (string * GameRoom))
  : list (string * GameRoom) :=
  match d with
  | [] => []
  | (k', v) :: d' => if String.eqb k' k then d' else (k', v) :: dict_delete k d'
  end.

(** [f"room_{n}"] *)
Definition room_name (n : Z) : string := "room_" +:+ pretty n.

(** [create_room]: the new id and the manager afterwards. *)
Definition create_room (m : RoomManager) : string * RoomManager :=
  let room_id := room_name (next_room_id m) in
  (room_id,
   mkManager (dict_store room_id (Room.init room_id) (rooms m)) (next_room_id m + 1)).

Definition get_room (room_id : string) (m : RoomManager) : option GameRoom :=
  dict_lookup room_id (rooms m).

Definition remove_room (room_id : string) (m : RoomManager) : RoomManager :=
  mkManager (dict_delete room_id (rooms m)) (next_room_id m).

(** The seats and spectators with a connection. *)
Definition active_players (r : GameRoom) : list Player :=
  List.filter (fun p => match socket p with Some _ => true | None => false end) (players r).

Definition active_spectators (r : GameRoom) : list Spectator :=
  List.filter (fun s => match spec_socket s with Some _ => true | None => false end)
    (spectators r).

(** The test of [cleanup_empty_rooms]: nobody is connected. *)
Definition deserted (r : GameRoom) : bool :=
  (length (active_players r) =? 0)%nat && (length (active_spectators r) =? 0)%nat.

(** [cleanup_empty_rooms]: collect the ids of the deserted rooms, then
    delete each. *)
Definition cleanup_empty_rooms (m : RoomManager) : RoomManager :=
  let empty_rooms := map fst (List.filter (fun kv => deserted (snd kv)) (rooms m)) in
  fold_left (fun m room_id => remove_room room_id m) empty_rooms m.

(** [find_room_by_socket]: the first room, in the order of the
    dictionary, that has the socket, with the role; [(None, None)]
    otherwise. *)
Fixpoint find_room (sock : Socket) (d : list (string * GameRoom))
  : option GameRoom * option string :=
  match d with
  | [] => (None, None)
  | (_, room) :: d' =>
      match get_player_by_socket sock room with
      | Some _ => (Some room, Some "player")
      | None =>
          match get_spectator_by_socket sock room with
          | Some _ => (Some room, Some "spectator")
          | None => find_room sock d'
          end
      end
  end.

Definition find_room_by_socket (sock : Socket) (m : RoomManager)
  : option GameRoom * option string :=
  find_room sock (rooms m).

(** *** What happens to a manager *)

(** The rooms are objects that the handlers change in place. *)
Fixpoint update_room (room_id : string) (f : GameRoom -> GameRoom)
    (d : list (string * GameRoom)) : list (string * GameRoom) :=
  match d with
  | [] => []
  | (k, v) :: d' =>
      if String.eqb k room_id then (k, f v) :: d' else (k, v) :: update_room room_id f d'
  end.

Inductive manager_event : Type :=
| CreateRoom
| RemoveRoom (room_id : string)
| Cleanup
| InRoom (room_id : string) (ev : event).

Definition manager_step (m : RoomManager) (e : manager_event) : RoomManager :=
  match e with
  | CreateRoom => snd (create_room m)
  | RemoveRoom room_id => remove_room room_id m
  | Cleanup => cleanup_empty_rooms m
  | InRoom room_id ev =>
      mkManager (update_room room_id (fun r => step r ev) (rooms m)) (next_room_id m)
  end.

Definition manager_run (m : RoomManager) (es : list manager_event) : RoomManager :=
  fold_left manager_step es m.

(** The keys are distinct, and each is an id handed out before. *)
Definition manager_inv (m : RoomManager) : Prop :=
  NoDup (map fst (rooms m)) /\
  1 <= next_room_id m /\
  forall k, k ∈ map fst (rooms m) ->
            exists j, 1 <= j < next_room_id m /\ k = room_name j.

(** Two rooms are made; the first one is joined, left and cleaned up; a
    third is made. *)
Definition busy_manager : RoomManager :=
  manager_run init
    [ CreateRoom; CreateRoom; InRoom "room_1" (Join 1 "A" 0);
      InRoom "room_2" (Join 2 "B" 0); InRoom "room_1" (Leave 1 1); Cleanup ].

(** *** Requests that move a client between rooms ([examples/gomoku_server.py]) *)

(** A handler changing, in place, the room stored under [room_id]. *)
Definition in_room (room_id : string) (f : GameRoom -> GameRoom) (m : RoomManager)
  : RoomManager :=
  mkManager (update_room room_id f (rooms m)) (next_room_id m).

(** [remove_from_room]: the room drops the client, then the empty rooms
    are cleaned up. *)
Definition remove_from_room (sock : Socket) (room : GameRoom) (role : option string)
    (is_disconnect : bool) (now : Time) (m : RoomManager) : RoomManager :=
  let m1 :=
    match role with
    | Some role_name =>
        if String.eqb role_name "player" then
          in_room (room_id room) (fun r => snd (remove_player sock is_disconnect now r)) m
        else if String.eqb role_name "spectator" then
          in_room (room_id room) (fun r => snd (remove_spectator sock r)) m
        else m
    | None => m
    end in
  cleanup_empty_rooms m1.

(** The first step of [handle_create_room], [handle_join_room] and
    [handle_spectate_room]: a client that is in a room leaves it. *)
Definition leave_existing (sock : Socket) (now : Time) (m : RoomManager) : RoomManager :=
  match find_room_by_socket sock m with
  | (Some existing_room, existing_role) =>
      remove_from_room sock existing_room existing_role false now m
  | (None, _) => m
  end.

(** [handle_create_room] *)
Definition handle_create_room (sock : Socket) (player_name : string) (now : Time)
    (m : RoomManager) : RoomManager :=
  let m1 := leave_existing sock now m in
  let '(room_id, m2) := create_room m1 in
  match get_room room_id m2 with
  | Some _ => in_room room_id (fun r => snd (add_player sock player_name r)) m2
  | None => m2
  end.

(** [handle_spectate_room]; an unknown room id is answered by an error. *)
Definition handle_spectate_room (sock : Socket) (room_id : string)
    (spectator_name : string) (now : Time) (m : RoomManager) : RoomManager :=
  let m1 := leave_existing sock now m in
  match get_room room_id m1 with
  | None => m1
  | Some _ => in_room room_id (fun r => add_spectator sock spectator_name r) m1
  end.

(** How often a socket occurs in a room, as a seat or as a spectator, and
    in all the rooms together. *)
Definition occurrences (sock : Socket) (r : GameRoom) : nat :=
  length (List.filter (has_socket sock) (players r)) +
  length (List.filter (spec_has_socket sock) (spectators r)).

Definition presence (sock : Socket) (m : RoomManager) : nat :=
  list_sum (map (fun kv => occurrences sock (snd kv)) (rooms m)).

(** Every room is stored under its own id. *)
Definition keyed (m : RoomManager) : Prop :=
  forall k r, In (k, r) (rooms m) -> room_id r = k.

(** A sits in the first of two rooms, B in the second. *)
Definition two_rooms : list manager_event :=
  [ CreateRoom; CreateRoom; InRoom "room_1" (Join 1 "A" 0); InRoom "room_2" (Join 2 "B" 0) ].

End Manager.

(** ** The wire protocol ([common/protocol.py])

    [Protocol.create_message] and [Protocol.parse_messages], with the parts
    of Python they rest on: [json.dumps] and [json.loads] with their default
    settings, [str.encode('utf-8')] / [bytes.decode('utf-8')], [str.strip]
    and [str.split].  A [str] is the list of its code points, a [bytes] the
    list of its octets.  Floats are not among the modelled values: a number
    literal with a fraction or an exponent, [NaN] and [Infinity] are read as
    a failure. *)

Module Protocol.
Local Close Scope string_scope.

Abbreviation pystr := (list Z).
Abbreviation bytes := (list Z).

(** A string literal of the source. *)
Definition chr (a : ascii) : Z := Z.of_N (N_of_ascii a).
Definition str (s : string) : pystr := map chr (list_ascii_of_string s).

(** Values that [json.dumps] accepts: [None], [bool], [int], [str], [list]
    and [dict] with [str] or [int] keys (in insertion order). *)
Inductive pykey : Type :=
| KStr (s : pystr)
| KInt (z : Z).

#[local] Unset Elimination Schemes.
Inductive pyval : Type :=
| PNone
| PBool (b : bool)
| PInt (z : Z)
| PStr (s : pystr)
| PList (l : list pyval)
| PDict (d : list (pykey * pyval)).
#[local] Set Elimination Schemes.

#[global] Instance pykey_eq_dec : EqDecision pykey.
Proof. solve_decision. Defined.

(** *** [json.dumps] *)

(** [str(int)] *)
Fixpoint dec_digits (fuel : nat) (n : Z) (acc : list Z) : list Z :=
  match fuel with
  | O => acc
  | S fuel' =>
      if n <? 10 then (48 + n) :: acc
      else dec_digits fuel' (n / 10) ((48 + n mod 10) :: acc)
  end.

Definition nat_to_str (n : Z) : pystr := dec_digits (S (Z.to_nat (Z.log2 n))) n [].

Definition int_to_str (z : Z) : pystr :=
  if z <? 0 then 45 :: nat_to_str (- z) else nat_to_str z.

(** ['{0:04x}'.format(n)] *)
Definition hex_digit (n : Z) : Z := if n <? 10 then 48 + n else 87 + n.

Definition hex4 (n : Z) : list Z :=
  [ hex_digit (n / 4096); hex_digit ((n / 256) mod 16);
    hex_digit ((n / 16) mod 16); hex_digit (n mod 16) ].

(** [py_encode_basestring_ascii]: the replacement of one character. *)
Definition escape_char (c : Z) : list Z :=
  if c =? 34 then [92; 34]             (* quote *)
  else if c =? 92 then [92; 92]        (* backslash *)
  else if c =? 10 then [92; 110]       (* newline: backslash n *)
  else if c =? 13 then [92; 114]       (* carriage return: backslash r *)
  else if c =? 9 then [92; 116]        (* tab: backslash t *)
  else if c =? 8 then [92; 98]         (* backspace: backslash b *)
  else if c =? 12 then [92; 102]       (* form feed: backslash f *)
  else if (32 <=? c) && (c <=? 126) then [c]
  else if c <? 65536 then 92 :: 117 :: hex4 c
  else
    let n := c - 65536 in
    let s1 := Z.lor 55296 (Z.land (Z.shiftr n 10) 1023) in
    let s2 := Z.lor 56320 (Z.land n 1023) in
    92 :: 117 :: hex4 s1 ++ 92 :: 117 :: hex4 s2.

Definition encode_string (s : pystr) : list Z :=
  34 :: flat_map escape_char s ++ [34].

(** [', '.join(...)] *)
Fixpoint join_sep (l : list (list Z)) : list Z :=
  match l with
  | [] => []
  | [x] => x
  | x :: rest => x ++ 44 :: 32 :: join_sep rest
  end.

(** A dictionary key is written as a string; an [int] key is coerced. *)
Definition encode_key (k : pykey) : list Z :=
  match k with
  | KStr s => encode_string s
  | KInt z => encode_string (int_to_str z)
  end.

Fixpoint dumps (v : pyval) : pystr :=
  match v with
  | PNone => str "null"
  | PBool true => str "true"
  | PBool false => str "false"
  | PInt z => int_to_str z
  | PStr s => encode_string s
  | PList l => 91 :: join_sep (map dumps l) ++ [93]
  | PDict d =>
      123 :: join_sep (map (fun kv => let '(k, v) := kv in
                                      encode_key k ++ 58 :: 32 :: dumps v) d) ++ [125]
  end.

(** *** [json.loads] *)

Definition is_json_ws (c : Z) : bool :=
  (c =? 32) || (c =? 9) || (c =? 10) || (c =? 13).

Fixpoint skip_ws (s : list Z) : list Z :=
  match s with
  | c :: r => if is_json_ws c then skip_ws r else s
  | [] => []
  end.

Definition hex_val (c : Z) : option Z :=
  if (48 <=? c) && (c <=? 57) then Some (c - 48)
  else if (97 <=? c) && (c <=? 102) then Some (c - 87)
  else if (65 <=? c) && (c <=? 70) then Some (c - 55)
  else None.

Definition hex4_val (a b c d : Z) : option Z :=
  a' ← hex_val a; b' ← hex_val b; c' ← hex_val c; d' ← hex_val d;
  Some (((a' * 16 + b') * 16 + c') * 16 + d').

(** The one-character escapes. *)
Definition unescape (c : Z) : option Z :=
  if c =? 34 then Some 34
  else if c =? 92 then Some 92
  else if c =? 47 then Some 47
  else if c =? 98 then Some 8
  else if c =? 102 then Some 12
  else if c =? 110 then Some 10
  else if c =? 114 then Some 13
  else if c =? 116 then Some 9
  else None.

(** [scanstring] in strict mode, from just after the opening quote: the
    string and the text after the closing quote. *)
Fixpoint scanstring (s : list Z) (acc : list Z) : option (pystr * list Z) :=
  match s with
  | [] => None
  | c :: r =>
      if c =? 34 then Some (rev acc, r)
      else if c =? 92 then
        match r with
        | [] => None
        | e :: r1 =>
            if e =? 117 then
              match r1 with
              | h1 :: h2 :: h3 :: h4 :: r2 =>
                  match hex4_val h1 h2 h3 h4 with
                  | None => None
                  | Some uni =>
                      if (55296 <=? uni) && (uni <=? 56319) then
                        match r2 with
                        | b :: u :: g1 :: g2 :: g3 :: g4 :: r3 =>
                            if (b =? 92) && (u =? 117) then
                              match hex4_val g1 g2 g3 g4 with
                              | None => None
                              | Some uni2 =>
                                  if (56320 <=? uni2) && (uni2 <=? 57343)
                                  then scanstring r3
                                         (65536 + Z.lor (Z.shiftl (uni - 55296) 10)
                                                        (uni2 - 56320) :: acc)
                                  else scanstring r2 (uni :: acc)
                              end
                            else scanstring r2 (uni :: acc)
                        | _ => scanstring r2 (uni :: acc)
                        end
                      else scanstring r2 (uni :: acc)
                  end
              | _ => None
              end
            else
              match unescape e with
              | Some c' => scanstring r1 (c' :: acc)
              | None => None
              end
        end
      else if c <? 32 then None
      else scanstring r (c :: acc)
  end.

Definition is_digit (c : Z) : bool := (48 <=? c) && (c <=? 57).

Fixpoint scan_digits (s : list Z) (acc : Z) : Z * list Z :=
  match s with
  | c :: r => if is_digit c then scan_digits r (10 * acc + (c - 48)) else (acc, s)
  | [] => (acc, [])
  end.

(** The integer part of [NUMBER_RE]: an optional minus sign, then a single
    zero or a nonzero digit followed by digits. *)
Definition scan_int (s : list Z) : option (Z * list Z) :=
  let '(negative, s1) :=
    match s with
    | c :: r => if c =? 45 then (true, r) else (false, s)
    | [] => (false, s)
    end in
  match s1 with
  | c :: r =>
      if c =? 48 then Some (0, r)
      else if (49 <=? c) && (c <=? 57) then
        let '(n, rest) := scan_digits s1 0 in
        Some (if negative then - n else n, rest)
      else None
  | [] => None
  end.

Definition scan_number (s : list Z) : option (pyval * list Z) :=
  match scan_int s with
  | None => None
  | Some (n, rest) =>
      match rest with
      | c :: _ =>
          if (c =? 46) || (c =? 101) || (c =? 69) then None   (* a float *)
          else Some (PInt n, rest)
      | [] => Some (PInt n, [])
      end
  end.

(** [s.startswith(prefix)], giving the rest. *)
Fixpoint strip_prefix (prefix s : list Z) : option (list Z) :=
  match prefix, s with
  | [], _ => Some s
  | p :: prefix', c :: s' => if p =? c then strip_prefix prefix' s' else None
  | _ :: _, [] => None
  end.

(** [dict(pairs)]: a later pair with the same key replaces the value. *)
Fixpoint dict_set (k : pykey) (v : pyval) (d : list (pykey * pyval)) : list (pykey * pyval) :=
  match d with
  | [] => [(k, v)]
  | (k', v') :: d' => if decide (k' = k) then (k, v) :: d' else (k', v') :: dict_set k v d'
  end.

Definition dict_of_pairs (pairs : list (pystr * pyval)) : list (pykey * pyval) :=
  fold_left (fun d kv => dict_set (KStr (fst kv)) (snd kv) d) pairs [].

(** The scanner: [scan_once], the member loop of [JSONObject] (entered just
    after the opening quote of a key) and the element loop of [JSONArray].
    [None] is a [JSONDecodeError] (or spent fuel). *)
Fixpoint scan_once (fuel : nat) (s : list Z) : option (pyval * list Z) :=
  match fuel with
  | O => None
  | S fuel' =>
      match s with
      | [] => None
      | c :: r =>
          if c =? 34 then
            match scanstring r [] with
            | Some (x, rest) => Some (PStr x, rest)
            | None => None
            end
          else if c =? 123 then
            match skip_ws r with
            | c1 :: r1 =>
                if c1 =? 125 then Some (PDict [], r1)
                else if c1 =? 34 then
                  match scan_members fuel' r1 with
                  | Some (pairs, rest) => Some (PDict (dict_of_pairs pairs), rest)
                  | None => None
                  end
                else None
            | [] => None
            end
          else if c =? 91 then
            match skip_ws r with
            | c1 :: r1 =>
                if c1 =? 93 then Some (PList [], r1)
                else
                  match scan_elements fuel' (c1 :: r1) with
                  | Some (values, rest) => Some (PList values, rest)
                  | None => None
                  end
            | [] => None
            end
          else
            match strip_prefix (str "null") s with
            | Some rest => Some (PNone, rest)
            | None =>
                match strip_prefix (str "true") s with
                | Some rest => Some (PBool true, rest)
                | None =>
                    match strip_prefix (str "false") s with
                    | Some rest => Some (PBool false, rest)
                    | None => scan_number s
                    end
                end
            end
      end
  end
with scan_members (fuel : nat) (s : list Z) : option (list (pystr * pyval) * list Z) :=
  match fuel with
  | O => None
  | S fuel' =>
      match scanstring s [] with
      | None => None
      | Some (key, s1) =>
          match skip_ws s1 with
          | c :: s2 =>
              if c =? 58 then
                match scan_once fuel' (skip_ws s2) with
                | None => None
                | Some (value, s3) =>
                    match skip_ws s3 with
                    | c1 :: s4 =>
                        if c1 =? 125 then Some ([(key, value)], s4)
                        else if c1 =? 44 then
                          match skip_ws s4 with
                          | c2 :: s5 =>
                              if c2 =? 34 then
                                match scan_members fuel' s5 with
                                | Some (pairs, rest) => Some ((key, value) :: pairs, rest)
                                | None => None
                                end
                              else None
                          | [] => None
                          end
                        else None
                    | [] => None
                    end
                end
              else None
          | [] => None
          end
      end
  end
with scan_elements (fuel : nat) (s : list Z) : option (list pyval * list Z) :=
  match fuel with
  | O => None
  | S fuel' =>
      match scan_once fuel' s with
      | None => None
      | Some (value, s1) =>
          match skip_ws s1 with
          | c :: s2 =>
              if c =? 93 then Some ([value], s2)
              else if c =? 44 then
                match scan_elements fuel' (skip_ws s2) with
                | Some (values, rest) => Some (value :: values, rest)
                | None => None
                end
              else None
          | [] => None
          end
      end
  end.

(** [json.loads]: one value, then nothing but whitespace.  The scanner
    consumes a character in every round, so [len(s) + 1] rounds suffice. *)
Definition loads (s : pystr) : option pyval :=
  match scan_once (S (length s)) (skip_ws s) with
  | Some (v, rest) =>
      match skip_ws rest with
      | [] => Some v
      | _ :: _ => None
      end
  | None => None
  end.

(** *** UTF-8 *)

Definition utf8_encode_char (c : Z) : option (list Z) :=
  if c <? 0 then None
  else if c <? 128 then Some [c]
  else if c <? 2048 then Some [Z.lor 192 (Z.shiftr c 6); Z.lor 128 (Z.land c 63)]
  else if c <? 65536 then
    if (55296 <=? c) && (c <=? 57343) then None   (* surrogates not allowed *)
    else Some [Z.lor 224 (Z.shiftr c 12);
               Z.lor 128 (Z.land (Z.shiftr c 6) 63);
               Z.lor 128 (Z.land c 63)]
  else if c <? 1114112 then
    Some [Z.lor 240 (Z.shiftr c 18);
          Z.lor 128 (Z.land (Z.shiftr c 12) 63);
          Z.lor 128 (Z.land (Z.shiftr c 6) 63);
          Z.lor 128 (Z.land c 63)]
  else None.

(** [str.encode('utf-8')]; [None] is a [UnicodeEncodeError]. *)
Fixpoint utf8_encode (s : pystr) : option bytes :=
  match s with
  | [] => Some []
  | c :: r =>
      match utf8_encode_char c, utf8_encode r with
      | Some b, Some bs => Some (b ++ bs)
      | _, _ => None
      end
  end.

Definition in_range (lo hi b : Z) : bool := (lo <=? b) && (b <=? hi).
Definition cont (b : Z) : bool := in_range 128 191 b.

(** [bytes.decode('utf-8')]; [None] is a [UnicodeDecodeError]. *)
Fixpoint utf8_decode (b : bytes) : option pystr :=
  match b with
  | [] => Some []
  | b0 :: r =>
      if in_range 0 127 b0 then
        match utf8_decode r with Some s => Some (b0 :: s) | None => None end
      else if in_range 194 223 b0 then
        match r with
        | b1 :: r1 =>
            if cont b1 then
              match utf8_decode r1 with
              | Some s => Some (Z.lor (Z.shiftl (Z.land b0 31) 6) (Z.land b1 63) :: s)
              | None => None
              end
            else None
        | _ => None
        end
      else if in_range 224 239 b0 then
        match r with
        | b1 :: b2 :: r2 =>
            if (if b0 =? 224 then in_range 160 191 b1
                else if b0 =? 237 then in_range 128 159 b1
                else cont b1) && cont b2 then
              match utf8_decode r2 with
              | Some s =>
                  Some (Z.lor (Z.shiftl (Z.land b0 15) 12)
                          (Z.lor (Z.shiftl (Z.land b1 63) 6) (Z.land b2 63)) :: s)
              | None => None
              end
            else None
        | _ => None
        end
      else if in_range 240 244 b0 then
        match r with
        | b1 :: b2 :: b3 :: r3 =>
            if (if b0 =? 240 then in_range 144 191 b1
                else if b0 =? 244 then in_range 128 143 b1
                else cont b1) && cont b2 && cont b3 then
              match utf8_decode r3 with
              | Some s =>
                  Some (Z.lor (Z.shiftl (Z.land b0 7) 18)
                          (Z.lor (Z.shiftl (Z.land b1 63) 12)
                             (Z.lor (Z.shiftl (Z.land b2 63) 6) (Z.land b3 63))) :: s)
              | None => None
              end
            else None
        | _ => None
        end
      else None
  end.

(** *** [str.strip] and [str.split] *)

(** [str.isspace] of one character. *)
Definition py_isspace (c : Z) : bool :=
  in_range 9 13 c || in_range 28 32 c || (c =? 133) || (c =? 160) || (c =? 5760)
  || in_range 8192 8202 c || (c =? 8232) || (c =? 8233) || (c =? 8239)
  || (c =? 8287) || (c =? 12288).

Fixpoint lstrip (s : pystr) : pystr :=
  match s with
  | c :: r => if py_isspace c then lstrip r else s
  | [] => []
  end.

Definition rstrip (s : pystr) : pystr := rev (lstrip (rev s)).

Definition strip (s : pystr) : pystr := rstrip (lstrip s).

(** [s.split('\n')] *)
Fixpoint split_lines (s : pystr) : list pystr :=
  match s with
  | [] => [[]]
  | c :: r =>
      if c =? 10 then [] :: split_lines r
      else
        match split_lines r with
        | line :: lines => (c :: line) :: lines
        | [] => [[c]]
        end
  end.

(** *** [Protocol] *)

(** Truth value of a Python object. *)
Definition py_truthy (v : pyval) : bool :=
  match v with
  | PNone => false
  | PBool b => b
  | PInt z => negb (z =? 0)
  | PStr s => match s with [] => false | _ => true end
  | PList l => match l with [] => false | _ => true end
  | PDict d => match d with [] => false | _ => true end
  end.

(** The dictionary that [create_message] builds; [timestamp] is
    [datetime.now().isoformat()]. *)
Definition envelope (timestamp msg_type : pystr) (data : pyval) : pyval :=
  PDict [ (KStr (str "type"), PStr msg_type);
          (KStr (str "data"), if py_truthy data then data else PDict []);
          (KStr (str "timestamp"), PStr timestamp) ].

(** [create_message(msg_type, data)]; [data = None] when omitted. *)
Definition create_message (timestamp msg_type : pystr) (data : pyval) : option bytes :=
  utf8_encode (dumps (envelope timestamp msg_type data) ++ [10]).

(** [parse_messages(raw_data)] *)
Definition parse_messages (raw_data : bytes) : list pyval :=
  match utf8_decode raw_data with
  | None => []
  | Some text =>
      let lines := split_lines (strip text) in
      omap (fun line =>
              match strip line with
              | [] => None               (* a blank line is skipped *)
              | _ :: _ => loads line     (* a line that fails to parse is skipped *)
              end) lines
  end.

(** [message[key]] on a parsed message. *)
Definition dict_get (k : pykey) (v : pyval) : option pyval :=
  match v with
  | PDict d => snd <$> find (fun kv => bool_decide (fst kv = k)) d
  | _ => None
  end.

(** *** Values that survive the round trip *)

(** A Unicode scalar value: a code point that is no surrogate. *)
Definition ok_char (c : Z) : bool :=
  (0 <=? c) && (c <? 1114112) && negb ((55296 <=? c) && (c <=? 57343)).

Definition ok_str (s : pystr) : bool := forallb ok_char s.

Definition ok_key (k : pykey) : bool :=
  match k with
  | KStr s => ok_str s
  | KInt _ => false
  end.

Fixpoint distinct_keys (ks : list pykey) : bool :=
  match ks with
  | [] => true
  | k :: rest => negb (existsb (fun k' => bool_decide (k' = k)) rest) && distinct_keys rest
  end.

(** Strings of scalar values, and dictionaries with distinct string keys,
    at every level. *)
Fixpoint ok_val (v : pyval) : bool :=
  match v with
  | PNone | PBool _ | PInt _ => true
  | PStr s => ok_str s
  | PList l => forallb ok_val l
  | PDict d =>
      distinct_keys (map fst d) &&
      forallb (fun kv => let '(k, v) := kv in ok_key k && ok_val v) d
  end.

(** The number that a digit string denotes. *)
Definition digits_value (ds : list Z) (a : Z) : Z :=
  fold_left (fun a c => 10 * a + (c - 48)) ds a.

(** The text after a number: not a digit, and not the start of a fraction
    or an exponent. *)
Definition ends_number (rest : list Z) : Prop :=
  match rest with
  | [] => True
  | c :: _ => is_digit c = false /\ c <> 46 /\ c <> 101 /\ c <> 69
  end.

(** Printable ASCII. *)
Definition printable (c : Z) : Prop := 32 <= c <= 126.

(** The scanner rounds that reading [dumps v] back takes at most. *)
Fixpoint rounds (v : pyval) : nat :=
  match v with
  | PList l => S (fold_right (fun x n => S (rounds x + n)) O l)
  | PDict d => S (fold_right (fun kv n => let '(_, x) := kv in S (rounds x + n)) O d)
  | _ => 1
  end.

(** *** Notions of the round-trip proof *)

(** The first character of a value's text. *)
Definition value_start (c : Z) : Prop :=
  is_json_ws c = false /\ c <> 93 /\ c <> 125 /\ c <> 44.

(** The text after a value inside a list or a dictionary, or at the end. *)
Definition ends_value (rest : list Z) : Prop :=
  match rest with
  | [] => True
  | c :: _ => c = 44 \/ c = 93 \/ c = 125
  end.

Definition ok_member (kv : pykey * pyval) : Prop :=
  (exists s, fst kv = KStr s /\ ok_str s = true) /\ ok_val (snd kv) = true.

(** The rounds for the items of a list and the members of a dictionary. *)
Definition list_rounds (l : list pyval) : nat :=
  fold_right (fun x n => S (rounds x + n)) O l.

Definition dict_rounds (d : list (pykey * pyval)) : nat :=
  fold_right (fun kv n => let '(_, x) := kv in S (rounds x + n)) O d.

(** What a value must satisfy for the scanner to read its text back. *)
Definition reads_back (v : pyval) : Prop :=
  forall fuel rest, (rounds v <= fuel)%nat -> ends_value rest ->
                    scan_once fuel (dumps v ++ rest) = Some (v, rest).

(** The text of a key as [dumps] writes it, and the members as the scanner
    returns them. *)
Definition key_text (k : pykey) : pystr :=
  match k with
  | KStr s => s
  | KInt z => int_to_str z
  end.

Definition pairs_of (d : list (pykey * pyval)) : list (pystr * pyval) :=
  map (fun kv => (key_text (fst kv), snd kv)) d.

Definition member_text (kv : pykey * pyval) : list Z :=
  let '(k, v) := kv in encode_key k ++ 58 :: 32 :: dumps v.

(** A text that starts, or ends, with a character that is no white space. *)
Definition starts_clean (l : pystr) : Prop :=
  exists c cs, l = c :: cs /\ py_isspace c = false.

Definition ends_clean (l : pystr) : Prop :=
  exists cs c, l = cs ++ [c] /\ py_isspace c = false.

(** A line of the wire: clean at both ends, and without a newline. *)
Definition clean_line (l : pystr) : Prop :=
  starts_clean l /\ ends_clean l /\ Forall (fun c => c <> 10) l.

(** Lines joined by newlines. *)
Fixpoint join_lines (lines : list pystr) : pystr :=
  match lines with
  | [] => []
  | [l] => l
  | l :: rest => l ++ 10 :: join_lines rest
  end.

(** What [parse_messages] keeps of a line. *)
Definition read_line (line : pystr) : option pyval :=
  match strip line with
  | [] => None
  | _ :: _ => loads line
  end.

(** A message of the wire: a well-formed dictionary. *)
Definition ok_message (m : pyval) : Prop :=
  exists d, m = PDict d /\ ok_val m = true.

(** *** Calls of [create_message] *)

(** A call [create_message(msg_type, data)] made when the clock reads
    [at_time] ([datetime.now().isoformat()]); [data] is [PNone] when the
    argument is omitted. *)
Record call := Call {
  at_time : pystr;
  msg_type : pystr;
  data : pyval;
}.

(** The message that a call puts on the wire. *)
Definition message_of (c : call) : pyval :=
  envelope (at_time c) (msg_type c) (data c).

(** The [data] field of that message: [data if data else {}]. *)
Definition data_field (d : pyval) : pyval :=
  if py_truthy d then d else PDict [].

(** The bytes of several calls, one after the other. *)
Fixpoint create_messages (calls : list call) : option bytes :=
  match calls with
  | [] => Some []
  | c :: rest =>
      match create_message (at_time c) (msg_type c) (data c), create_messages rest with
      | Some b, Some bs => Some (b ++ bs)
      | _, _ => None
      end
  end.

(** A call whose strings are made of scalar values and whose data is a
    value of strings, integers, booleans, [None], lists and dictionaries
    with distinct string keys. *)
Definition ok_call (c : call) : Prop :=
  ok_str (at_time c) = true /\ ok_str (msg_type c) = true /\ ok_val (data c) = true.

(** What the receiver reads in a message of a call. *)
Definition carries (c : call) (m : pyval) : Prop :=
  dict_get (KStr (str "type")) m = Some (PStr (msg_type c)) /\
  dict_get (KStr (str "data")) m = Some (data_field (data c)) /\
  dict_get (KStr (str "timestamp")) m = Some (PStr (at_time c)).

(** Two calls: a READY for a room, and a LIST_ROOMS without data. *)
Definition two_calls : list call :=
  [ Call (str "2025-01-01T09:00:00.000001") (str "READY")
         (PDict [(KStr (str "room_id"), PStr (str "room_1"))]);
    Call (str "2025-01-01T09:00:01.000002") (str "LIST_ROOMS") PNone ].

(** A dictionary with an integer key, which [json.dumps] accepts. *)
Definition int_key_data : pyval := PDict [(KInt 1, PNone)].

(** *** Replies and single messages *)

(** [parse_message]: [messages[0] if messages else None]. *)
Definition parse_message (raw_data : bytes) : option pyval :=
  match parse_messages raw_data with
  | m :: _ => Some m
  | [] => None
  end.

(** [d.update(e)] *)
Definition dict_update (d e : list (pykey * pyval)) : list (pykey * pyval) :=
  fold_left (fun d kv => dict_set (fst kv) (snd kv) d) e d.

(** [create_error(error_message)] *)
Definition create_error (timestamp : pystr) (error_message : pyval) : option bytes :=
  create_message timestamp (str "ERROR") (PDict [(KStr (str "message"), error_message)]).

(** [create_success(success_message, extra_data)]; [extra_data] is [None]
    or a dictionary, and is merged in when it is not empty. *)
Definition create_success (timestamp : pystr) (success_message : pyval)
    (extra_data : option (list (pykey * pyval))) : option bytes :=
  let data := [(KStr (str "message"), success_message)] in
  let data := match extra_data with
              | Some (kv :: e) => dict_update data (kv :: e)
              | _ => data
              end in
  create_message timestamp (str "SUCCESS") (PDict data).

(** A byte that occurs in no UTF-8 encoding. *)
Definition never_utf8 (b : Z) : Prop := b = 192 \/ b = 193 \/ 245 <= b.

(** The text of a buffer: its lines, each closed by a newline. *)
Definition text_of_lines (lines : list pystr) : pystr :=
  concat (map (fun l => l ++ [10]) lines).

(** A buffer with a line that is no JSON and an empty line between two
    messages. *)
Definition noisy_lines : list pystr :=
  [ dumps (envelope (str "t1") (str "READY") (PDict []));
    str "{oops";
    [];
    dumps (envelope (str "t2") (str "LIST_ROOMS") (PDict [])) ].

End Protocol.

(* ===================================================================== *)
(** * Properties *)
(* ===================================================================== *)

(** ** Board *)

Section BoardFacts.
Import Board.

Lemma valid_bounds b x y :
  is_valid_position b x y = true <-> (0 <= x < size b /\ 0 <= y < size b).
Proof. unfold is_valid_position. rewrite !andb_true_iff. lia. Qed.

Lemma py_norm_index_nonneg len i :
  0 <= i < Z.of_nat len -> py_norm_index len i = Some (Z.to_nat i).
Proof.
  intros H. unfold py_norm_index.
  destruct (Z.leb_spec 0 i); [|lia]. destruct (Z.ltb_spec i (Z.of_nat len)); [|lia].
  reflexivity.
Qed.

Lemma wf_row b x :
  wf b -> 0 <= x < size b ->
  exists row, board b !! Z.to_nat x = Some row /\ length row = Z.to_nat (size b).
Proof.
  intros (Hs & Hl & Hr) Hx.
  destruct (lookup_lt_is_Some_2 (board b) (Z.to_nat x)) as [row Hrow]; [lia|].
  exists row. split; [done|].
  rewrite Forall_forall in Hr. apply Hr.
  eapply list_elem_of_lookup_2; eauto.
Qed.

(** On a well-shaped board a valid position is read without [IndexError]. *)
Lemma get_valid b x y :
  wf b -> is_valid_position b x y = true -> get b x y = Ok (stone b x y).
Proof.
  intros Hwf Hv. apply valid_bounds in Hv as [Hx Hy].
  destruct (wf_row b x Hwf Hx) as (row & Hrow & Hlen).
  destruct Hwf as (Hs & Hl & _).
  unfold get, stone, py_getitem. rewrite Hl, py_norm_index_nonneg by lia.
  rewrite Hrow. simpl. rewrite Hlen, py_norm_index_nonneg by lia.
  destruct (lookup_lt_is_Some_2 row (Z.to_nat y)) as [c Hc]; [lia|].
  rewrite Hc. reflexivity.
Qed.

Lemma cell_is_Some c color : cell_is c color = true <-> c = Some color.
Proof.
  destruct c as [s|]; simpl.
  - rewrite String.eqb_eq. split; congruence.
  - split; discriminate.
Qed.

Lemma holdsb_holds b color x y : holdsb b color x y = true <-> holds b color x y.
Proof. unfold holdsb, holds. rewrite andb_true_iff, cell_is_Some. tauto. Qed.

Lemma walk_step fuel b color nx ny dx dy count :
  wf b ->
  walk (S fuel) b color nx ny dx dy count =
    if holdsb b color nx ny
    then walk fuel b color (nx + dx) (ny + dy) dx dy (count + 1)
    else Some (Ok count).
Proof.
  intros Hwf. simpl. unfold holdsb.
  destruct (is_valid_position b nx ny) eqn:Hv; [|reflexivity].
  rewrite get_valid by assumption. reflexivity.
Qed.

Lemma room_left_nonneg b nx ny dx dy : 0 <= room_left b nx ny dx dy.
Proof.
  unfold room_left. destruct (is_valid_position b nx ny) eqn:Hv; [|lia].
  apply valid_bounds in Hv. repeat case_match; lia.
Qed.

Lemma room_left_step b nx ny dx dy :
  unit_dir dx dy -> is_valid_position b nx ny = true ->
  room_left b (nx + dx) (ny + dy) dx dy < room_left b nx ny dx dy.
Proof.
  intros (Hdx & Hdy & Hne) Hv. unfold room_left. rewrite Hv.
  apply valid_bounds in Hv.
  destruct (is_valid_position b (nx + dx) (ny + dy)) eqn:Hv'.
  - apply valid_bounds in Hv'.
    repeat case_match; lia.
  - repeat case_match; lia.
Qed.

(** The walk stops, having counted exactly the cells of the maximal
    stretch of [color] that starts at [(nx, ny)]. *)
Lemma walk_spec b color dx dy :
  wf b -> unit_dir dx dy ->
  forall fuel nx ny count,
    room_left b nx ny dx dy < Z.of_nat fuel ->
    exists n : Z,
      0 <= n /\
      walk fuel b color nx ny dx dy count = Some (Ok (count + n)) /\
      (forall k, 0 <= k < n -> holds b color (nx + k * dx) (ny + k * dy)) /\
      ~ holds b color (nx + n * dx) (ny + n * dy).
Proof.
  intros Hwf Hdir. induction fuel as [|fuel IH]; intros nx ny count Hfuel.
  - pose proof (room_left_nonneg b nx ny dx dy). lia.
  - rewrite walk_step by assumption.
    destruct (holdsb b color nx ny) eqn:Hh.
    + apply holdsb_holds in Hh. pose proof Hh as [Hv _].
      pose proof (room_left_step b nx ny dx dy Hdir Hv) as Hlt.
      destruct (IH (nx + dx) (ny + dy) (count + 1)) as (n & Hn & Hw & Hall & Hstop); [lia|].
      exists (n + 1). split; [lia|]. split; [rewrite Hw; do 2 f_equal; lia|]. split.
      * intros k Hk. destruct (Z.eq_dec k 0) as [->|Hk0].
        -- replace (nx + 0 * dx) with nx by lia. replace (ny + 0 * dy) with ny by lia. exact Hh.
        -- specialize (Hall (k - 1) ltac:(lia)).
           replace (nx + k * dx) with (nx + dx + (k - 1) * dx) by lia.
           replace (ny + k * dy) with (ny + dy + (k - 1) * dy) by lia. exact Hall.
      * replace (nx + (n + 1) * dx) with (nx + dx + n * dx) by lia.
        replace (ny + (n + 1) * dy) with (ny + dy + n * dy) by lia. exact Hstop.
    + exists 0. split; [lia|]. split; [do 2 f_equal; lia|]. split; [intros; lia|].
      replace (nx + 0 * dx) with nx by lia. replace (ny + 0 * dy) with ny by lia.
      rewrite <- holdsb_holds. congruence.
Qed.

Lemma room_left_le_size b nx ny dx dy :
  0 <= size b -> room_left b nx ny dx dy <= size b.
Proof.
  intros Hs. unfold room_left. destruct (is_valid_position b nx ny) eqn:Hv; [|lia].
  apply valid_bounds in Hv. repeat case_match; lia.
Qed.

(** One axis: the count is the length of the maximal run through [(x, y)]. *)
Lemma count_axis_spec fuel b color x y dx dy :
  wf b -> unit_dir dx dy -> size b < Z.of_nat fuel ->
  exists n1 n2 : Z,
    0 <= n1 /\ 0 <= n2 /\
    count_axis fuel b color x y ((dx, dy), (- dx, - dy)) = Some (Ok (1 + n1 + n2)) /\
    (forall k, 1 <= k <= n1 -> holds b color (x + k * dx) (y + k * dy)) /\
    (forall k, - n2 <= k <= -1 -> holds b color (x + k * dx) (y + k * dy)) /\
    ~ holds b color (x + (n1 + 1) * dx) (y + (n1 + 1) * dy) /\
    ~ holds b color (x + (- n2 - 1) * dx) (y + (- n2 - 1) * dy).
Proof.
  intros Hwf Hdir Hfuel.
  assert (Hdir' : unit_dir (- dx) (- dy)) by (unfold unit_dir in *; lia).
  pose proof Hwf as (Hs & _).
  destruct (walk_spec b color dx dy Hwf Hdir fuel (x + dx) (y + dy) 1)
    as (n1 & Hn1 & Hw1 & Hall1 & Hstop1).
  { pose proof (room_left_le_size b (x + dx) (y + dy) dx dy Hs). lia. }
  destruct (walk_spec b color (- dx) (- dy) Hwf Hdir' fuel (x + - dx) (y + - dy) (1 + n1))
    as (n2 & Hn2 & Hw2 & Hall2 & Hstop2).
  { pose proof (room_left_le_size b (x + - dx) (y + - dy) (- dx) (- dy) Hs). lia. }
  exists n1, n2. split; [lia|]. split; [lia|]. split.
  { unfold count_axis. rewrite Hw1. exact Hw2. }
  split; [|split; [|split]].
  - intros k Hk. specialize (Hall1 (k - 1) ltac:(lia)).
    replace (x + k * dx) with (x + dx + (k - 1) * dx) by lia.
    replace (y + k * dy) with (y + dy + (k - 1) * dy) by lia. exact Hall1.
  - intros k Hk. specialize (Hall2 (- k - 1) ltac:(lia)).
    replace (x + k * dx) with (x + - dx + (- k - 1) * - dx) by lia.
    replace (y + k * dy) with (y + - dy + (- k - 1) * - dy) by lia. exact Hall2.
  - replace (x + (n1 + 1) * dx) with (x + dx + n1 * dx) by lia.
    replace (y + (n1 + 1) * dy) with (y + dy + n1 * dy) by lia. exact Hstop1.
  - replace (x + (- n2 - 1) * dx) with (x + - dx + n2 * - dx) by lia.
    replace (y + (- n2 - 1) * dy) with (y + - dy + n2 * - dy) by lia. exact Hstop2.
Qed.

(** The count of an axis reaches five exactly when a run of at least five
    passes through [(x, y)] on that axis. *)
Lemma count_axis_run fuel b color x y dx dy :
  wf b -> unit_dir dx dy -> size b < Z.of_nat fuel -> holds b color x y ->
  exists count : Z,
    count_axis fuel b color x y ((dx, dy), (- dx, - dy)) = Some (Ok count) /\
    (5 <= count <-> exists len, 5 <= len /\ run_through b color x y dx dy len).
Proof.
  intros Hwf Hdir Hfuel Hxy.
  destruct (count_axis_spec fuel b color x y dx dy Hwf Hdir Hfuel)
    as (n1 & n2 & Hn1 & Hn2 & Hc & Hfwd & Hbwd & Hstop1 & Hstop2).
  exists (1 + n1 + n2). split; [exact Hc|]. split.
  - intros H5. exists (1 + n1 + n2). split; [lia|].
    exists (- n2), n1. split; [lia|]. split; [lia|].
    intros k Hk. destruct (Z.eq_dec k 0) as [->|Hk0].
    + replace (x + 0 * dx) with x by lia. replace (y + 0 * dy) with y by lia. exact Hxy.
    + destruct (Z_lt_le_dec k 0); [apply Hbwd | apply Hfwd]; lia.
  - intros (len & H5 & lo & hi & Hlohi & Hlen & Hrun).
    assert (hi <= n1).
    { destruct (Z_le_gt_dec hi n1); [assumption|].
      exfalso. apply Hstop1. apply Hrun. lia. }
    assert (- n2 <= lo).
    { destruct (Z_le_gt_dec (- n2) lo); [assumption|].
      exfalso. apply Hstop2. apply Hrun. lia. }
    lia.
Qed.

Lemma check_axes_spec fuel b color x y dirs :
  wf b -> size b < Z.of_nat fuel -> holds b color x y ->
  Forall axis_pair dirs ->
  (check_axes fuel b color x y dirs = Some (Ok (Some color)) /\
   exists p len, p ∈ dirs /\ 5 <= len /\
                 run_through b color x y (fst (fst p)) (snd (fst p)) len)
  \/
  (check_axes fuel b color x y dirs = Some (Ok None) /\
   forall p len, p ∈ dirs -> 5 <= len ->
                 ~ run_through b color x y (fst (fst p)) (snd (fst p)) len).
Proof.
  intros Hwf Hfuel Hxy. induction 1 as [|p dirs Hp Hdirs IH].
  - right. split; [reflexivity|]. intros p len Hin. inversion Hin.
  - destruct p as [[dx dy] q]. destruct Hp as [Hdir Hq]. simpl in Hdir, Hq. subst q.
    destruct (count_axis_run fuel b color x y dx dy Hwf Hdir Hfuel Hxy)
      as (count & Hc & Hiff).
    cbn [check_axes]. rewrite Hc.
    destruct (Z.leb_spec 5 count) as [H5|H5].
    + left. split; [reflexivity|].
      apply Hiff in H5 as (len & Hlen & Hrun).
      exists (dx, dy, (- dx, - dy)), len. split; [left|]. auto.
    + destruct IH as [(He & p & len & Hin & Hlen & Hrun)|(He & Hno)].
      * left. split; [exact He|]. exists p, len. split; [right; exact Hin|]. auto.
      * right. split; [exact He|]. intros p len Hin Hlen Hrun.
        apply elem_of_cons in Hin as [->|Hin].
        -- simpl in Hrun. assert (5 <= count) by (apply Hiff; eauto). lia.
        -- eapply Hno; eauto.
Qed.

Lemma directions_axis_pairs : Forall axis_pair directions.
Proof.
  unfold directions.
  repeat (apply Forall_cons; split; [split; [unfold unit_dir; simpl; lia | reflexivity]|]).
  apply Forall_nil_2.
Qed.

Lemma directions_axes p :
  p ∈ directions <-> fst p ∈ axes /\ snd p = (- fst (fst p), - snd (fst p)).
Proof.
  unfold directions, axes. destruct p as [[dx dy] [ex ey]]. simpl.
  rewrite !elem_of_cons, !elem_of_nil. split.
  - intros [H|[H|[H|[H|[]]]]]; inversion H; subst; simpl; tauto.
  - intros [[H|[H|[H|[H|[]]]]] Hq]; inversion H; subst; inversion Hq; subst; simpl; tauto.
Qed.

(** [check_winner] with any fuel above [size], on a stone of [color]. *)
Lemma check_winner_fuel_spec fuel b x y color :
  wf b -> size b < Z.of_nat fuel ->
  is_valid_position b x y = true -> stone b x y = Some color ->
  (check_winner_fuel fuel b x y = Some (Ok (Some color)) /\ winning_run b color x y)
  \/
  (check_winner_fuel fuel b x y = Some (Ok None) /\ ~ winning_run b color x y).
Proof.
  intros Hwf Hfuel Hv Hst.
  unfold check_winner_fuel. rewrite get_valid, Hst by assumption.
  destruct (check_axes_spec fuel b color x y directions Hwf Hfuel (conj Hv Hst)
              directions_axis_pairs)
    as [(He & p & len & Hin & Hlen & Hrun)|(He & Hno)].
  - left. split; [exact He|].
    apply directions_axes in Hin as [Hin _]. destruct p as [[dx dy] q]. simpl in *.
    exists dx, dy, len. auto.
  - right. split; [exact He|]. intros (dx & dy & len & Hin & Hlen & Hrun).
    apply (Hno (dx, dy, (- dx, - dy)) len); [|assumption|assumption].
    apply directions_axes. simpl. auto.
Qed.

(** The fuel that [check_winner] supplies is never exhausted: any larger
    amount gives the same answer. *)
Lemma check_winner_fuel_enough fuel b x y :
  wf b -> size b < Z.of_nat fuel -> is_valid_position b x y = true ->
  check_winner_fuel fuel b x y = check_winner b x y /\
  exists r, check_winner b x y = Some (Ok r).
Proof.
  intros Hwf Hfuel Hv. unfold check_winner.
  destruct (stone b x y) as [color|] eqn:Hst.
  - assert (Hf0 : size b < Z.of_nat (S (Z.to_nat (size b)))) by (destruct Hwf; lia).
    destruct (check_winner_fuel_spec fuel b x y color Hwf Hfuel Hv Hst) as [[H1 Hr]|[H1 Hr]];
    destruct (check_winner_fuel_spec _ b x y color Hwf Hf0 Hv Hst) as [[H2 Hr']|[H2 Hr']];
    try contradiction; rewrite H1, H2; eauto.
  - unfold check_winner_fuel. rewrite get_valid, Hst by assumption. eauto.
Qed.

(** C1. For a coordinate on the board, [check_winner] returns the colour
    stored at [(x, y)] exactly when a contiguous run of at least five stones
    of that colour passes through [(x, y)] along one of the four axes;
    otherwise (also on an empty cell) it returns [None]; a run of six wins
    as well.  The call always returns: the loops terminate and nothing is
    raised. *)
Theorem check_winner_correct b x y :
  wf b -> is_valid_position b x y = true ->
  (forall color,
     check_winner b x y = Some (Ok (Some color)) <->
     stone b x y = Some color /\ winning_run b color x y) /\
  (~ (exists color, stone b x y = Some color /\ winning_run b color x y) ->
   check_winner b x y = Some (Ok None)) /\
  (stone b x y = None -> check_winner b x y = Some (Ok None)) /\
  (forall color dx dy,
     (dx, dy) ∈ axes -> run_through b color x y dx dy 6 ->
     check_winner b x y = Some (Ok (Some color))).
Proof.
  intros Hwf Hv.
  assert (Hf0 : size b < Z.of_nat (S (Z.to_nat (size b)))) by (destruct Hwf; lia).
  assert (Hempty : stone b x y = None -> check_winner b x y = Some (Ok None)).
  { intros Hst. unfold check_winner, check_winner_fuel.
    rewrite get_valid, Hst by assumption. reflexivity. }
  assert (Hiff : forall color,
     check_winner b x y = Some (Ok (Some color)) <->
     stone b x y = Some color /\ winning_run b color x y).
  { intros color. split.
    - intros Hc. destruct (stone b x y) as [c|] eqn:Hst.
      + destruct (check_winner_fuel_spec _ b x y c Hwf Hf0 Hv Hst) as [[H1 Hr]|[H1 Hr]];
          unfold check_winner in Hc; rewrite H1 in Hc; inversion Hc; subst; auto.
      + rewrite Hempty in Hc by reflexivity. discriminate.
    - intros [Hst Hrun].
      destruct (check_winner_fuel_spec _ b x y color Hwf Hf0 Hv Hst) as [[H1 Hr]|[H1 Hr]];
        [exact H1 | contradiction]. }
  split; [exact Hiff|]. split; [|split; [exact Hempty|]].
  - intros Hno. destruct (stone b x y) as [c|] eqn:Hst; [|auto].
    destruct (check_winner_fuel_spec _ b x y c Hwf Hf0 Hv Hst) as [[H1 Hr]|[H1 Hr]];
      [|exact H1].
    exfalso. apply Hno. eauto.
  - intros color dx dy Hax Hrun. apply Hiff.
    assert (Hxy : holds b color x y).
    { destruct Hrun as (lo & hi & Hlohi & _ & Hall).
      specialize (Hall 0 ltac:(lia)).
      replace (x + 0 * dx) with x in Hall by lia.
      replace (y + 0 * dy) with y in Hall by lia. exact Hall. }
    split; [apply Hxy|]. exists dx, dy, 6. split; [assumption|]. split; [lia|assumption].
Qed.

Lemma wf_init sz : 0 <= sz -> wf (init sz).
Proof.
  intros Hs. unfold wf, init, empty_grid. simpl. split; [assumption|].
  rewrite length_replicate. split; [reflexivity|].
  apply Forall_replicate. apply length_replicate.
Qed.

Example check_winner_S1_before :
  check_winner board_S1_before 7 6 = Some (Ok None).
Proof. vm_compute. reflexivity. Qed.

Example check_winner_S1 :
  check_winner board_S1 7 7 = Some (Ok (Some "black")).
Proof. vm_compute. reflexivity. Qed.

Example check_winner_S2_overline :
  check_winner board_S2 3 3 = Some (Ok (Some "black")).
Proof. vm_compute. reflexivity. Qed.

Example check_winner_empty_cell :
  check_winner board_S1 0 0 = Some (Ok None).
Proof. vm_compute. reflexivity. Qed.

Lemma wf_board_S1 : wf board_S1.
Proof.
  unfold wf. split; [vm_compute; discriminate|]. split; [vm_compute; reflexivity|].
  vm_compute. repeat constructor.
Defined.

Lemma check_winner_correct_witness :
  stone board_S1 7 7 = Some "black" /\ winning_run board_S1 "black" 7 7.
Proof.
  apply (proj1 (check_winner_correct board_S1 7 7 wf_board_S1 eq_refl) "black").
  vm_compute. reflexivity.
Defined.

(** *** Placement *)

Lemma is_empty_valid b x y :
  wf b -> is_valid_position b x y = true ->
  is_empty b x y = Ok (match stone b x y with None => true | Some _ => false end).
Proof.
  intros Hwf Hv. unfold is_empty. rewrite Hv. simpl.
  rewrite get_valid by assumption. reflexivity.
Qed.

Lemma set_valid b x y color :
  wf b -> is_valid_position b x y = true ->
  set b x y color = Ok (mkBoard (size b) (grid_with b x y color)).
Proof.
  intros Hwf Hv. apply valid_bounds in Hv as [Hx Hy].
  destruct (wf_row b x Hwf Hx) as (row & Hrow & Hlen).
  destruct Hwf as (Hs & Hl & _).
  unfold set, grid_with, py_getitem, py_setitem.
  rewrite Hl, py_norm_index_nonneg by lia. rewrite Hrow.
  unfold mbind, result_bind.
  rewrite Hlen, py_norm_index_nonneg by lia. reflexivity.
Qed.

Lemma wf_grid_with b x y color :
  wf b -> wf (mkBoard (size b) (grid_with b x y color)).
Proof.
  intros (Hs & Hl & Hr). unfold wf, grid_with. simpl.
  destruct (board b !! Z.to_nat x) as [row|] eqn:Hrow; [|auto].
  split; [assumption|]. rewrite length_insert. split; [assumption|].
  apply Forall_insert; [assumption|]. rewrite length_insert.
  rewrite Forall_forall in Hr. apply Hr. eapply list_elem_of_lookup_2; eauto.
Qed.

Lemma stone_grid_with_same b x y color :
  wf b -> is_valid_position b x y = true ->
  stone (mkBoard (size b) (grid_with b x y color)) x y = Some color.
Proof.
  intros Hwf Hv. apply valid_bounds in Hv as [Hx Hy].
  destruct (wf_row b x Hwf Hx) as (row & Hrow & Hlen).
  destruct Hwf as (Hs & Hl & _).
  unfold stone, grid_with. simpl. rewrite Hrow.
  rewrite list_lookup_insert_eq by lia.
  rewrite list_lookup_insert_eq by lia. reflexivity.
Qed.

Lemma stone_grid_with_other b x y color x' y' :
  0 <= x -> 0 <= y -> 0 <= x' -> 0 <= y' -> (x', y') <> (x, y) ->
  stone (mkBoard (size b) (grid_with b x y color)) x' y' = stone b x' y'.
Proof.
  intros Hx Hy Hx' Hy' Hne. unfold stone, grid_with. simpl.
  destruct (board b !! Z.to_nat x) as [row|] eqn:Hrow; [|reflexivity].
  destruct (decide (Z.to_nat x = Z.to_nat x')) as [Heq|Hneq].
  - rewrite <- Heq.
    destruct (decide (Z.to_nat x < length (board b))%nat) as [Hlt|Hge].
    + rewrite list_lookup_insert_eq by assumption. rewrite Hrow.
      rewrite list_lookup_insert_ne; [reflexivity|].
      intros Hyy. apply Hne. f_equal; lia.
    + apply lookup_lt_Some in Hrow. lia.
  - rewrite list_lookup_insert_ne by assumption. reflexivity.
Qed.

Lemma color_in_black_white_spec color :
  color_in_black_white color = true <-> color = "black" \/ color = "white".
Proof.
  unfold color_in_black_white. rewrite orb_true_iff, !String.eqb_eq. tauto.
Qed.

(** C2. [place_stone] raises [InvalidPosition] off the board, [Occupied] on
    a cell of the board that holds a stone, [BadColor] for a colour other
    than black and white, and otherwise stores the colour in the cell and
    in no other; every failure leaves the grid as it was. *)
Theorem place_stone_spec b x y color :
  wf b ->
  (is_valid_position b x y = false ->
   place_stone b x y color = (Raise (InvalidPosition x y), b)) /\
  (is_valid_position b x y = true -> stone b x y <> None ->
   place_stone b x y color = (Raise (Occupied x y), b)) /\
  (is_valid_position b x y = true -> stone b x y = None ->
   color <> "black" -> color <> "white" ->
   place_stone b x y color = (Raise (BadColor color), b)) /\
  (is_valid_position b x y = true -> stone b x y = None ->
   color = "black" \/ color = "white" ->
   exists b',
     place_stone b x y color = (Ok true, b') /\
     wf b' /\ size b' = size b /\
     stone b' x y = Some color /\
     forall x' y', is_valid_position b x' y' = true -> (x', y') <> (x, y) ->
                   stone b' x' y' = stone b x' y') /\
  (forall e b', place_stone b x y color = (Raise e, b') -> b' = b).
Proof.
  intros Hwf. repeat split.
  - intros Hv. unfold place_stone. rewrite Hv. reflexivity.
  - intros Hv Hst. unfold place_stone. rewrite Hv. simpl.
    rewrite is_empty_valid by assumption.
    destruct (stone b x y); [reflexivity|congruence].
  - intros Hv Hst Hb Hw. unfold place_stone. rewrite Hv. simpl.
    rewrite is_empty_valid, Hst by assumption.
    destruct (color_in_black_white color) eqn:Hc; [|reflexivity].
    apply color_in_black_white_spec in Hc. tauto.
  - intros Hv Hst Hc. apply color_in_black_white_spec in Hc.
    exists (mkBoard (size b) (grid_with b x y color)).
    split; [|split; [|split; [|split]]].
    + unfold place_stone. rewrite Hv. simpl.
      rewrite is_empty_valid, Hst, Hc by assumption. simpl.
      rewrite set_valid by assumption. reflexivity.
    + apply wf_grid_with; assumption.
    + reflexivity.
    + apply stone_grid_with_same; assumption.
    + intros x' y' Hv' Hne. apply valid_bounds in Hv, Hv'.
      apply stone_grid_with_other; lia || assumption.
  - intros e b'. unfold place_stone.
    repeat case_match; intros Heq; inversion Heq; reflexivity.
Qed.

Example place_stone_off_board :
  place_stone board_S1 15 0 "black" = (Raise (InvalidPosition 15 0), board_S1).
Proof. vm_compute. reflexivity. Qed.

Example place_stone_negative :
  place_stone board_S1 (-1) 3 "black" = (Raise (InvalidPosition (-1) 3), board_S1).
Proof. vm_compute. reflexivity. Qed.

Example place_stone_occupied :
  place_stone board_S1 7 7 "white" = (Raise (Occupied 7 7), board_S1).
Proof. vm_compute. reflexivity. Qed.

Example place_stone_bad_color :
  place_stone board_S1 0 0 "red" = (Raise (BadColor "red"), board_S1).
Proof. vm_compute. reflexivity. Qed.

Lemma place_stone_spec_witness :
  place_stone board_S1 7 7 "white" = (Raise (Occupied 7 7), board_S1).
Proof.
  apply (proj1 (proj2 (place_stone_spec board_S1 7 7 "white" wf_board_S1))).
  - reflexivity.
  - vm_compute. discriminate.
Defined.

(** A summary of [place_stone] used by the room lemmas below. *)
Lemma place_stone_cases b x y color :
  wf b ->
  (exists e, place_stone b x y color = (Raise e, b)) \/
  (is_valid_position b x y = true /\ stone b x y = None /\
   (color = "black" \/ color = "white") /\
   place_stone b x y color = (Ok true, mkBoard (size b) (grid_with b x y color))).
Proof.
  intros Hwf. unfold place_stone.
  destruct (is_valid_position b x y) eqn:Hv; simpl; [|eauto].
  rewrite is_empty_valid by assumption.
  destruct (stone b x y) eqn:Hst; [eauto|].
  destruct (color_in_black_white color) eqn:Hc; simpl; [|eauto].
  rewrite set_valid by assumption. right.
  apply color_in_black_white_spec in Hc. auto.
Qed.

End BoardFacts.

(** ** Rooms *)

Section ListFacts.
Import Room.

Lemma length_update_first {A} (test : A -> bool) f (l : list A) :
  length (update_first test f l) = length l.
Proof. induction l as [|x l IH]; simpl; [reflexivity|]. destruct (test x); simpl; congruence. Qed.

Lemma find_Some_elem {A} (test : A -> bool) (l : list A) x :
  find test l = Some x -> x ∈ l /\ test x = true.
Proof.
  induction l as [|y l IH]; simpl; [discriminate|].
  destruct (test y) eqn:Hy.
  - intros [= ->]. split; [left|assumption].
  - intros Hf. destruct (IH Hf). split; [right|]; assumption.
Qed.

Lemma length_py_remove {A} `{EqDecision A} (x : A) (l : list A) :
  x ∈ l -> S (length (py_remove x l)) = length l.
Proof.
  induction l as [|y l IH]; intros Hin; [inversion Hin|]. simpl.
  destruct (decide (y = x)) as [->|Hne]; [reflexivity|].
  apply elem_of_cons in Hin as [->|Hin]; [congruence|].
  simpl. rewrite IH by assumption. reflexivity.
Qed.

Lemma elem_of_py_remove {A} `{EqDecision A} (x y : A) (l : list A) :
  y ∈ py_remove x l -> y ∈ l.
Proof.
  induction l as [|z l IH]; simpl; [auto|].
  destruct (decide (z = x)).
  - intros. right. assumption.
  - intros Hin. apply elem_of_cons in Hin as [->|Hin]; [left|right; auto].
Qed.

Lemma py_remove_keeps {A} `{EqDecision A} (x y : A) (l : list A) :
  y ∈ l -> y <> x -> y ∈ py_remove x l.
Proof.
  induction l as [|z l IH]; intros Hin Hne; [inversion Hin|]. simpl.
  apply elem_of_cons in Hin as [->|Hin].
  - destruct (decide (z = x)); [congruence|left].
  - destruct (decide (z = x)); [assumption|right; auto].
Qed.

Lemma elem_of_update_first {A} (test : A -> bool) f (l : list A) y :
  y ∈ update_first test f l ->
  y ∈ l \/ exists x, x ∈ l /\ test x = true /\ y = f x.
Proof.
  induction l as [|z l IH]; simpl; [auto|].
  destruct (test z) eqn:Hz; intros Hin; apply elem_of_cons in Hin as [->|Hin].
  - right. exists z. split; [left|auto].
  - left. right. assumption.
  - left. left.
  - destruct (IH Hin) as [H|(x & Hx & Ht & ->)].
    + left. right. assumption.
    + right. exists x. split; [right|]; auto.
Qed.

(** An element the test rejects stays; the first accepted one is replaced. *)
Lemma update_first_keeps {A} (test : A -> bool) f (l : list A) y :
  y ∈ l -> test y = false -> y ∈ update_first test f l.
Proof.
  induction l as [|z l IH]; intros Hin Ht; [inversion Hin|]. simpl.
  apply elem_of_cons in Hin as [->|Hin].
  - rewrite Ht. left.
  - destruct (test z); right; auto.
Qed.

Lemma elem_of_map_2 {A B} (f : A -> B) (l : list A) x : x ∈ l -> f x ∈ map f l.
Proof. rewrite !list_elem_of_In. apply in_map. Qed.

Lemma elem_of_map_1 {A B} (f : A -> B) (l : list A) y :
  y ∈ map f l -> exists x, y = f x /\ x ∈ l.
Proof.
  rewrite list_elem_of_In, in_map_iff. intros (x & <- & Hin).
  exists x. split; [reflexivity|]. apply list_elem_of_In. exact Hin.
Qed.

End ListFacts.

Section GameInvariant.
Import Room Server Invariants.
Implicit Types (r : GameRoom) (b : Board.GomokuBoard) (ev : event).

Lemma reset_is_init b : Board.size b = 15 -> Board.reset b = Board.init 15.
Proof. intros Hs. unfold Board.reset, Board.init. rewrite Hs. reflexivity. Qed.

Lemma game_inv_init rid : game_inv (Room.init rid).
Proof.
  split; simpl; try lia; auto.
  apply wf_init. lia.
Qed.

(** Steps that leave seats' number, status, board and turn alone. *)
Lemma game_inv_view r r' :
  length (players r') = length (players r) -> status r' = status r ->
  board r' = board r -> current_turn r' = current_turn r ->
  game_inv r -> game_inv r'.
Proof.
  intros Hp Hs Hb Ht [H1 H2 H3 H4 H5 H6].
  split; rewrite ?Hp, ?Hs, ?Hb, ?Ht; assumption.
Qed.

(** Steps that end the game. *)
Lemma game_inv_finished r r' :
  length (players r') = length (players r) -> status r' = Finished ->
  board r' = board r -> current_turn r' = current_turn r ->
  game_inv r -> game_inv r'.
Proof.
  intros Hp Hs Hb Ht [H1 H2 H3 H4 H5 H6].
  split; rewrite ?Hp, ?Hs, ?Hb, ?Ht; try assumption.
  - intros Hl. destruct (H5 Hl) as (_ & ? & ?). split; [discriminate|auto].
  - discriminate.
Qed.

(** Steps within or into a game between two seats. *)
Lemma game_inv_playing r :
  length (players r) = 2%nat -> status r = Playing ->
  Board.wf (board r) -> Board.size (board r) = 15 ->
  (current_turn r = "black" \/ current_turn r = "white") ->
  game_inv r.
Proof.
  intros Hp Hs Hwf Hsz Ht.
  split; rewrite ?Hp, ?Hs; try assumption; try lia; discriminate.
Qed.

Lemma game_inv_start_timer now r : game_inv r -> game_inv (start_timer now r).
Proof. apply game_inv_view; unfold start_timer; destruct (is_paused r); reflexivity. Qed.

Lemma game_inv_stop_timer r : game_inv r -> game_inv (stop_timer r).
Proof. apply game_inv_view; reflexivity. Qed.

Lemma playing_two_seats r :
  game_inv r -> status r = Playing -> length (players r) = 2%nat.
Proof.
  intros Hinv Hs. pose proof (inv_seats r Hinv).
  destruct (decide (length (players r) <= 1)%nat) as [Hle|Hgt]; [|lia].
  destruct (inv_few_seats r Hinv Hle) as [Hne _]. contradiction.
Qed.

Lemma game_inv_reconnect_player n sock now r :
  game_inv r -> game_inv (snd (reconnect_player n sock now r)).
Proof.
  intros Hinv. unfold reconnect_player.
  destruct (disconnected_players r !! n); [|assumption].
  destruct (negb (can_reconnect n now r)); [assumption|].
  cbv zeta.
  repeat (case_match; simpl); try apply game_inv_start_timer;
    (eapply game_inv_view; [| | | |exact Hinv]; simpl;
     rewrite ?length_update_first; reflexivity).
Qed.

Lemma game_inv_handle_reconnect n sock now r :
  game_inv r -> game_inv (handle_reconnect n sock now r).
Proof.
  intros Hinv. unfold handle_reconnect.
  repeat case_match; try assumption. apply game_inv_reconnect_player. assumption.
Qed.

Lemma game_inv_add_player sock n r :
  game_inv r -> game_inv (snd (add_player sock n r)).
Proof.
  intros Hinv. unfold add_player.
  destruct (2 <=? length (players r))%nat eqn:Hfull; [assumption|].
  apply Nat.leb_gt in Hfull. destruct Hinv as [H1 H2 H3 H4 H5 H6].
  split; simpl; rewrite ?length_app; simpl; try assumption; try lia.
  intros Hl. apply H5. lia.
Qed.

Lemma game_inv_join sock n now r :
  game_inv r -> game_inv (handle_join_room sock n now r).
Proof.
  intros Hinv. unfold handle_join_room.
  destruct (can_reconnect n now r); [apply game_inv_handle_reconnect; assumption|].
  destruct (is_full r); [assumption|]. apply game_inv_add_player. assumption.
Qed.

Lemma set_player_ready_view sock v r :
  let r' := snd (set_player_ready sock v r) in
  length (players r') = length (players r) /\ status r' = status r /\
  board r' = board r /\ current_turn r' = current_turn r.
Proof.
  unfold set_player_ready. destruct (find (has_socket sock) (players r)); simpl;
    rewrite ?length_update_first; auto.
Qed.

Lemma all_ready_two_seats r :
  are_all_players_ready r = true -> (2 <= length (players r))%nat.
Proof.
  unfold are_all_players_ready.
  destruct (length (players r) <? 2)%nat eqn:Hl; [discriminate|].
  intros _. apply Nat.ltb_ge in Hl. exact Hl.
Qed.

Lemma game_inv_ready sock now r :
  game_inv r -> game_inv (handle_ready sock now r).
Proof.
  intros Hinv. unfold handle_ready.
  destruct (get_player_by_socket sock r) as [player|]; [|assumption].
  destruct (set_player_ready_view sock (negb (ready player)) r) as (Hp & Hs & Hb & Ht).
  set (r1 := snd (set_player_ready sock (negb (ready player)) r)) in *.
  assert (Hinv1 : game_inv r1) by (eapply game_inv_view; eauto).
  destruct (are_all_players_ready r1) eqn:Hall; [|assumption].
  apply all_ready_two_seats in Hall. pose proof (inv_seats r1 Hinv1).
  apply game_inv_start_timer.
  apply game_inv_playing; simpl.
  - lia.
  - reflexivity.
  - apply (inv_board_wf _ Hinv1).
  - apply (inv_board_size _ Hinv1).
  - apply (inv_turn _ Hinv1).
Qed.

Lemma other_color_cases c : other_color c = "black" \/ other_color c = "white".
Proof. unfold other_color. destruct (String.eqb c "black"); auto. Qed.

Lemma game_inv_timeout now r :
  game_inv r -> game_inv (handle_timer_timeout now r).
Proof.
  intros Hinv. unfold handle_timer_timeout.
  destruct (bool_decide (status r = Playing)) eqn:Hs; simpl; [|assumption].
  apply bool_decide_eq_true in Hs.
  apply game_inv_start_timer. apply game_inv_playing; simpl.
  - apply playing_two_seats; assumption.
  - assumption.
  - apply (inv_board_wf _ Hinv).
  - apply (inv_board_size _ Hinv).
  - apply other_color_cases.
Qed.

Lemma game_inv_time_up now r : game_inv r -> game_inv (time_up now r).
Proof.
  intros Hinv. unfold time_up. destruct (timer_expired now r); [|assumption].
  apply game_inv_timeout. eapply game_inv_view; [| | | |exact Hinv]; reflexivity.
Qed.

Lemma game_inv_place sock x y now r :
  game_inv r -> game_inv (handle_place_stone sock x y now r).
Proof.
  intros Hinv. unfold handle_place_stone.
  destruct (get_player_by_socket sock r) as [player|]; [|assumption].
  destruct (bool_decide (status r = Playing)) eqn:Hs; simpl; [|assumption].
  apply bool_decide_eq_true in Hs.
  destruct (String.eqb (color player) (current_turn r)); simpl; [|assumption].
  destruct x as [x|]; [|assumption]. destruct y as [y|]; [|assumption].
  unfold Room.place_stone.
  pose proof (playing_two_seats r Hinv Hs) as H2.
  destruct (place_stone_cases (board r) x y (color player) (inv_board_wf r Hinv))
    as [[e He]|(Hv & Hst & Hc & He)]; rewrite He; [assumption|].
  set (b' := Board.mkBoard _ _).
  assert (Hinv1 : game_inv (set_board b' r)).
  { apply game_inv_playing; simpl; try assumption.
    - apply wf_grid_with. apply (inv_board_wf _ Hinv).
    - apply (inv_board_size _ Hinv).
    - apply (inv_turn _ Hinv). }
  destruct (Room.check_winner x y (set_board b' r)) as [[winner|e]|]; try assumption.
  destruct (truthy winner).
  - eapply game_inv_finished; [| | | |exact Hinv1]; reflexivity.
  - apply game_inv_start_timer. apply game_inv_playing; simpl; try assumption.
    + apply (inv_board_wf _ Hinv1).
    + apply (inv_board_size _ Hinv).
    + apply other_color_cases.
Qed.

Lemma game_inv_remove_player sock is_disconnect now r :
  game_inv r -> game_inv (snd (remove_player sock is_disconnect now r)).
Proof.
  intros Hinv. unfold remove_player.
  destruct (find (has_socket sock) (players r)) as [player|] eqn:Hf; [|assumption].
  apply find_Some_elem in Hf as [Hin _].
  destruct (is_disconnect && bool_decide (status r = Playing)) eqn:Hd.
  - cbv zeta. eapply game_inv_view; [| | | |exact Hinv];
      destruct (attempts_of (name player) r <? max_reconnect_attempts); simpl;
      rewrite ?length_update_first; reflexivity.
  - cbv zeta. pose proof (length_py_remove player (players r) Hin) as Hlen.
    pose proof (inv_seats r Hinv) as Hseats.
    cbn [players set_players].
    destruct (length (py_remove player (players r)) =? 1)%nat eqn:H1.
    + apply Nat.eqb_eq in H1. simpl.
      assert (Hreset : Board.reset (board r) = Board.init 15)
        by apply reset_is_init, (inv_board_size _ Hinv).
      split; simpl; rewrite ?length_map, ?Hreset.
      * lia.
      * apply wf_init. lia.
      * apply (inv_board_size _ Hinv).
      * auto.
      * intros _. split; [discriminate|]. auto.
      * intros _. auto.
    + destruct (length (py_remove player (players r)) =? 0)%nat eqn:H0.
      * apply Nat.eqb_eq in H0. simpl.
        destruct (inv_few_seats r Hinv ltac:(lia)) as (_ & Hb & Ht).
        split; simpl.
        -- lia.
        -- apply (inv_board_wf _ Hinv).
        -- apply (inv_board_size _ Hinv).
        -- apply (inv_turn _ Hinv).
        -- intros _. split; [discriminate|auto].
        -- intros _. auto.
      * apply Nat.eqb_neq in H1, H0. lia.
Qed.

Lemma game_inv_forfeit n c r :
  game_inv r -> game_inv (snd (forfeit_player n c r)).
Proof.
  intros Hinv. unfold forfeit_player.
  eapply game_inv_finished; [| | | |exact Hinv]; reflexivity.
Qed.

Lemma game_inv_sweep now r : game_inv r -> game_inv (forfeit_sweep now r).
Proof.
  unfold forfeit_sweep. generalize (check_reconnect_timeout now r) as l.
  intros l. revert r. induction l as [|nc l IH]; intros r Hinv; simpl; [assumption|].
  apply IH. apply (game_inv_forfeit (fst nc) (snd nc)). assumption.
Qed.

Lemma game_inv_surrender sock r : game_inv r -> game_inv (handle_surrender sock r).
Proof.
  intros Hinv. unfold handle_surrender.
  repeat case_match; try assumption.
  eapply game_inv_finished; [| | | |exact Hinv]; reflexivity.
Qed.

Lemma game_inv_request_rematch n r :
  game_inv r -> game_inv (snd (request_rematch n r)).
Proof.
  intros Hinv. unfold request_rematch. case_match; [assumption|].
  eapply game_inv_view; [| | | |exact Hinv]; reflexivity.
Qed.

Lemma rematch_agreed_two_seats r :
  is_rematch_agreed r = true -> length (players r) = 2%nat.
Proof.
  unfold is_rematch_agreed.
  destruct (length (players r) =? 2)%nat eqn:Hl; simpl; [|discriminate].
  intros _. apply Nat.eqb_eq. exact Hl.
Qed.

Lemma game_inv_rematch_if_agreed now r :
  game_inv r -> game_inv (rematch_if_agreed now r).
Proof.
  intros Hinv. unfold rematch_if_agreed.
  destruct (is_rematch_agreed r) eqn:Ha; [|assumption].
  apply rematch_agreed_two_seats in Ha.
  apply game_inv_start_timer. apply game_inv_playing; simpl; auto.
  - rewrite length_map. assumption.
  - rewrite reset_is_init by apply (inv_board_size _ Hinv). apply wf_init. lia.
  - apply (inv_board_size _ Hinv).
Qed.

Lemma game_inv_rematch sock now r : game_inv r -> game_inv (handle_rematch sock now r).
Proof.
  intros Hinv. unfold handle_rematch.
  destruct (negb (bool_decide (status r = Finished))); [assumption|].
  destruct (get_player_by_socket sock r) as [p|]; [|assumption].
  pose proof (game_inv_request_rematch (name p) r Hinv) as H1.
  destruct (request_rematch (name p) r) as [[|] r1]; simpl in H1; [|assumption].
  apply game_inv_rematch_if_agreed. assumption.
Qed.

Lemma game_inv_rematch_response sock accepted now r :
  game_inv r -> game_inv (handle_rematch_response sock accepted now r).
Proof.
  intros Hinv. unfold handle_rematch_response.
  destruct (get_player_by_socket sock r) as [p|]; [|assumption].
  destruct accepted.
  - apply game_inv_rematch_if_agreed, game_inv_request_rematch. assumption.
  - eapply game_inv_view; [| | | |exact Hinv]; reflexivity.
Qed.

Lemma game_inv_step r ev : game_inv r -> game_inv (step r ev).
Proof.
  intros Hinv. destruct ev; simpl.
  - apply game_inv_join; assumption.
  - eapply game_inv_view; [| | | |exact Hinv]; reflexivity.
  - apply game_inv_ready; assumption.
  - apply game_inv_place; assumption.
  - apply game_inv_remove_player; assumption.
  - apply game_inv_remove_player; assumption.
  - unfold remove_from_room_spectator, remove_spectator.
    case_match; [|assumption].
    eapply game_inv_view; [| | | |exact Hinv]; reflexivity.
  - apply game_inv_time_up; assumption.
  - apply game_inv_handle_reconnect; assumption.
  - apply game_inv_sweep; assumption.
  - apply game_inv_surrender; assumption.
  - apply game_inv_rematch; assumption.
  - apply game_inv_rematch_response; assumption.
Qed.

Lemma reachable_game_inv r : reachable r -> game_inv r.
Proof.
  induction 1; [apply game_inv_init | apply game_inv_step; assumption].
Qed.

End GameInvariant.

Section TimerInvariant.
Import Room Server Invariants.
Implicit Types (r : GameRoom) (ev : event).

Lemma timer_inv_view r r' :
  timer_alive r' = timer_alive r -> is_paused r' = is_paused r ->
  timer_inv r -> timer_inv r'.
Proof. unfold timer_inv. intros -> ->. auto. Qed.

Lemma timer_inv_dead r : timer_alive r = false -> timer_inv r.
Proof. unfold timer_inv. intros ->. discriminate. Qed.

Lemma timer_inv_unpaused r : is_paused r = false -> timer_inv r.
Proof. unfold timer_inv. auto. Qed.

Lemma timer_inv_start_timer now r : timer_inv r -> timer_inv (start_timer now r).
Proof.
  intros Hinv. unfold start_timer. destruct (is_paused r) eqn:Hp; [assumption|].
  apply timer_inv_unpaused. exact Hp.
Qed.

Lemma timer_inv_reconnect_player n sock now r :
  timer_inv r -> timer_inv (snd (reconnect_player n sock now r)).
Proof.
  intros Hinv. unfold reconnect_player.
  destruct (disconnected_players r !! n); [|assumption].
  destruct (negb (can_reconnect n now r)); [assumption|].
  cbv zeta. destruct (bool_decide _); [|exact Hinv].
  destruct (_ && _); simpl.
  - apply timer_inv_start_timer, timer_inv_unpaused. reflexivity.
  - apply timer_inv_unpaused. reflexivity.
Qed.

Lemma timer_inv_handle_reconnect n sock now r :
  timer_inv r -> timer_inv (handle_reconnect n sock now r).
Proof.
  intros Hinv. unfold handle_reconnect.
  repeat case_match; try assumption. apply timer_inv_reconnect_player. assumption.
Qed.

Lemma timer_inv_rematch_if_agreed now r :
  timer_inv r -> timer_inv (rematch_if_agreed now r).
Proof.
  intros Hinv. unfold rematch_if_agreed. destruct (is_rematch_agreed r); [|assumption].
  apply timer_inv_start_timer. exact Hinv.
Qed.

Lemma timer_inv_request_rematch n r :
  timer_inv r -> timer_inv (snd (request_rematch n r)).
Proof. intros Hinv. unfold request_rematch. case_match; exact Hinv. Qed.

Lemma timer_inv_forfeit n c r : timer_inv (snd (forfeit_player n c r)).
Proof. apply timer_inv_unpaused. reflexivity. Qed.

Lemma timer_inv_sweep now r : timer_inv r -> timer_inv (forfeit_sweep now r).
Proof.
  unfold forfeit_sweep. generalize (check_reconnect_timeout now r) as l.
  intros l. revert r. induction l as [|nc l IH]; intros r Hinv; simpl; [assumption|].
  apply IH. apply (timer_inv_forfeit (fst nc) (snd nc)).
Qed.

Lemma timer_inv_step r ev : timer_inv r -> timer_inv (step r ev).
Proof.
  intros Hinv. destruct ev; simpl.
  - unfold handle_join_room.
    destruct (can_reconnect _ _ _); [apply timer_inv_handle_reconnect; assumption|].
    destruct (is_full r); [assumption|].
    unfold add_player. case_match; exact Hinv.
  - exact Hinv.
  - unfold handle_ready. destruct (get_player_by_socket sock r) as [p|]; [|assumption].
    assert (H1 : timer_inv (snd (set_player_ready sock (negb (ready p)) r))).
    { unfold set_player_ready. case_match; exact Hinv. }
    destruct (are_all_players_ready _); [|assumption].
    apply timer_inv_start_timer. exact H1.
  - unfold handle_place_stone. destruct (get_player_by_socket sock r) as [p|]; [|assumption].
    destruct (negb _); [assumption|]. destruct (negb _); [assumption|].
    destruct x as [x|]; [|assumption]. destruct y as [y|]; [|assumption].
    unfold Room.place_stone.
    destruct (Board.place_stone (board r) x y (color p)) as [[ok|e] b']; [|assumption].
    destruct (Room.check_winner x y (set_board b' r)) as [[winner|e]|]; try exact Hinv.
    destruct (truthy winner).
    + apply timer_inv_dead. reflexivity.
    + apply timer_inv_start_timer, timer_inv_dead. reflexivity.
  - unfold remove_from_room_player, remove_player.
    destruct (find _ _) as [p|]; [|assumption]. simpl.
    repeat case_match; simpl; try (apply timer_inv_dead; reflexivity); exact Hinv.
  - unfold remove_from_room_player, remove_player.
    destruct (find _ _) as [p|]; [|assumption].
    repeat case_match; simpl; try (apply timer_inv_dead; reflexivity); exact Hinv.
  - unfold remove_from_room_spectator, remove_spectator. case_match; exact Hinv.
  - unfold time_up. destruct (timer_expired now r); [|assumption].
    unfold handle_timer_timeout. destruct (negb _).
    + apply timer_inv_dead. reflexivity.
    + apply timer_inv_start_timer, timer_inv_dead. reflexivity.
  - apply timer_inv_handle_reconnect. assumption.
  - apply timer_inv_sweep. assumption.
  - unfold handle_surrender. repeat case_match; try assumption.
    apply timer_inv_dead. reflexivity.
  - unfold handle_rematch. destruct (negb _); [assumption|].
    destruct (get_player_by_socket sock r) as [p|]; [|assumption].
    pose proof (timer_inv_request_rematch (name p) r Hinv) as H1.
    destruct (request_rematch (name p) r) as [[|] r1]; simpl in H1; [|assumption].
    apply timer_inv_rematch_if_agreed. assumption.
  - unfold handle_rematch_response.
    destruct (get_player_by_socket sock r) as [p|]; [|assumption].
    destruct accepted; [|exact Hinv].
    apply timer_inv_rematch_if_agreed, timer_inv_request_rematch. assumption.
Qed.

Lemma reachable_timer_inv r : reachable r -> timer_inv r.
Proof.
  induction 1; [apply timer_inv_dead; reflexivity | apply timer_inv_step; assumption].
Qed.

End TimerInvariant.

Section RecordInvariant.
Import Room Server Invariants.
Implicit Types (r : GameRoom) (ev : event).

Lemma record_inv_view r r' :
  disconnected_players r' = disconnected_players r ->
  reconnect_attempts r' = reconnect_attempts r ->
  record_inv r -> record_inv r'.
Proof. unfold record_inv, attempts_of. intros -> ->. auto. Qed.

Lemma record_inv_start_timer now r : record_inv r -> record_inv (start_timer now r).
Proof. apply record_inv_view; unfold start_timer; destruct (is_paused r); reflexivity. Qed.

Lemma record_inv_delete n r r' :
  disconnected_players r' = delete n (disconnected_players r) ->
  reconnect_attempts r' = reconnect_attempts r ->
  record_inv r -> record_inv r'.
Proof.
  unfold record_inv, attempts_of. intros -> -> Hinv n' d Hl.
  apply lookup_delete_Some in Hl as [_ Hl]. auto.
Qed.

Lemma record_inv_reconnect_player n sock now r :
  record_inv r -> record_inv (snd (reconnect_player n sock now r)).
Proof.
  intros Hinv. unfold reconnect_player.
  destruct (disconnected_players r !! n); [|assumption].
  destruct (negb (can_reconnect n now r)); [assumption|].
  cbv zeta.
  assert (Hcore : record_inv
            (set_disconnected_players
               (delete n (disconnected_players r))
               (set_players
                  (update_first (has_name n) (with_socket sock) (players r))
                  (set_reconnect_attempts
                     (<[n:=attempts_of n r + 1]> (reconnect_attempts r)) r)))).
  { unfold record_inv, attempts_of. simpl. intros n' d' Hl.
    apply lookup_delete_Some in Hl as [Hne Hl].
    rewrite lookup_insert_ne by assumption. apply Hinv. exact Hl. }
  simpl. destruct (bool_decide _); [|exact Hcore].
  destruct (_ && _); simpl.
  - apply record_inv_start_timer. eapply record_inv_view; [| |exact Hcore]; reflexivity.
  - eapply record_inv_view; [| |exact Hcore]; reflexivity.
Qed.

Lemma record_inv_handle_reconnect n sock now r :
  record_inv r -> record_inv (handle_reconnect n sock now r).
Proof.
  intros Hinv. unfold handle_reconnect.
  repeat case_match; try assumption. apply record_inv_reconnect_player. assumption.
Qed.

Lemma record_inv_remove_player sock is_disconnect now r :
  record_inv r -> record_inv (snd (remove_player sock is_disconnect now r)).
Proof.
  intros Hinv. unfold remove_player.
  destruct (find _ _) as [p|]; [|assumption].
  destruct (is_disconnect && _).
  - cbv zeta. destruct (attempts_of (name p) r <? max_reconnect_attempts) eqn:Hlt.
    + apply Z.ltb_lt in Hlt. unfold record_inv, attempts_of in *. simpl.
      intros n d Hl. apply lookup_insert_Some in Hl as [[<- <-]|[Hne Hl]].
      * simpl. split; [reflexivity|exact Hlt].
      * apply Hinv. exact Hl.
    + eapply record_inv_view; [| |exact Hinv]; reflexivity.
  - cbv zeta. repeat case_match; simpl;
      (eapply record_inv_view; [| |exact Hinv]; reflexivity).
Qed.

Lemma record_inv_forfeit n c r :
  record_inv r -> record_inv (snd (forfeit_player n c r)).
Proof.
  intros Hinv. unfold forfeit_player.
  eapply (record_inv_delete n); [| |exact Hinv]; reflexivity.
Qed.

Lemma record_inv_sweep now r : record_inv r -> record_inv (forfeit_sweep now r).
Proof.
  unfold forfeit_sweep. generalize (check_reconnect_timeout now r) as l.
  intros l. revert r. induction l as [|nc l IH]; intros r Hinv; simpl; [assumption|].
  apply IH. apply (record_inv_forfeit (fst nc) (snd nc)). assumption.
Qed.

Lemma record_inv_rematch_if_agreed now r :
  record_inv r -> record_inv (rematch_if_agreed now r).
Proof.
  intros Hinv. unfold rematch_if_agreed. destruct (is_rematch_agreed r); [|assumption].
  apply record_inv_start_timer. eapply record_inv_view; [| |exact Hinv]; reflexivity.
Qed.

Lemma record_inv_request_rematch n r :
  record_inv r -> record_inv (snd (request_rematch n r)).
Proof. intros Hinv. unfold request_rematch. case_match; exact Hinv. Qed.

Lemma record_inv_step r ev : record_inv r -> record_inv (step r ev).
Proof.
  intros Hinv. destruct ev; simpl.
  - unfold handle_join_room.
    destruct (can_reconnect _ _ _); [apply record_inv_handle_reconnect; assumption|].
    destruct (is_full r); [assumption|].
    unfold add_player. case_match; exact Hinv.
  - exact Hinv.
  - unfold handle_ready. destruct (get_player_by_socket sock r) as [p|]; [|assumption].
    assert (H1 : record_inv (snd (set_player_ready sock (negb (ready p)) r))).
    { unfold set_player_ready. case_match; exact Hinv. }
    destruct (are_all_players_ready _); [|assumption].
    apply record_inv_start_timer. exact H1.
  - unfold handle_place_stone. destruct (get_player_by_socket sock r) as [p|]; [|assumption].
    destruct (negb _); [assumption|]. destruct (negb _); [assumption|].
    destruct x as [x|]; [|assumption]. destruct y as [y|]; [|assumption].
    unfold Room.place_stone.
    destruct (Board.place_stone (board r) x y (color p)) as [[ok|e] b']; [|assumption].
    destruct (Room.check_winner x y (set_board b' r)) as [[winner|e]|]; try exact Hinv.
    destruct (truthy winner); [exact Hinv|].
    apply record_inv_start_timer. exact Hinv.
  - apply record_inv_remove_player. assumption.
  - apply record_inv_remove_player. assumption.
  - unfold remove_from_room_spectator, remove_spectator. case_match; exact Hinv.
  - unfold time_up. destruct (timer_expired now r); [|assumption].
    unfold handle_timer_timeout. destruct (negb _); [exact Hinv|].
    apply record_inv_start_timer. exact Hinv.
  - apply record_inv_handle_reconnect. assumption.
  - apply record_inv_sweep. assumption.
  - unfold handle_surrender. repeat case_match; exact Hinv.
  - unfold handle_rematch. destruct (negb _); [assumption|].
    destruct (get_player_by_socket sock r) as [p|]; [|assumption].
    pose proof (record_inv_request_rematch (name p) r Hinv) as H1.
    destruct (request_rematch (name p) r) as [[|] r1]; simpl in H1; [|assumption].
    apply record_inv_rematch_if_agreed. assumption.
  - unfold handle_rematch_response.
    destruct (get_player_by_socket sock r) as [p|]; [|assumption].
    destruct accepted; [|exact Hinv].
    apply record_inv_rematch_if_agreed, record_inv_request_rematch. assumption.
Qed.

Lemma reachable_record_inv r : reachable r -> record_inv r.
Proof.
  induction 1; [|apply record_inv_step; assumption].
  unfold record_inv. simpl. intros n d Hl. rewrite lookup_empty in Hl. discriminate.
Qed.

End RecordInvariant.

Section PauseInvariant.
Import Room Server Invariants.
Implicit Types (r : GameRoom) (ev : event) (p : Player) (l : list Player).

Lemma ghosts_kept_refl l : ghosts_kept l l.
Proof. intros p Hin Hg. eauto. Qed.

Lemma ghosts_old_refl l : ghosts_old l l.
Proof. intros p Hin Hg. eauto. Qed.

Lemma has_socket_live sock p : has_socket sock p = true -> ~ ghost p.
Proof. unfold has_socket, ghost. destruct (socket p); [discriminate|discriminate]. Qed.

Lemma ghost_no_socket sock p : ghost p -> has_socket sock p = false.
Proof. unfold has_socket, ghost. intros ->. reflexivity. Qed.

Lemma pause_inv_keep r r' :
  ghosts_kept (players r) (players r') ->
  (forall n, is_Some (disconnected_players r' !! n) ->
             is_Some (disconnected_players r !! n)) ->
  (is_paused r' = true -> is_paused r = true) ->
  (status r' = Waiting -> forall p, p ∈ players r' -> ghost p -> ready p = false) ->
  pause_inv r -> pause_inv r'.
Proof.
  intros Hk Hd Hp Hw [HJ HK HL]. split.
  - intros n Hn. destruct (HJ n (Hd n Hn)) as (p & Hin & Hname & Hg).
    destruct (Hk p Hin Hg) as (p' & Hin' & Hname' & Hg').
    exists p'. split; [assumption|]. split; [congruence|assumption].
  - intros Hpa. destruct (HK (Hp Hpa)) as (p & Hin & Hg).
    destruct (Hk p Hin Hg) as (p' & Hin' & _ & Hg'). eauto.
  - exact Hw.
Qed.

(** The common case: status unchanged, ghosts neither made nor changed. *)
Lemma pause_inv_same_status r r' :
  ghosts_kept (players r) (players r') -> ghosts_old (players r) (players r') ->
  (forall n, is_Some (disconnected_players r' !! n) ->
             is_Some (disconnected_players r !! n)) ->
  (is_paused r' = true -> is_paused r = true) ->
  (status r' = Waiting -> status r = Waiting) ->
  pause_inv r -> pause_inv r'.
Proof.
  intros Hk Ho Hd Hp Hs Hinv. apply (pause_inv_keep r r'); try assumption.
  intros Hw p' Hin' Hg'. destruct (Ho p' Hin' Hg') as (p & Hin & Hg & <-).
  apply (inv_waiting_ghost r Hinv (Hs Hw) p Hin Hg).
Qed.

Lemma pause_inv_view r r' :
  players r' = players r -> disconnected_players r' = disconnected_players r ->
  is_paused r' = is_paused r -> (status r' = Waiting -> status r = Waiting) ->
  pause_inv r -> pause_inv r'.
Proof.
  intros Hp Hd Hpa Hs. apply pause_inv_same_status; rewrite ?Hp, ?Hd, ?Hpa; auto.
  - apply ghosts_kept_refl.
  - apply ghosts_old_refl.
Qed.

Lemma pause_inv_start_timer now r : pause_inv r -> pause_inv (start_timer now r).
Proof.
  apply pause_inv_view; unfold start_timer; destruct (is_paused r) eqn:Hp; simpl; auto.
Qed.

(** Updating a live seat. *)
Lemma ghosts_kept_update_live test f l :
  (forall p, ghost p -> test p = false) ->
  ghosts_kept l (update_first test f l).
Proof.
  intros Ht p Hin Hg. exists p. split; [|auto].
  apply update_first_keeps; auto.
Qed.

Lemma ghosts_old_update_live test f l :
  (forall p, test p = true -> ~ ghost (f p)) ->
  ghosts_old l (update_first test f l).
Proof.
  intros Hf p' Hin' Hg'.
  apply elem_of_update_first in Hin' as [Hin|(x & Hx & Ht & ->)]; [eauto|].
  exfalso. exact (Hf x Ht Hg').
Qed.

Lemma pause_inv_set_player_ready sock v r :
  pause_inv r -> pause_inv (snd (set_player_ready sock v r)).
Proof.
  intros Hinv. unfold set_player_ready. destruct (find _ _) as [q|]; [|assumption].
  eapply pause_inv_same_status; [| | | | |exact Hinv]; simpl; auto.
  - apply ghosts_kept_update_live. intros p. apply ghost_no_socket.
  - apply ghosts_old_update_live. intros p Hs Hg.
    apply (has_socket_live sock p Hs). exact Hg.
Qed.

Lemma pause_inv_add_player sock n r :
  pause_inv r -> pause_inv (snd (add_player sock n r)).
Proof.
  intros Hinv. unfold add_player. case_match; [assumption|].
  eapply pause_inv_same_status; [| | | | |exact Hinv]; simpl; auto.
  - intros p Hin Hg. exists p. split; [|auto]. apply elem_of_app. left. exact Hin.
  - intros p' Hin' Hg'. apply elem_of_app in Hin' as [Hin|Hin]; [eauto|].
    apply list_elem_of_singleton in Hin. subst p'. discriminate Hg'.
Qed.

Lemma find_update_first {A} (test : A -> bool) f (l : list A) x :
  find test l = Some x -> f x ∈ update_first test f l.
Proof.
  induction l as [|y l IH]; simpl; [discriminate|].
  destruct (test y).
  - intros [= ->]. left.
  - intros Hf. right. auto.
Qed.

Lemma pause_inv_reconnect_player n sock now r :
  pause_inv r -> pause_inv (snd (reconnect_player n sock now r)).
Proof.
  intros Hinv. unfold reconnect_player.
  destruct (disconnected_players r !! n) as [d0|]; [|assumption].
  destruct (negb (can_reconnect n now r)); [assumption|].
  cbv zeta.
  set (l' := update_first (has_name n) (with_socket sock) (players r)).
  assert (Hold : ghosts_old (players r) l').
  { apply ghosts_old_update_live. intros p _ Hg. discriminate Hg. }
  assert (HJ : forall n', is_Some (delete n (disconnected_players r) !! n') ->
                          exists p, p ∈ l' /\ name p = n' /\ ghost p).
  { intros n' [d Hl]. apply lookup_delete_Some in Hl as [Hne Hl].
    destruct (inv_record_seat r Hinv n' (mk_is_Some _ _ Hl)) as (p & Hin & Hname & Hg).
    exists p. split; [|auto]. apply update_first_keeps; [assumption|].
    unfold has_name. rewrite Hname. apply String.eqb_neq. congruence. }
  assert (HL : forall r', players r' = l' -> (status r' = Waiting -> status r = Waiting) ->
               status r' = Waiting -> forall p, p ∈ players r' -> ghost p -> ready p = false).
  { intros r' Hp Hs Hw p' Hin' Hg'. rewrite Hp in Hin'.
    destruct (Hold p' Hin' Hg') as (p & Hin & Hg & <-).
    apply (inv_waiting_ghost r Hinv (Hs Hw) p Hin Hg). }
  simpl. destruct (bool_decide _) eqn:Hempty.
  - assert (Hcore : forall r', players r' = l' ->
              disconnected_players r' = delete n (disconnected_players r) ->
              is_paused r' = false -> (status r' = Waiting -> status r = Waiting) ->
              pause_inv r').
    { intros r' Hp Hd Hpa Hs. split.
      - rewrite Hp, Hd. exact HJ.
      - rewrite Hpa. discriminate.
      - apply HL; assumption. }
    destruct (_ && _); simpl.
    + apply pause_inv_start_timer. apply Hcore; auto.
    + apply Hcore; auto.
  - apply bool_decide_eq_false in Hempty. split; simpl.
    + exact HJ.
    + intros _. apply map_choose in Hempty as (n' & d & Hl).
      destruct (HJ n' (mk_is_Some _ _ Hl)) as (p & Hin & _ & Hg). eauto.
    + apply (HL (set_players l' r)); auto.
Qed.

Lemma pause_inv_handle_reconnect n sock now r :
  pause_inv r -> pause_inv (handle_reconnect n sock now r).
Proof.
  intros Hinv. unfold handle_reconnect.
  repeat case_match; try assumption. apply pause_inv_reconnect_player. assumption.
Qed.

Lemma ghosts_kept_py_remove x l :
  ~ ghost x -> ghosts_kept l (py_remove x l).
Proof.
  intros Hx p Hin Hg. exists p. split; [|auto].
  apply py_remove_keeps; [assumption|]. intros ->. contradiction.
Qed.

Lemma ghosts_kept_map f l :
  (forall p, name (f p) = name p /\ socket (f p) = socket p) ->
  ghosts_kept l (map f l).
Proof.
  intros Hf p Hin Hg. exists (f p). destruct (Hf p) as [Hn Hs].
  split; [apply elem_of_map_2; assumption|].
  split; [assumption|]. unfold ghost in *. congruence.
Qed.

Lemma ghosts_kept_trans l1 l2 l3 :
  ghosts_kept l1 l2 -> ghosts_kept l2 l3 -> ghosts_kept l1 l3.
Proof.
  intros H12 H23 p Hin Hg. destruct (H12 p Hin Hg) as (p2 & Hin2 & Hn2 & Hg2).
  destruct (H23 p2 Hin2 Hg2) as (p3 & Hin3 & Hn3 & Hg3).
  exists p3. split; [assumption|]. split; [congruence|assumption].
Qed.

Lemma pause_inv_remove_player sock is_disconnect now r :
  pause_inv r -> pause_inv (snd (remove_player sock is_disconnect now r)).
Proof.
  intros Hinv. unfold remove_player.
  destruct (find (has_socket sock) (players r)) as [player|] eqn:Hf; [|assumption].
  pose proof (find_update_first _ lost_socket _ _ Hf) as Hlost.
  apply find_Some_elem in Hf as [Hin Hsock].
  pose proof (has_socket_live sock player Hsock) as Hlive.
  destruct (is_disconnect && bool_decide (status r = Playing)) eqn:Hd.
  - apply andb_true_iff in Hd as [_ Hs]. apply bool_decide_eq_true in Hs.
    cbv zeta.
    set (l' := update_first (has_socket sock) lost_socket (players r)) in *.
    assert (Hkept : ghosts_kept (players r) l').
    { apply ghosts_kept_update_live. intros p. apply ghost_no_socket. }
    assert (Hseat : forall n, n = name player \/ is_Some (disconnected_players r !! n) ->
                              exists p, p ∈ l' /\ name p = n /\ ghost p).
    { intros n [->|Hn].
      - exists (lost_socket player). split; [assumption|]. split; reflexivity.
      - destruct (inv_record_seat r Hinv n Hn) as (p & Hp & Hname & Hg).
        destruct (Hkept p Hp Hg) as (p' & Hp' & Hname' & Hg').
        exists p'. split; [assumption|]. split; [congruence|assumption]. }
    destruct (attempts_of (name player) r <? max_reconnect_attempts); split; simpl.
    + intros n [d Hl]. apply Hseat.
      apply lookup_insert_Some in Hl as [[<- _]|[_ Hl]]; [left; reflexivity|right; eauto].
    + intros _. exists (lost_socket player). split; [assumption|reflexivity].
    + rewrite Hs. discriminate.
    + intros n Hn. apply Hseat. auto.
    + intros _. exists (lost_socket player). split; [assumption|reflexivity].
    + rewrite Hs. discriminate.
  - cbv zeta. cbn [players set_players].
    pose proof (ghosts_kept_py_remove player (players r) Hlive) as Hkept.
    destruct (length (py_remove player (players r)) =? 1)%nat.
    + eapply pause_inv_keep; [| | | |exact Hinv]; simpl; auto.
      * eapply ghosts_kept_trans; [exact Hkept|]. apply ghosts_kept_map. auto.
      * intros _ p Hp _. apply elem_of_map_1 in Hp as (q & -> & _). reflexivity.
    + destruct (length (py_remove player (players r)) =? 0)%nat eqn:H0.
      * apply Nat.eqb_eq in H0. apply length_zero_iff_nil in H0.
        eapply pause_inv_keep; [| | | |exact Hinv]; simpl; auto.
        rewrite H0. intros _ p Hp. inversion Hp.
      * eapply pause_inv_same_status; [| | | | |exact Hinv]; simpl; auto.
        intros p' Hp' Hg'. exists p'. split; [|auto].
        eapply elem_of_py_remove. exact Hp'.
Qed.

Lemma pause_inv_forfeit n c r :
  pause_inv r -> pause_inv (snd (forfeit_player n c r)).
Proof.
  intros Hinv. unfold forfeit_player.
  eapply pause_inv_keep; [| | | |exact Hinv]; simpl.
  - apply ghosts_kept_refl.
  - intros n' [d Hl]. apply lookup_delete_Some in Hl as [_ Hl]. eauto.
  - discriminate.
  - discriminate.
Qed.

Lemma pause_inv_sweep now r : pause_inv r -> pause_inv (forfeit_sweep now r).
Proof.
  unfold forfeit_sweep. generalize (check_reconnect_timeout now r) as l.
  intros l. revert r. induction l as [|nc l IH]; intros r Hinv; simpl; [assumption|].
  apply IH. apply (pause_inv_forfeit (fst nc) (snd nc)). assumption.
Qed.

Lemma pause_inv_request_rematch n r :
  pause_inv r -> pause_inv (snd (request_rematch n r)).
Proof.
  intros Hinv. unfold request_rematch. case_match; [exact Hinv|].
  eapply pause_inv_view; [| | | |exact Hinv]; auto.
Qed.

Lemma pause_inv_rematch_if_agreed now r :
  pause_inv r -> pause_inv (rematch_if_agreed now r).
Proof.
  intros Hinv. unfold rematch_if_agreed. destruct (is_rematch_agreed r); [|assumption].
  apply pause_inv_start_timer.
  eapply pause_inv_keep; [| | | |exact Hinv]; simpl; auto.
  - apply ghosts_kept_map. auto.
  - discriminate.
Qed.

(** A change of status away from Waiting, seats and records untouched. *)
Lemma pause_inv_leave_waiting s r :
  s <> Waiting -> pause_inv r -> pause_inv (set_status s r).
Proof.
  intros Hs Hinv. eapply pause_inv_keep; [| | | |exact Hinv]; simpl; auto.
  - apply ghosts_kept_refl.
  - intros Hw. contradiction.
Qed.

Lemma pause_inv_step r ev : pause_inv r -> pause_inv (step r ev).
Proof.
  intros Hinv. destruct ev; simpl.
  - unfold handle_join_room.
    destruct (can_reconnect _ _ _); [apply pause_inv_handle_reconnect; assumption|].
    destruct (is_full r); [assumption|]. apply pause_inv_add_player. assumption.
  - eapply pause_inv_view; [| | | |exact Hinv]; auto.
  - unfold handle_ready. destruct (get_player_by_socket sock r) as [p|]; [|assumption].
    pose proof (pause_inv_set_player_ready sock (negb (ready p)) r Hinv) as H1.
    destruct (are_all_players_ready _); [|assumption].
    apply pause_inv_start_timer, pause_inv_leave_waiting; [discriminate|assumption].
  - unfold handle_place_stone. destruct (get_player_by_socket sock r) as [p|]; [|assumption].
    destruct (bool_decide (status r = Playing)) eqn:Hs; simpl; [|assumption].
    apply bool_decide_eq_true in Hs.
    destruct (negb _); [assumption|].
    destruct x as [x|]; [|assumption]. destruct y as [y|]; [|assumption].
    unfold Room.place_stone.
    destruct (Board.place_stone (board r) x y (color p)) as [[ok|e] b']; [|assumption].
    assert (H1 : pause_inv (set_board b' r)).
    { eapply pause_inv_view; [| | | |exact Hinv]; auto. }
    destruct (Room.check_winner x y (set_board b' r)) as [[winner|e]|]; try exact H1.
    destruct (truthy winner).
    + apply pause_inv_leave_waiting; [discriminate|].
      eapply pause_inv_view; [| | | |exact H1]; auto.
    + apply pause_inv_start_timer.
      eapply pause_inv_view; [| | | |exact H1]; auto.
  - apply pause_inv_remove_player. assumption.
  - apply pause_inv_remove_player. assumption.
  - unfold remove_from_room_spectator, remove_spectator. case_match; [|exact Hinv].
    eapply pause_inv_view; [| | | |exact Hinv]; auto.
  - unfold time_up. destruct (timer_expired now r); [|assumption].
    unfold handle_timer_timeout. destruct (negb _).
    + eapply pause_inv_view; [| | | |exact Hinv]; auto.
    + apply pause_inv_start_timer. eapply pause_inv_view; [| | | |exact Hinv]; auto.
  - apply pause_inv_handle_reconnect. assumption.
  - apply pause_inv_sweep. assumption.
  - unfold handle_surrender. repeat case_match; try assumption.
    apply pause_inv_leave_waiting; [discriminate|].
    eapply pause_inv_view; [| | | |exact Hinv]; auto.
  - unfold handle_rematch. destruct (negb _); [assumption|].
    destruct (get_player_by_socket sock r) as [p|]; [|assumption].
    pose proof (pause_inv_request_rematch (name p) r Hinv) as H1.
    destruct (request_rematch (name p) r) as [[|] r1]; simpl in H1; [|assumption].
    apply pause_inv_rematch_if_agreed. assumption.
  - unfold handle_rematch_response.
    destruct (get_player_by_socket sock r) as [p|]; [|assumption].
    destruct accepted.
    + apply pause_inv_rematch_if_agreed, pause_inv_request_rematch. assumption.
    + eapply pause_inv_view; [| | | |exact Hinv]; auto.
Qed.

Lemma reachable_pause_inv r : reachable r -> pause_inv r.
Proof.
  induction 1; [|apply pause_inv_step; assumption].
  split; simpl.
  - intros n [d Hl]. rewrite lookup_empty in Hl. discriminate.
  - discriminate.
  - intros _ p Hp. inversion Hp.
Qed.

End PauseInvariant.

Section StoneCounts.
Import Board.

Lemma count_row_insert (color c : string) (row : list cell) j :
  row !! j = Some None ->
  length (filter (fun x => cell_is x color = true) (<[j := Some c]> row)) =
  (length (filter (fun x => cell_is x color = true) row)
   + (if String.eqb c color then 1 else 0))%nat.
Proof.
  intros Hj. pose proof (lookup_lt_Some _ _ _ Hj) as Hlt.
  rewrite insert_take_drop by assumption.
  rewrite <- (take_drop_middle row j None Hj) at 3.
  rewrite !filter_app, !length_app, !filter_cons. simpl.
  destruct (String.eqb c color) eqn:Hc; case_decide; simpl; congruence || lia.
Qed.

Lemma count_color_insert (color c : string) (g : list (list cell)) i j row :
  g !! i = Some row -> row !! j = Some None ->
  count_color color (<[i := <[j := Some c]> row]> g) =
  (count_color color g + (if String.eqb c color then 1 else 0))%nat.
Proof.
  intros Hi Hj. pose proof (lookup_lt_Some _ _ _ Hi) as Hlt.
  unfold count_color.
  rewrite insert_take_drop by assumption.
  rewrite <- (take_drop_middle g i row Hi) at 3.
  rewrite !concat_app, !concat_cons, !filter_app, !length_app.
  rewrite (count_row_insert color c row j Hj). lia.
Qed.

(** Placing a stone on an empty cell adds one to its colour's count. *)
Lemma count_color_grid_with b x y (color c : string) :
  wf b -> is_valid_position b x y = true -> stone b x y = None ->
  count_color color (grid_with b x y c) =
  (count_color color (board b) + (if String.eqb c color then 1 else 0))%nat.
Proof.
  intros Hwf Hv Hst. apply valid_bounds in Hv as [Hx Hy].
  destruct (wf_row b x Hwf Hx) as (row & Hrow & Hlen).
  unfold grid_with. rewrite Hrow.
  apply count_color_insert; [assumption|].
  unfold stone in Hst. rewrite Hrow in Hst.
  destruct (lookup_lt_is_Some_2 row (Z.to_nat y)) as [c0 Hc0]; [lia|].
  rewrite Hc0 in Hst. subst c0. exact Hc0.
Qed.

Lemma count_color_init color : count_color color (board (init 15)) = 0%nat.
Proof.
  assert (H : forall l : list cell, Forall (fun c => c = None) l ->
              filter (fun x => cell_is x color = true) l = []).
  { induction 1 as [|c l Hc _ IH]; [reflexivity|]. subst c.
    rewrite filter_cons, decide_False by (simpl; discriminate). exact IH. }
  unfold count_color. rewrite (H (concat (board (init 15)))); [reflexivity|].
  vm_compute. repeat constructor.
Qed.

End StoneCounts.

Section RoomClaims.
Import Room Server Invariants.
Implicit Types (r : GameRoom) (ev : event) (p : Player).

Lemma reachable_run r evs : reachable r -> reachable (run r evs).
Proof.
  revert r. induction evs as [|ev evs IH]; intros r Hr; simpl; [assumption|].
  apply IH. apply reachable_step. assumption.
Qed.

Lemma reachable_started : reachable started.
Proof. apply reachable_run. apply reachable_init. Qed.

(** No room ever seats more than two players. *)
Lemma reachable_at_most_two_seats r : reachable r -> (length (players r) <= 2)%nat.
Proof. intros Hr. apply (inv_seats r (reachable_game_inv r Hr)). Qed.

(** C3 (the code departs from the claim).  After A and B have joined, A has
    left and C has joined, the room is reachable and has two seats, and both
    hold white: [add_player] picks the colour from the number of seats
    alone. *)
Theorem rejoined_two_white_seats :
  reachable rejoined /\
  length (players rejoined) = 2%nat /\
  map color (players rejoined) = ["white"; "white"] /\
  map name (players rejoined) = ["B"; "C"].
Proof.
  split; [apply reachable_run; apply reachable_init|].
  do 2 (split; [vm_compute; reflexivity|]). vm_compute. reflexivity.
Qed.

Lemma reachable_third_loss : reachable third_loss.
Proof.
  unfold third_loss. apply reachable_step. apply reachable_run. apply reachable_started.
Qed.

(** C7 (the code departs from the claim).  A player who has reconnected
    twice and loses the connection again is not forfeited: the room stays
    Playing and paused with the timer stopped, no disconnection record is
    made, so the forfeit sweep never ends the game and the player can no
    longer reconnect. *)
Theorem third_loss_not_forfeited :
  reachable third_loss /\
  status reconnected_twice = Playing /\
  attempts_of "A" reconnected_twice = max_reconnect_attempts /\
  status third_loss = Playing /\
  is_paused third_loss = true /\
  turn_start_time third_loss = None /\
  timer_alive third_loss = false /\
  disconnected_players third_loss = ∅ /\
  (forall now, forfeit_sweep now third_loss = third_loss) /\
  (forall sock now, handle_reconnect (Some "A") sock now third_loss = third_loss).
Proof.
  split; [exact reachable_third_loss|].
  assert (Hd : disconnected_players third_loss = ∅) by (vm_compute; reflexivity).
  do 7 (split; [vm_compute; reflexivity|]).
  split.
  - intros now. unfold forfeit_sweep, check_reconnect_timeout.
    rewrite Hd, map_to_list_empty. reflexivity.
  - intros sock now. unfold handle_reconnect, can_reconnect.
    rewrite Hd, lookup_empty. reflexivity.
Qed.

Lemma reachable_two_timeouts : reachable two_timeouts.
Proof. apply reachable_run. apply reachable_started. Qed.

(** C8, as stated, fails: after two timeouts of black, each followed by a
    stone of white, the room is Playing with no black and two white
    stones. *)
Lemma stone_counts_counterexample :
  ~ (forall r, reachable r -> status r = Playing -> counts_close r).
Proof.
  intros H.
  assert (Hs : status two_timeouts = Playing) by (vm_compute; reflexivity).
  specialize (H two_timeouts reachable_two_timeouts Hs).
  assert (Hb : black_count two_timeouts = 0) by (vm_compute; reflexivity).
  assert (Hw : white_count two_timeouts = 2) by (vm_compute; reflexivity).
  unfold counts_close in H. rewrite Hb, Hw in H. lia.
Qed.

End RoomClaims.

Section OrderlyPlay.
Import Room Server Invariants.
Implicit Types (r : GameRoom) (ev : event) (p : Player).

Lemma tame_same r r' :
  status r' = status r -> board r' = board r -> current_turn r' = current_turn r ->
  tame r r'.
Proof. intros. left. auto. Qed.

Lemma tame_start_timer now r r' : tame r r' -> tame r (start_timer now r').
Proof.
  assert (H : status (start_timer now r') = status r' /\
              board (start_timer now r') = board r' /\
              current_turn (start_timer now r') = current_turn r').
  { unfold start_timer. destruct (is_paused r'); auto. }
  destruct H as (Hs & Hb & Ht). unfold tame. rewrite Hs, Hb, Ht. auto.
Qed.

Lemma tame_reconnect_player n sock now r :
  tame r (snd (reconnect_player n sock now r)).
Proof.
  unfold reconnect_player.
  destruct (disconnected_players r !! n); [|apply tame_same; reflexivity].
  destruct (negb _); [apply tame_same; reflexivity|].
  cbv zeta. destruct (bool_decide _); [|apply tame_same; reflexivity].
  destruct (_ && _); simpl; [apply tame_start_timer|]; apply tame_same; reflexivity.
Qed.

Lemma tame_handle_reconnect n sock now r : tame r (handle_reconnect n sock now r).
Proof.
  unfold handle_reconnect.
  repeat case_match; try (apply tame_same; reflexivity). apply tame_reconnect_player.
Qed.

Lemma tame_remove_player sock is_disconnect now r :
  tame r (snd (remove_player sock is_disconnect now r)).
Proof.
  unfold remove_player.
  destruct (find _ _) as [q|]; [|apply tame_same; reflexivity].
  destruct (is_disconnect && _).
  - cbv zeta. case_match; apply tame_same; reflexivity.
  - cbv zeta. repeat case_match; simpl;
      try (apply tame_same; reflexivity); right; left; simpl; discriminate.
Qed.

Lemma forfeit_sweep_cases now r :
  forfeit_sweep now r = r \/ status (forfeit_sweep now r) = Finished.
Proof.
  unfold forfeit_sweep. generalize (check_reconnect_timeout now r) as l.
  intros l. revert r. induction l as [|nc l IH]; intros r; [left; reflexivity|].
  cbn [fold_left]. right. destruct (IH (snd (forfeit_player (fst nc) (snd nc) r))) as [H|H];
    [rewrite H; reflexivity|exact H].
Qed.

Lemma tame_rematch_if_agreed now r r1 :
  Board.size (board r1) = 15 -> tame r r1 -> tame r (rematch_if_agreed now r1).
Proof.
  intros Hsz Ht. unfold rematch_if_agreed. destruct (is_rematch_agreed r1); [|assumption].
  apply tame_start_timer. right. right. simpl.
  split; [apply reset_is_init; assumption|reflexivity].
Qed.

Lemma tame_request_rematch n r : tame r (snd (request_rematch n r)).
Proof. unfold request_rematch. case_match; apply tame_same; reflexivity. Qed.

Lemma request_rematch_board n r : board (snd (request_rematch n r)) = board r.
Proof. unfold request_rematch. case_match; reflexivity. Qed.

(** Every orderly step other than a placement is tame. *)
Lemma tame_step r ev :
  game_inv r -> orderly r ev ->
  (forall sock x y now, ev <> PlaceStone sock x y now) ->
  tame r (step r ev).
Proof.
  intros Hinv Hord Hnp. destruct ev; simpl in *.
  - unfold handle_join_room.
    destruct (can_reconnect _ _ _); [apply tame_handle_reconnect|].
    destruct (is_full r); [apply tame_same; reflexivity|].
    unfold add_player. case_match; apply tame_same; reflexivity.
  - apply tame_same; reflexivity.
  - unfold handle_ready.
    destruct (get_player_by_socket sock r) as [q|]; [|apply tame_same; reflexivity].
    destruct (set_player_ready_view sock (negb (ready q)) r) as (_ & Hs & Hb & Ht).
    destruct (are_all_players_ready _).
    + apply tame_start_timer. right. right. simpl. rewrite Hb, Ht.
      apply (inv_waiting r Hinv Hord).
    + apply tame_same; assumption.
  - exfalso. eapply Hnp. reflexivity.
  - apply tame_remove_player.
  - apply tame_remove_player.
  - unfold remove_from_room_spectator, remove_spectator.
    case_match; apply tame_same; reflexivity.
  - contradiction.
  - apply tame_handle_reconnect.
  - destruct (forfeit_sweep_cases now r) as [->|H].
    + apply tame_same; reflexivity.
    + right. left. rewrite H. discriminate.
  - unfold handle_surrender. repeat case_match; try (apply tame_same; reflexivity).
    right. left. simpl. discriminate.
  - unfold handle_rematch. destruct (negb _); [apply tame_same; reflexivity|].
    destruct (get_player_by_socket sock r) as [q|]; [|apply tame_same; reflexivity].
    pose proof (tame_request_rematch (name q) r) as H1.
    pose proof (request_rematch_board (name q) r) as Hb.
    destruct (request_rematch (name q) r) as [[|] r1]; simpl in H1, Hb; [|assumption].
    apply tame_rematch_if_agreed; [|assumption].
    rewrite Hb. apply (inv_board_size r Hinv).
  - unfold handle_rematch_response.
    destruct (get_player_by_socket sock r) as [q|]; [|apply tame_same; reflexivity].
    destruct accepted; [|apply tame_same; reflexivity].
    apply tame_rematch_if_agreed; [|apply tame_request_rematch].
    rewrite request_rematch_board. apply (inv_board_size r Hinv).
Qed.

Lemma balanced_fresh r :
  board r = Board.init 15 -> current_turn r = "black" -> balanced r.
Proof.
  intros Hb Ht. left. split; [assumption|].
  unfold black_count, white_count. rewrite Hb, !count_color_init. reflexivity.
Qed.

Lemma tame_balanced r r' :
  tame r r' -> (status r = Playing -> balanced r) ->
  status r' = Playing -> balanced r'.
Proof.
  intros [(Hs & Hb & Ht)|[Hne|[Hb Ht]]] Hbal Hp.
  - rewrite Hs in Hp. specialize (Hbal Hp).
    unfold balanced, black_count, white_count in *. rewrite Hb, Ht. exact Hbal.
  - contradiction.
  - apply balanced_fresh; assumption.
Qed.

(** A stone of the colour to move, then the turn passes: the balance holds. *)
Lemma balanced_place sock x y now r :
  game_inv r -> (status r = Playing -> balanced r) ->
  status (handle_place_stone sock x y now r) = Playing ->
  balanced (handle_place_stone sock x y now r).
Proof.
  intros Hinv Hbal. unfold handle_place_stone.
  destruct (get_player_by_socket sock r) as [q|]; [|exact Hbal].
  destruct (bool_decide (status r = Playing)) eqn:Hs; simpl; [|exact Hbal].
  apply bool_decide_eq_true in Hs. specialize (Hbal Hs).
  destruct (String.eqb (color q) (current_turn r)) eqn:Hturn; simpl; [|auto].
  apply String.eqb_eq in Hturn.
  destruct x as [x|]; [|auto]. destruct y as [y|]; [|auto].
  unfold Room.place_stone.
  pose proof (inv_board_wf r Hinv) as Hwf.
  destruct (place_stone_cases (board r) x y (color q) Hwf)
    as [[e He]|(Hv & Hst & Hc & He)]; rewrite He; [auto|].
  set (b' := Board.mkBoard _ _).
  assert (Hwf' : Board.wf b') by (apply wf_grid_with; assumption).
  assert (Hv' : Board.is_valid_position b' x y = true) by exact Hv.
  destruct (check_winner_fuel_enough (S (Z.to_nat (Board.size b'))) b' x y Hwf'
              ltac:(destruct Hwf'; lia) Hv') as [_ [w Hw]].
  unfold Room.check_winner. cbn [board set_board]. rewrite Hw.
  destruct (truthy w); [simpl; discriminate|].
  intros _.
  assert (Hcount : forall c,
            Board.count_color c (Board.board b') =
            (Board.count_color c (Board.board (board r))
             + (if String.eqb (color q) c then 1 else 0))%nat).
  { intros c. apply count_color_grid_with; assumption. }
  assert (Hview : forall r0, board r0 = b' ->
            current_turn r0 = other_color (current_turn r) -> balanced r0).
  { intros r0 Hb0 Ht0. unfold balanced, black_count, white_count in *.
    rewrite Hb0, Ht0, !Hcount, Hturn. unfold other_color.
    destruct Hbal as [[Ht Hn]|[Ht Hn]]; rewrite Ht; simpl; [right|left];
      (split; [reflexivity|lia]). }
  apply Hview; unfold start_timer; destruct (is_paused _); reflexivity.
Qed.

Lemma orderly_game_inv r : reachable_orderly r -> game_inv r.
Proof.
  induction 1; [apply game_inv_init | apply game_inv_step; assumption].
Qed.

Lemma orderly_reachable r : reachable_orderly r -> reachable r.
Proof. induction 1; [apply reachable_init | apply reachable_step; assumption]. Qed.

Lemma orderly_balanced r :
  reachable_orderly r -> status r = Playing -> balanced r.
Proof.
  induction 1 as [rid|r ev Hr IH Hord]; [simpl; discriminate|].
  pose proof (orderly_game_inv r Hr) as Hinv.
  destruct ev; try (apply (tame_balanced r); [apply tame_step; (assumption || discriminate)|assumption]).
  apply balanced_place; assumption.
Qed.

Lemma balanced_counts_close r : balanced r -> counts_close r.
Proof. unfold counts_close. intros [[_ H]|[_ H]]; lia. Qed.

End OrderlyPlay.

Section SessionClaims.
Import Room Server Invariants.
Implicit Types (r : GameRoom) (ev : event) (p : Player).

Lemma stone_empty_grid sz x y :
  Board.stone (Board.mkBoard sz (Board.empty_grid sz)) x y = None.
Proof.
  unfold Board.stone, Board.empty_grid. simpl.
  destruct (replicate _ _ !! Z.to_nat x) as [row|] eqn:Hrow; [|reflexivity].
  apply lookup_replicate in Hrow as [-> _].
  destruct (replicate _ _ !! Z.to_nat y) as [c|] eqn:Hc; [|reflexivity].
  apply lookup_replicate in Hc as [-> _]. reflexivity.
Qed.

Lemma forallb_elem {A} (f : A -> bool) (l : list A) x :
  forallb f l = true -> x ∈ l -> f x = true.
Proof.
  intros Hall Hin. rewrite forallb_forall in Hall. apply Hall.
  apply list_elem_of_In. exact Hin.
Qed.

Lemma forallb_Forall {A} (f : A -> bool) (l : list A) :
  forallb f l = true -> Forall (fun x => f x = true) l.
Proof.
  intros Hall. apply Forall_forall. intros x Hin. eapply forallb_elem; eauto.
Qed.

(** C8 (amended).  In every state reached without a timeout, and with READY
    sent only while the room is Waiting, a Playing room has as many black
    as white stones when black is to move and one more black stone when
    white is to move; the counts differ by 0 or 1. *)
Theorem orderly_stone_counts r :
  reachable_orderly r -> status r = Playing ->
  balanced r /\ counts_close r.
Proof.
  intros Hr Hs. pose proof (orderly_balanced r Hr Hs) as Hb.
  split; [exact Hb|]. apply balanced_counts_close. exact Hb.
Qed.

Lemma orderly_first_move : reachable_orderly first_move.
Proof.
  unfold first_move, started, run. cbn [fold_left].
  repeat (apply orderly_step; [|first [exact I | vm_compute; reflexivity]]).
  apply orderly_init.
Qed.

Lemma first_move_playing : status first_move = Playing.
Proof. vm_compute. reflexivity. Qed.

Lemma orderly_stone_counts_witness : balanced first_move /\ counts_close first_move.
Proof. exact (orderly_stone_counts first_move orderly_first_move first_move_playing). Defined.

(** C4.  In a Waiting room, a READY after which both seats are ready starts
    the game: the room is Playing, the board is empty, black is to move and
    the turn timer runs with 60 s left. *)
Theorem ready_starts_game r sock now p :
  reachable r -> status r = Waiting ->
  get_player_by_socket sock r = Some p ->
  are_all_players_ready (snd (set_player_ready sock (negb (ready p)) r)) = true ->
  let r' := handle_ready sock now r in
  length (players r') = 2%nat /\
  Forall (fun q => ready q = true) (players r') /\
  status r' = Playing /\
  board r' = Board.init 15 /\
  (forall x y, Board.stone (board r') x y = None) /\
  current_turn r' = "black" /\
  turn_start_time r' = Some now /\
  timer_alive r' = true /\
  get_remaining_time now r' = 60.
Proof.
  intros Hr Hw Hp Hall r'. subst r'. unfold handle_ready. rewrite Hp, Hall.
  set (r1 := snd (set_player_ready sock (negb (ready p)) r)) in *.
  destruct (set_player_ready_view sock (negb (ready p)) r) as (Hlen & Hs & Hb & Ht).
  fold r1 in Hlen, Hs, Hb, Ht.
  pose proof (reachable_game_inv r Hr) as Hg.
  pose proof (pause_inv_set_player_ready sock (negb (ready p)) r (reachable_pause_inv r Hr))
    as Hpi. fold r1 in Hpi.
  assert (Hpaused : is_paused r1 = false).
  { destruct (is_paused r1) eqn:Hpa; [|reflexivity]. exfalso.
    destruct (inv_paused_ghost r1 Hpi Hpa) as (q & Hin & Hgh).
    assert (Hrq : ready q = false).
    { apply (inv_waiting_ghost r1 Hpi); [congruence|assumption|assumption]. }
    unfold are_all_players_ready in Hall.
    destruct (length (players r1) <? 2)%nat; [discriminate|].
    rewrite (forallb_elem ready _ q Hall Hin) in Hrq. discriminate. }
  destruct (inv_waiting r Hg Hw) as [Hinit Hturn].
  assert (Hstart : start_timer now (set_status Playing r1) =
                   set_timer_alive true (set_timer_callback true
                     (set_turn_start_time (Some now) (set_status Playing r1)))).
  { unfold start_timer. simpl. rewrite Hpaused. reflexivity. }
  rewrite Hstart. simpl.
  pose proof (all_ready_two_seats r1 Hall) as H2.
  pose proof (inv_seats r Hg) as H2'.
  split; [lia|]. split.
  { unfold are_all_players_ready in Hall.
    destruct (length (players r1) <? 2)%nat; [discriminate|].
    apply forallb_Forall. exact Hall. }
  split; [reflexivity|]. split; [congruence|]. split.
  { intros x y. rewrite Hb, Hinit. apply stone_empty_grid. }
  split; [congruence|]. split; [reflexivity|]. split; [reflexivity|].
  unfold get_remaining_time, turn_time_limit. simpl. lia.
Qed.

Lemma ready_starts_game_witness :
  status (handle_ready 2 0 one_ready) = Playing /\
  turn_start_time (handle_ready 2 0 one_ready) = Some 0.
Proof.
  assert (Hr : reachable one_ready) by (apply reachable_run, reachable_init).
  pose proof (ready_starts_game one_ready 2 0 (mkPlayer (Some 2) "B" "white" false)
                Hr eq_refl eq_refl eq_refl) as H.
  split; apply H.
Defined.

(** C5.  When the deadline of the running timer is reached in a Playing
    room, the turn passes to the other colour and the timer is armed again
    with 60 s, while board, status and seats stay as they are; a timeout
    that finds the room not Playing changes nothing. *)
Theorem time_up_passes_turn :
  (forall r now,
     reachable r -> status r = Playing -> deadline_reached now r ->
     let r' := time_up now r in
     current_turn r' = other_color (current_turn r) /\
     current_turn r' <> current_turn r /\
     turn_start_time r' = Some now /\
     timer_alive r' = true /\
     get_remaining_time now r' = 60 /\
     board r' = board r /\
     status r' = Playing /\
     players r' = players r) /\
  (forall r now, status r <> Playing -> handle_timer_timeout now r = r).
Proof.
  split.
  - intros r now Hr Hs Hd r'. subst r'. unfold deadline_reached in Hd.
    unfold time_up. rewrite Hd. unfold handle_timer_timeout.
    cbn [status set_timer_alive]. rewrite bool_decide_eq_true_2 by assumption.
    cbn [negb].
    assert (Halive : timer_alive r = true).
    { unfold timer_expired in Hd. apply andb_true_iff in Hd as [Ha _]. exact Ha. }
    pose proof (reachable_timer_inv r Hr Halive) as Hpaused.
    unfold start_timer. cbn [is_paused switch_turn set_current_turn set_timer_alive].
    rewrite Hpaused. simpl.
    split; [reflexivity|]. split.
    { destruct (inv_turn r (reachable_game_inv r Hr)) as [Ht|Ht]; rewrite Ht;
        vm_compute; discriminate. }
    split; [reflexivity|]. split; [reflexivity|]. split.
    { unfold get_remaining_time, turn_time_limit. simpl. lia. }
    split; [reflexivity|]. split; [assumption|reflexivity].
  - intros r now Hs. unfold handle_timer_timeout.
    rewrite bool_decide_eq_false_2 by assumption. reflexivity.
Qed.

Lemma time_up_passes_turn_witness :
  current_turn (time_up 60 started) = "white" /\
  turn_start_time (time_up 60 started) = Some 60 /\
  board (time_up 60 started) = board started.
Proof.
  pose proof (proj1 time_up_passes_turn started 60 reachable_started eq_refl eq_refl) as H.
  simpl in H. destruct H as (H1 & _ & H2 & _ & _ & H3 & _).
  split; [exact H1|]. split; [exact H2|exact H3].
Defined.

Lemma update_first_hit {A} (test : A -> bool) f (l : list A) x :
  x ∈ l -> test x = true ->
  exists x', x' ∈ l /\ test x' = true /\ f x' ∈ update_first test f l.
Proof.
  induction l as [|y l IH]; intros Hin Ht; [inversion Hin|]. simpl.
  destruct (test y) eqn:Hy.
  - exists y. split; [left|]. split; [assumption|left].
  - apply elem_of_cons in Hin as [->|Hin]; [congruence|].
    destruct (IH Hin Ht) as (x' & Hx' & Ht' & Hf).
    exists x'. split; [right; assumption|]. split; [assumption|right; assumption].
Qed.

Lemma can_reconnect_spec n now r :
  can_reconnect n now r = true <->
  exists d, disconnected_players r !! n = Some d /\
            attempts_of n r < max_reconnect_attempts /\
            now - disconnect_time d <= reconnect_timeout.
Proof.
  unfold can_reconnect. destruct (disconnected_players r !! n) as [d|].
  - destruct (Z.leb_spec max_reconnect_attempts (attempts_of n r)).
    + split; [discriminate|]. intros (d' & _ & Hlt & _). lia.
    + rewrite Z.leb_le. split.
      * intros Hle. exists d. auto.
      * intros (d' & [= <-] & _ & Hle). exact Hle.
  - split; [discriminate|]. intros (d & Hd & _). discriminate.
Qed.


Lemma reachable_lost_once : reachable lost_once.
Proof. unfold lost_once. apply reachable_step, reachable_started. Qed.


Lemma swap_color_involutive c : swap_color (swap_color c) = c.
Proof.
  unfold swap_color.
  destruct (String.eqb c "black") eqn:Hb.
  - apply String.eqb_eq in Hb. subst c. reflexivity.
  - destruct (String.eqb c "white") eqn:Hw.
    + apply String.eqb_eq in Hw. subst c. reflexivity.
    + rewrite Hb, Hw. reflexivity.
Qed.

Lemma start_timer_game now r :
  players (start_timer now r) = players r /\ board (start_timer now r) = board r /\
  current_turn (start_timer now r) = current_turn r /\
  status (start_timer now r) = status r /\
  rematch_requests (start_timer now r) = rematch_requests r.
Proof. unfold start_timer. destruct (is_paused r); auto. Qed.

(** C9.  In a Finished room, the rematch request after which both seats have
    agreed starts the rematch: the board is empty, every seat has the
    opposite colour (so a second rematch gives the first colours back), black
    is to move, both seats are ready, the room is Playing and no agreement
    is left.  An accepting REMATCH_RESPONSE does the same. *)
Theorem rematch_start_spec r sock now p :
  status r = Finished ->
  get_player_by_socket sock r = Some p ->
  is_rematch_agreed (snd (request_rematch (name p) r)) = true ->
  let r' := handle_rematch sock now r in
  length (players r') = 2%nat /\
  board r' = Board.reset (board r) /\
  (forall x y, Board.stone (board r') x y = None) /\
  map color (players r') = map (fun q => swap_color (color q)) (players r) /\
  map name (players r') = map name (players r) /\
  map socket (players r') = map socket (players r) /\
  swap_color "black" = "white" /\ swap_color "white" = "black" /\
  map color (players (start_rematch (start_rematch r))) = map color (players r) /\
  current_turn r' = "black" /\
  Forall (fun q => ready q = true) (players r') /\
  status r' = Playing /\
  rematch_requests r' = ∅ /\
  handle_rematch_response sock true now r = r'.
Proof.
  intros Hs Hp Hagreed r'.
  assert (Hreq : request_rematch (name p) r =
                 (true, set_rematch_requests (<[name p := true]> (rematch_requests r)) r)).
  { unfold request_rematch. rewrite bool_decide_eq_true_2 by assumption. reflexivity. }
  rewrite Hreq in Hagreed. cbn [snd] in Hagreed.
  assert (Hr' : r' = start_timer now (start_rematch
                  (set_rematch_requests (<[name p := true]> (rematch_requests r)) r))).
  { subst r'. unfold handle_rematch.
    rewrite bool_decide_eq_true_2 by assumption. cbn [negb].
    rewrite Hp, Hreq. unfold rematch_if_agreed. rewrite Hagreed. reflexivity. }
  assert (Hresp : handle_rematch_response sock true now r = r').
  { rewrite Hr'. unfold handle_rematch_response. rewrite Hp, Hreq. cbn [snd].
    unfold rematch_if_agreed. rewrite Hagreed. reflexivity. }
  destruct (start_timer_game now (start_rematch
              (set_rematch_requests (<[name p := true]> (rematch_requests r)) r)))
    as (Hpl & Hb & Ht & Hst & Hrr).
  rewrite <- Hr' in Hpl, Hb, Ht, Hst, Hrr. simpl in Hpl, Hb, Ht, Hst, Hrr.
  apply rematch_agreed_two_seats in Hagreed. simpl in Hagreed.
  rewrite Hpl, Hb, Ht, Hst, Hrr.
  split; [rewrite length_map; exact Hagreed|]. split; [reflexivity|].
  split; [intros x y; apply stone_empty_grid|].
  split; [rewrite map_map; reflexivity|].
  split; [rewrite map_map; reflexivity|].
  split; [rewrite map_map; reflexivity|].
  split; [reflexivity|]. split; [reflexivity|]. split.
  { simpl. rewrite !map_map. apply map_ext. intros q. simpl. apply swap_color_involutive. }
  split; [reflexivity|]. split.
  { apply Forall_forall. intros q Hq. apply elem_of_map_1 in Hq as (q0 & -> & _). reflexivity. }
  split; [reflexivity|]. split; [reflexivity|exact Hresp].
Qed.

Lemma rematch_start_spec_witness :
  status (handle_rematch 2 101 rematch_asked) = Playing /\
  map color (players (handle_rematch 2 101 rematch_asked)) = ["white"; "black"] /\
  map color (players rematch_asked) = ["black"; "white"].
Proof.
  pose proof (rematch_start_spec rematch_asked 2 101 (mkPlayer (Some 2) "B" "white" true)
                eq_refl eq_refl eq_refl) as H.
  cbv zeta in H. destruct H as (_ & _ & _ & Hc & _ & _ & _ & _ & _ & _ & _ & Hs & _).
  split; [exact Hs|]. split; [rewrite Hc; vm_compute; reflexivity|vm_compute; reflexivity].
Defined.

End SessionClaims.

(** ** Wire protocol *)

Section JsonStrings.
Import Protocol.
Local Close Scope string_scope.

(** Decide the comparisons of a goal, keeping the arithmetic facts. *)
Ltac zbool :=
  repeat match goal with
  | |- context [?a <=? ?b] => destruct (Z.leb_spec a b)
  | |- context [?a <? ?b] => destruct (Z.ltb_spec a b)
  | |- context [?a =? ?b] => destruct (Z.eqb_spec a b)
  end; simpl; try lia; try reflexivity.

Lemma hex_digit_val n :
  0 <= n < 16 -> hex_val (hex_digit n) = Some n /\ 48 <= hex_digit n <= 102.
Proof.
  intros Hn. unfold hex_val, hex_digit.
  destruct (Z.ltb_spec n 10).
  - split; [|lia]. zbool. f_equal. lia.
  - split; [|lia]. zbool. f_equal. lia.
Qed.

Lemma hex4_val_hex4 n :
  0 <= n < 65536 ->
  exists a b c d,
    hex4 n = [a; b; c; d] /\ hex4_val a b c d = Some n /\
    48 <= a <= 102 /\ 48 <= b <= 102 /\ 48 <= c <= 102 /\ 48 <= d <= 102.
Proof.
  intros Hn. unfold hex4.
  assert (H3 : 0 <= n / 4096 < 16) by (Z.div_mod_to_equations; lia).
  assert (H2 : 0 <= (n / 256) mod 16 < 16) by (Z.div_mod_to_equations; lia).
  assert (H1 : 0 <= (n / 16) mod 16 < 16) by (Z.div_mod_to_equations; lia).
  assert (H0 : 0 <= n mod 16 < 16) by (Z.div_mod_to_equations; lia).
  destruct (hex_digit_val _ H3) as [E3 R3]. destruct (hex_digit_val _ H2) as [E2 R2].
  destruct (hex_digit_val _ H1) as [E1 R1]. destruct (hex_digit_val _ H0) as [E0 R0].
  do 4 eexists. split; [reflexivity|]. split; [|auto].
  unfold hex4_val. rewrite E3, E2, E1, E0. simpl. f_equal.
  Z.div_mod_to_equations. lia.
Qed.

(** Bits: a small number in the low bits of a shifted one adds up. *)
Lemma lor_shiftl_small a k b :
  0 <= k -> 0 <= b < 2 ^ k -> Z.lor (Z.shiftl a k) b = a * 2 ^ k + b.
Proof.
  intros Hk Hb. rewrite Z.shiftl_mul_pow2 by assumption.
  symmetry. apply Z.add_nocarry_lor.
  apply Z.bits_inj'. intros i Hi. rewrite Z.land_spec, Z.bits_0.
  destruct (Z_lt_le_dec i k) as [Hlt|Hge].
  - rewrite Z.mul_pow2_bits_low by assumption. reflexivity.
  - destruct (Z.eq_dec b 0) as [->|Hb0].
    + rewrite Z.bits_0. apply andb_false_r.
    + rewrite (Z.bits_above_log2 b i); [apply andb_false_r|lia|].
      apply Z.log2_lt_pow2; [lia|].
      apply Z.lt_le_trans with (2 ^ k); [lia|]. apply Z.pow_le_mono_r; lia.
Qed.

Lemma surrogate_pair c :
  65536 <= c < 1114112 ->
  let n := c - 65536 in
  let s1 := Z.lor 55296 (Z.land (Z.shiftr n 10) 1023) in
  let s2 := Z.lor 56320 (Z.land n 1023) in
  55296 <= s1 <= 56319 /\ 56320 <= s2 <= 57343 /\
  65536 + Z.lor (Z.shiftl (s1 - 55296) 10) (s2 - 56320) = c.
Proof.
  intros Hc n s1 s2.
  assert (Hn : 0 <= n < 1048576) by (subst n; lia).
  assert (Hhi : Z.land (Z.shiftr n 10) 1023 = n / 1024).
  { change 1023 with (Z.ones 10). rewrite Z.land_ones by lia.
    rewrite Z.shiftr_div_pow2 by lia. change (2 ^ 10) with 1024.
    apply Z.mod_small. Z.div_mod_to_equations. lia. }
  assert (Hlo : Z.land n 1023 = n mod 1024).
  { change 1023 with (Z.ones 10). rewrite Z.land_ones by lia. reflexivity. }
  assert (E1 : s1 = 55296 + n / 1024).
  { subst s1. rewrite Hhi. change 55296 with (Z.shiftl 54 10).
    rewrite lor_shiftl_small; [reflexivity|lia|].
    change (2 ^ 10) with 1024. Z.div_mod_to_equations. lia. }
  assert (E2 : s2 = 56320 + n mod 1024).
  { subst s2. rewrite Hlo. change 56320 with (Z.shiftl 55 10).
    rewrite lor_shiftl_small; [reflexivity|lia|].
    change (2 ^ 10) with 1024. Z.div_mod_to_equations. lia. }
  rewrite E1, E2.
  split; [Z.div_mod_to_equations; lia|]. split; [Z.div_mod_to_equations; lia|].
  replace (55296 + n / 1024 - 55296) with (n / 1024) by lia.
  replace (56320 + n mod 1024 - 56320) with (n mod 1024) by lia.
  rewrite lor_shiftl_small; [|lia|change (2 ^ 10) with 1024; Z.div_mod_to_equations; lia].
  change (2 ^ 10) with 1024. subst n. Z.div_mod_to_equations. lia.
Qed.

Lemma ok_char_spec c :
  ok_char c = true <-> 0 <= c < 1114112 /\ ~ (55296 <= c <= 57343).
Proof.
  unfold ok_char. rewrite !andb_true_iff, negb_true_iff, andb_false_iff.
  rewrite Z.leb_le, Z.ltb_lt, !Z.leb_gt. lia.
Qed.

Lemma escape_char_printable c : ok_char c = true -> Forall printable (escape_char c).
Proof.
  intros Hc. apply ok_char_spec in Hc as [Hr Hs]. unfold escape_char, printable.
  destruct (Z.eqb_spec c 34); [repeat constructor; lia|].
  destruct (Z.eqb_spec c 92); [repeat constructor; lia|].
  destruct (Z.eqb_spec c 10); [repeat constructor; lia|].
  destruct (Z.eqb_spec c 13); [repeat constructor; lia|].
  destruct (Z.eqb_spec c 9); [repeat constructor; lia|].
  destruct (Z.eqb_spec c 8); [repeat constructor; lia|].
  destruct (Z.eqb_spec c 12); [repeat constructor; lia|].
  destruct ((32 <=? c) && (c <=? 126)) eqn:Hp.
  { apply andb_true_iff in Hp as [Hp1 Hp2]. apply Z.leb_le in Hp1, Hp2.
    repeat constructor; lia. }
  destruct (Z.ltb_spec c 65536).
  - destruct (hex4_val_hex4 c ltac:(lia)) as (a & b & x & d & -> & _ & ? & ? & ? & ?).
    repeat constructor; lia.
  - destruct (surrogate_pair c ltac:(lia)) as (Hs1 & Hs2 & _). cbv zeta in Hs1, Hs2.
    destruct (hex4_val_hex4 _ ltac:(split; [|eapply Z.le_lt_trans; [apply Hs1|]]; lia))
      as (a1 & b1 & c1 & d1 & -> & _ & ? & ? & ? & ?).
    destruct (hex4_val_hex4 _ ltac:(split; [|eapply Z.le_lt_trans; [apply Hs2|]]; lia))
      as (a2 & b2 & c2 & d2 & -> & _ & ? & ? & ? & ?).
    repeat constructor; lia.
Qed.

(** Reading back the replacement of one character. *)
Lemma scanstring_escape_char c tail acc :
  ok_char c = true ->
  scanstring (escape_char c ++ tail) acc = scanstring tail (c :: acc).
Proof.
  intros Hc. apply ok_char_spec in Hc as [Hr Hs]. unfold escape_char.
  destruct (Z.eqb_spec c 34) as [->|N34]; [reflexivity|].
  destruct (Z.eqb_spec c 92) as [->|N92]; [reflexivity|].
  destruct (Z.eqb_spec c 10) as [->|N10]; [reflexivity|].
  destruct (Z.eqb_spec c 13) as [->|N13]; [reflexivity|].
  destruct (Z.eqb_spec c 9) as [->|N9]; [reflexivity|].
  destruct (Z.eqb_spec c 8) as [->|N8]; [reflexivity|].
  destruct (Z.eqb_spec c 12) as [->|N12]; [reflexivity|].
  destruct ((32 <=? c) && (c <=? 126)) eqn:Hp.
  - apply andb_true_iff in Hp as [H1 H2]. apply Z.leb_le in H1, H2.
    cbn [app scanstring].
    destruct (Z.eqb_spec c 34); [contradiction|].
    destruct (Z.eqb_spec c 92); [contradiction|].
    destruct (Z.ltb_spec c 32); [lia|]. reflexivity.
  - assert (Hnp : c < 32 \/ 126 < c).
    { apply andb_false_iff in Hp as [H|H]; apply Z.leb_gt in H; lia. }
    destruct (Z.ltb_spec c 65536) as [Hbmp|Hastral].
    + destruct (hex4_val_hex4 c ltac:(lia)) as (h1 & h2 & h3 & h4 & -> & Hv & _).
      cbn [app scanstring]. change (92 =? 34) with false. change (92 =? 92) with true.
      change (117 =? 117) with true. cbv iota. rewrite Hv.
      destruct ((55296 <=? c) && (c <=? 56319)) eqn:Hsur; [|reflexivity].
      apply andb_true_iff in Hsur as [H1 H2]. apply Z.leb_le in H1, H2. lia.
    + destruct (surrogate_pair c ltac:(lia)) as (H1 & H2 & H3). cbv zeta in *.
      set (s1 := Z.lor 55296 _) in *. set (s2 := Z.lor 56320 _) in *.
      destruct (hex4_val_hex4 s1 ltac:(lia)) as (h1 & h2 & h3 & h4 & -> & Hv1 & _).
      destruct (hex4_val_hex4 s2 ltac:(lia)) as (g1 & g2 & g3 & g4 & -> & Hv2 & _).
      cbn [app scanstring]. change (92 =? 34) with false. change (92 =? 92) with true.
      change (117 =? 117) with true. cbv iota. rewrite Hv1.
      rewrite (proj2 (andb_true_iff _ _) (conj (proj2 (Z.leb_le _ _) (proj1 H1))
                                             (proj2 (Z.leb_le _ _) (proj2 H1)))).
      cbn [andb]. rewrite Hv2.
      rewrite (proj2 (andb_true_iff _ _) (conj (proj2 (Z.leb_le _ _) (proj1 H2))
                                             (proj2 (Z.leb_le _ _) (proj2 H2)))).
      rewrite H3. reflexivity.
Qed.

Lemma ok_str_cons c s : ok_str (c :: s) = true <-> ok_char c = true /\ ok_str s = true.
Proof. unfold ok_str. simpl. apply andb_true_iff. Qed.

Lemma scanstring_escaped s tail acc :
  ok_str s = true ->
  scanstring (flat_map escape_char s ++ 34 :: tail) acc = Some (rev acc ++ s, tail).
Proof.
  revert acc. induction s as [|c s IH]; intros acc Hs.
  - simpl. rewrite app_nil_r. reflexivity.
  - apply ok_str_cons in Hs as [Hc Hs]. cbn [flat_map]. rewrite <- app_assoc.
    rewrite scanstring_escape_char by assumption. rewrite IH by assumption.
    simpl. rewrite <- app_assoc. reflexivity.
Qed.

(** A quoted string is read back whole. *)
Lemma scanstring_encode_string s tail :
  ok_str s = true ->
  exists body, encode_string s ++ tail = 34 :: body /\ scanstring body [] = Some (s, tail).
Proof.
  intros Hs. exists (flat_map escape_char s ++ 34 :: tail). split.
  - unfold encode_string. simpl. rewrite <- app_assoc. reflexivity.
  - apply scanstring_escaped. assumption.
Qed.

Lemma encode_string_printable s : ok_str s = true -> Forall printable (encode_string s).
Proof.
  intros Hs. unfold encode_string. constructor; [unfold printable; lia|].
  apply Forall_app. split; [|repeat constructor; unfold printable; lia].
  induction s as [|c s IH]; [constructor|].
  apply ok_str_cons in Hs as [Hc Hs]. cbn [flat_map]. apply Forall_app. split.
  - apply escape_char_printable. assumption.
  - apply IH. assumption.
Qed.

End JsonStrings.

Section JsonNumbers.
Import Protocol.
Local Close Scope string_scope.

Lemma scan_digits_all ds rest a :
  Forall (fun c => is_digit c = true) ds -> ends_number rest ->
  scan_digits (ds ++ rest) a = (digits_value ds a, rest).
Proof.
  intros Hds Hrest. revert a. induction Hds as [|c ds Hc _ IH]; intros a.
  - simpl. destruct rest as [|c rest]; [reflexivity|].
    destruct Hrest as [Hd _]. simpl. rewrite Hd. reflexivity.
  - simpl. rewrite Hc. apply IH.
Qed.

(** The shape of [dec_digits]: a first digit, nonzero unless the number is
    zero, the other digits, then the accumulator. *)
Lemma dec_digits_shape fuel n acc :
  0 <= n < 2 ^ Z.of_nat fuel -> (1 <= fuel)%nat ->
  exists d ds,
    dec_digits fuel n acc = d :: ds ++ acc /\
    Forall (fun c => is_digit c = true) (d :: ds) /\
    (0 < n -> 49 <= d <= 57) /\
    (n = 0 -> d = 48 /\ ds = []) /\
    digits_value (d :: ds) 0 = n.
Proof.
  revert n acc. induction fuel as [|fuel IH]; intros n acc Hn Hf; [lia|].
  cbn [dec_digits]. destruct (Z.ltb_spec n 10) as [Hlt|Hge].
  - exists (48 + n), []. split; [reflexivity|]. split.
    { constructor; [|constructor]. unfold is_digit.
      apply andb_true_iff. rewrite !Z.leb_le. lia. }
    split; [lia|]. split; [intros ->; auto|]. unfold digits_value. simpl. lia.
  - assert (Hpow : 2 ^ Z.of_nat (S fuel) = 2 * 2 ^ Z.of_nat fuel).
    { rewrite Nat2Z.inj_succ, Z.pow_succ_r by lia. reflexivity. }
    assert (Hfuel : (1 <= fuel)%nat).
    { destruct fuel; [simpl in Hn; lia|lia]. }
    assert (Hdiv : 0 <= n / 10 < 2 ^ Z.of_nat fuel).
    { split; [apply Z.div_pos; lia|]. apply Z.div_lt_upper_bound; lia. }
    destruct (IH (n / 10) ((48 + n mod 10) :: acc) Hdiv Hfuel)
      as (d & ds & He & Hall & Hpos & _ & Hval).
    exists d, (ds ++ [48 + n mod 10]). split.
    { rewrite He. rewrite <- app_assoc. reflexivity. }
    split.
    { rewrite app_comm_cons. apply Forall_app. split; [assumption|].
      constructor; [|constructor]. unfold is_digit.
      apply andb_true_iff. rewrite !Z.leb_le. Z.div_mod_to_equations. lia. }
    split; [intros _; apply Hpos; Z.div_mod_to_equations; lia|].
    split; [lia|].
    unfold digits_value in *. rewrite app_comm_cons, fold_left_app, Hval. simpl.
    Z.div_mod_to_equations. lia.
Qed.

Lemma nat_to_str_shape n :
  0 <= n ->
  exists d ds,
    nat_to_str n = d :: ds /\
    Forall (fun c => is_digit c = true) (d :: ds) /\
    (0 < n -> 49 <= d <= 57) /\
    (n = 0 -> d = 48 /\ ds = []) /\
    digits_value (d :: ds) 0 = n.
Proof.
  intros Hn. unfold nat_to_str.
  destruct (dec_digits_shape (S (Z.to_nat (Z.log2 n))) n []) as (d & ds & He & H);
    [|lia|].
  - split; [assumption|]. rewrite Nat2Z.inj_succ, Z2Nat.id by apply Z.log2_nonneg.
    destruct (Z.eq_dec n 0) as [->|Hn0]; [reflexivity|].
    apply Z.log2_spec. lia.
  - exists d, ds. rewrite He, app_nil_r. auto.
Qed.

Lemma is_digit_range c : is_digit c = true <-> 48 <= c <= 57.
Proof. unfold is_digit. rewrite andb_true_iff, !Z.leb_le. reflexivity. Qed.

(** An integer is read back, with the text after it. *)
Lemma scan_int_int_to_str z rest :
  ends_number rest -> scan_int (int_to_str z ++ rest) = Some (z, rest).
Proof.
  intros Hrest. unfold int_to_str. destruct (Z.ltb_spec z 0) as [Hneg|Hpos].
  - destruct (nat_to_str_shape (- z) ltac:(lia)) as (d & ds & -> & Hall & Hd & _ & Hval).
    specialize (Hd ltac:(lia)). unfold scan_int. cbn [app].
    change (45 =? 45) with true. cbv iota.
    destruct (Z.eqb_spec d 48); [lia|].
    rewrite (proj2 (andb_true_iff _ _) (conj (proj2 (Z.leb_le _ _) (proj1 Hd))
                                           (proj2 (Z.leb_le _ _) (proj2 Hd)))).
    change (d :: ds ++ rest) with ((d :: ds) ++ rest).
    rewrite (scan_digits_all (d :: ds) rest 0 Hall Hrest), Hval.
    f_equal. f_equal. lia.
  - destruct (nat_to_str_shape z Hpos) as (d & ds & -> & Hall & Hd & Hz & Hval).
    unfold scan_int. cbn [app].
    assert (Hdig : 48 <= d <= 57).
    { apply is_digit_range. inversion Hall. assumption. }
    destruct (Z.eqb_spec d 45); [lia|].
    destruct (Z.eqb_spec d 48) as [->|Hd48].
    + destruct (Z.eq_dec z 0) as [->|Hz0].
      * destruct (Hz eq_refl) as [_ ->]. reflexivity.
      * specialize (Hd ltac:(lia)). lia.
    + assert (Hz0 : 0 < z).
      { destruct (Z.eq_dec z 0) as [->|]; [destruct (Hz eq_refl); lia|lia]. }
      specialize (Hd Hz0).
      rewrite (proj2 (andb_true_iff _ _) (conj (proj2 (Z.leb_le _ _) (proj1 Hd))
                                             (proj2 (Z.leb_le _ _) (proj2 Hd)))).
      change (d :: ds ++ rest) with ((d :: ds) ++ rest).
      rewrite (scan_digits_all (d :: ds) rest 0 Hall Hrest), Hval. reflexivity.
Qed.

Lemma scan_number_int_to_str z rest :
  ends_number rest -> scan_number (int_to_str z ++ rest) = Some (PInt z, rest).
Proof.
  intros Hrest. unfold scan_number. rewrite scan_int_int_to_str by assumption.
  destruct rest as [|c rest]; [reflexivity|].
  destruct Hrest as (_ & H1 & H2 & H3).
  destruct (Z.eqb_spec c 46); [contradiction|].
  destruct (Z.eqb_spec c 101); [contradiction|].
  destruct (Z.eqb_spec c 69); [contradiction|]. reflexivity.
Qed.

(** The text of an integer: a minus sign or a digit, then digits. *)
Lemma int_to_str_chars z :
  exists c cs, int_to_str z = c :: cs /\ (c = 45 \/ 48 <= c <= 57) /\
               Forall printable (c :: cs).
Proof.
  assert (Hdp : forall l, Forall (fun c => is_digit c = true) l -> Forall printable l).
  { intros l Hl. eapply Forall_impl; [exact Hl|]. intros c Hc.
    apply is_digit_range in Hc. unfold printable. lia. }
  unfold int_to_str. destruct (Z.ltb_spec z 0) as [Hneg|Hpos].
  - destruct (nat_to_str_shape (- z) ltac:(lia)) as (d & ds & -> & Hall & _).
    exists 45, (d :: ds). split; [reflexivity|]. split; [auto|].
    constructor; [unfold printable; lia|]. apply Hdp. assumption.
  - destruct (nat_to_str_shape z Hpos) as (d & ds & -> & Hall & _).
    exists d, ds. split; [reflexivity|]. split.
    + right. apply is_digit_range. inversion Hall. assumption.
    + apply Hdp. assumption.
Qed.

End JsonNumbers.

Section JsonValues.
Import Protocol.
Local Close Scope string_scope.

(** Induction on values, with the hypothesis for the items of a list and of
    a dictionary. *)
Lemma pyval_induction (P : pyval -> Prop) :
  P PNone -> (forall b, P (PBool b)) -> (forall z, P (PInt z)) ->
  (forall s, P (PStr s)) ->
  (forall l, Forall P l -> P (PList l)) ->
  (forall d, Forall (fun kv => P (snd kv)) d -> P (PDict d)) ->
  forall v, P v.
Proof.
  intros HN HB HI HS HL HD.
  refine (fix IH (v : pyval) : P v :=
            match v with
            | PNone => HN
            | PBool b => HB b
            | PInt z => HI z
            | PStr s => HS s
            | PList l =>
                HL l ((fix go (l : list pyval) : Forall P l :=
                         match l with
                         | [] => @List.Forall_nil _ P
                         | x :: r => @List.Forall_cons _ P x r (IH x) (go r)
                         end) l)
            | PDict d =>
                HD d ((fix go (d : list (pykey * pyval))
                         : Forall (fun kv => P (snd kv)) d :=
                         match d with
                         | [] => @List.Forall_nil _ (fun kv => P (snd kv))
                         | (k, x) :: r =>
                             @List.Forall_cons _ (fun kv => P (snd kv)) (k, x) r (IH x) (go r)
                         end) d)
            end).
Qed.

Lemma dumps_start v : exists c cs, dumps v = c :: cs /\ value_start c.
Proof.
  assert (Hfix : forall c, (c = 110 \/ c = 116 \/ c = 102 \/ c = 34 \/ c = 91 \/ c = 123
                            \/ c = 45 \/ 48 <= c <= 57) -> value_start c).
  { intros c Hc. unfold value_start, is_json_ws.
    split; [|lia]. rewrite !orb_false_iff, !Z.eqb_neq. lia. }
  destruct v as [|[|]|z|s|l|d]; simpl.
  - do 2 eexists. split; [reflexivity|]. apply Hfix. vm_compute. auto.
  - do 2 eexists. split; [reflexivity|]. apply Hfix. vm_compute. auto.
  - do 2 eexists. split; [reflexivity|]. apply Hfix. vm_compute. auto.
  - destruct (int_to_str_chars z) as (c & cs & -> & Hc & _).
    exists c, cs. split; [reflexivity|]. apply Hfix. lia.
  - unfold encode_string. do 2 eexists. split; [reflexivity|]. apply Hfix. lia.
  - do 2 eexists. split; [reflexivity|]. apply Hfix. lia.
  - do 2 eexists. split; [reflexivity|]. apply Hfix. lia.
Qed.

Lemma skip_ws_start c s : value_start c -> skip_ws (c :: s) = c :: s.
Proof. intros [Hc _]. simpl. rewrite Hc. reflexivity. Qed.

Lemma skip_ws_dumps v s : skip_ws (dumps v ++ s) = dumps v ++ s.
Proof.
  destruct (dumps_start v) as (c & cs & -> & Hc). apply skip_ws_start. assumption.
Qed.

Lemma ends_value_number rest : ends_value rest -> ends_number rest.
Proof.
  destruct rest as [|c rest]; [auto|]. simpl. unfold is_digit.
  intros Hc. split; [|lia]. apply andb_false_iff. rewrite !Z.leb_gt. lia.
Qed.

(** [ok_val], unfolded. *)
Lemma ok_val_list l : ok_val (PList l) = true <-> Forall (fun v => ok_val v = true) l.
Proof. cbn [ok_val]. rewrite forallb_forall, Forall_forall. setoid_rewrite list_elem_of_In. reflexivity. Qed.

Lemma ok_val_dict d :
  ok_val (PDict d) = true <->
  distinct_keys (map fst d) = true /\ Forall ok_member d.
Proof.
  cbn [ok_val]. rewrite andb_true_iff. apply and_iff_compat_l.
  rewrite forallb_forall, Forall_forall. setoid_rewrite list_elem_of_In.
  split; intros H [k v] Hin; specialize (H (k, v) Hin); unfold ok_member in *; simpl in *.
  - apply andb_true_iff in H as [Hk Hv]. split; [|assumption].
    destruct k as [s|z]; [eauto|discriminate].
  - destruct H as [(s & -> & Hs) Hv]. simpl. rewrite Hs, Hv. reflexivity.
Qed.

Lemma list_rounds_cons x l : list_rounds (x :: l) = S (rounds x + list_rounds l).
Proof. reflexivity. Qed.

Lemma scan_elements_dumps x l :
  Forall reads_back (x :: l) ->
  forall fuel rest, (list_rounds (x :: l) <= fuel)%nat ->
    scan_elements fuel (join_sep (map dumps (x :: l)) ++ 93 :: rest) = Some (x :: l, rest).
Proof.
  revert x. induction l as [|y l IH]; intros x Hall fuel rest Hfuel.
  - apply Forall_cons in Hall as [Hx _]. rewrite list_rounds_cons in Hfuel.
    destruct fuel as [|fuel]; [lia|]. cbn [map join_sep scan_elements].
    rewrite (Hx fuel (93 :: rest)); [|lia|simpl; auto]. reflexivity.
  - apply Forall_cons in Hall as [Hx Hall].
    rewrite list_rounds_cons in Hfuel.
    destruct fuel as [|fuel]; [lia|].
    change (join_sep (map dumps (x :: y :: l)))
      with (dumps x ++ 44 :: 32 :: join_sep (map dumps (y :: l))).
    rewrite <- app_assoc. cbn [scan_elements].
    rewrite (Hx fuel); [|lia|simpl; auto].
    change (skip_ws ((44 :: 32 :: join_sep (map dumps (y :: l))) ++ 93 :: rest))
      with (44 :: 32 :: join_sep (map dumps (y :: l)) ++ 93 :: rest).
    cbv iota. change (44 =? 93) with false. change (44 =? 44) with true. cbv iota.
    assert (Hskip : skip_ws (32 :: join_sep (map dumps (y :: l)) ++ 93 :: rest) =
                    join_sep (map dumps (y :: l)) ++ 93 :: rest).
    { change (skip_ws (32 :: ?s)) with (skip_ws s).
      cbn [map]. destruct (map dumps l); cbn [join_sep]; rewrite <- ?app_assoc;
        apply skip_ws_dumps. }
    rewrite Hskip. rewrite (IH y Hall fuel rest); [reflexivity|lia].
Qed.

End JsonValues.

Section JsonObjects.
Import Protocol.
Local Close Scope string_scope.

Lemma dict_rounds_cons k x d :
  dict_rounds ((k, x) :: d) = S (rounds x + dict_rounds d).
Proof. reflexivity. Qed.

Lemma scan_members_dumps kv d :
  Forall ok_member (kv :: d) ->
  Forall (fun kv => reads_back (snd kv)) (kv :: d) ->
  forall fuel rest, (dict_rounds (kv :: d) <= fuel)%nat ->
    exists body,
      join_sep (map member_text (kv :: d)) ++ 125 :: rest = 34 :: body /\
      scan_members fuel body = Some (pairs_of (kv :: d), rest).
Proof.
  revert kv. induction d as [|kv' d IH]; intros [k v] Hok Hall fuel rest Hfuel.
  - apply Forall_cons in Hok as [[(s & Hk & Hs) Hv] _]. simpl in Hk. subst k.
    apply Forall_cons in Hall as [Hx _]. simpl in Hx.
    rewrite dict_rounds_cons in Hfuel. destruct fuel as [|fuel]; [lia|].
    exists (flat_map escape_char s ++ 34 :: 58 :: 32 :: dumps v ++ 125 :: rest).
    split.
    { cbn [map join_sep member_text encode_key]. unfold encode_string.
      simpl. rewrite <- !app_assoc. reflexivity. }
    cbn [scan_members]. rewrite scanstring_escaped by assumption.
    change (skip_ws (58 :: 32 :: ?t)) with (58 :: 32 :: t). cbv iota.
    change (58 =? 58) with true. cbv iota.
    change (skip_ws (32 :: ?t)) with (skip_ws t). rewrite skip_ws_dumps.
    rewrite (Hx fuel (125 :: rest)); [|lia|simpl; auto]. reflexivity.
  - apply Forall_cons in Hok as [[(s & Hk & Hs) Hv] Hok]. simpl in Hk. subst k.
    apply Forall_cons in Hall as [Hx Hall]. simpl in Hx.
    rewrite dict_rounds_cons in Hfuel. destruct fuel as [|fuel]; [lia|].
    destruct kv' as [k' v'].
    destruct (IH (k', v') Hok Hall fuel rest ltac:(lia)) as (body' & Hbody' & Hscan').
    exists (flat_map escape_char s ++ 34 :: 58 :: 32 :: dumps v ++ 44 :: 32 :: 34 :: body').
    split.
    { change (join_sep (map member_text ((KStr s, v) :: (k', v') :: d)))
        with (member_text (KStr s, v) ++ 44 :: 32 :: join_sep (map member_text ((k', v') :: d))).
      rewrite <- app_assoc. cbn [app]. rewrite Hbody'.
      cbn [member_text encode_key]. unfold encode_string.
      simpl. rewrite <- !app_assoc. reflexivity. }
    cbn [scan_members]. rewrite scanstring_escaped by assumption.
    change (skip_ws (58 :: 32 :: ?t)) with (58 :: 32 :: t). cbv iota.
    change (58 =? 58) with true. cbv iota.
    change (skip_ws (32 :: ?t)) with (skip_ws t). rewrite skip_ws_dumps.
    rewrite (Hx fuel); [|lia|simpl; auto].
    change (skip_ws (44 :: 32 :: 34 :: body')) with (44 :: 32 :: 34 :: body'). cbv iota.
    change (44 =? 125) with false. change (44 =? 44) with true. cbv iota.
    change (skip_ws (32 :: 34 :: body')) with (34 :: body'). cbv iota.
    change (34 =? 34) with true. cbv iota.
    rewrite Hscan'. reflexivity.
Qed.

(** [dict(pairs)] of distinct string keys keeps the pairs as they are. *)
Lemma dict_set_fresh k v d :
  k ∉ map fst d -> dict_set k v d = d ++ [(k, v)].
Proof.
  induction d as [|[k' v'] d IH]; intros Hk; [reflexivity|]. simpl in *.
  apply not_elem_of_cons in Hk as [Hne Hk].
  destruct (decide (k' = k)); [congruence|]. rewrite IH by assumption. reflexivity.
Qed.

Lemma distinct_keys_NoDup ks : distinct_keys ks = true <-> NoDup ks.
Proof.
  induction ks as [|k ks IH]; simpl.
  - split; [constructor|reflexivity].
  - rewrite andb_true_iff, negb_true_iff, IH, NoDup_cons. apply and_iff_compat_r.
    rewrite <- not_true_iff_false, existsb_exists. split.
    + intros Hn Hin. apply Hn. exists k. split; [apply list_elem_of_In; assumption|].
      apply bool_decide_eq_true. reflexivity.
    + intros Hn (k' & Hin & Heq). apply bool_decide_eq_true in Heq. subst k'.
      apply Hn. apply list_elem_of_In. assumption.
Qed.

Lemma dict_of_pairs_members d acc :
  Forall ok_member d -> NoDup (map fst acc ++ map fst d) ->
  fold_left (fun d kv => dict_set (KStr (fst kv)) (snd kv) d) (pairs_of d) acc = acc ++ d.
Proof.
  revert acc. induction d as [|[k v] d IH]; intros acc Hok Hnd.
  - simpl. rewrite app_nil_r. reflexivity.
  - apply Forall_cons in Hok as [[(s & Hk & _) _] Hok]. simpl in Hk. subst k.
    cbn [pairs_of map fold_left fst snd key_text].
    assert (Hfresh : KStr s ∉ map fst acc).
    { apply NoDup_app in Hnd as (_ & Hdisj & _). intros Hin.
      apply (Hdisj _ Hin). left. }
    rewrite dict_set_fresh by assumption.
    fold (pairs_of d). rewrite IH; [rewrite <- app_assoc; reflexivity|assumption|].
    rewrite map_app. cbn [map fst]. rewrite <- app_assoc. exact Hnd.
Qed.

Lemma dict_of_pairs_of d :
  Forall ok_member d -> distinct_keys (map fst d) = true ->
  dict_of_pairs (pairs_of d) = d.
Proof.
  intros Hok Hd. unfold dict_of_pairs.
  rewrite (dict_of_pairs_members d [] Hok); [reflexivity|].
  simpl. apply distinct_keys_NoDup. assumption.
Qed.

(** The scanner reads the text of every well-formed value back. *)
Lemma scan_once_dumps v : ok_val v = true -> reads_back v.
Proof.
  induction v as [| b | z | s | l IHl | d IHd] using pyval_induction;
    intros Hok fuel rest Hfuel Hrest.
  - destruct fuel as [|fuel]; [simpl in Hfuel; lia|]. reflexivity.
  - destruct fuel as [|fuel]; [simpl in Hfuel; lia|]. destruct b; reflexivity.
  - destruct fuel as [|fuel]; [simpl in Hfuel; lia|].
    pose proof (scan_number_int_to_str z rest (ends_value_number rest Hrest)) as Hnum.
    cbn [dumps] in *. destruct (int_to_str_chars z) as (c & cs & He & Hc & _).
    rewrite He in *. cbn [app scan_once] in *.
    destruct (Z.eqb_spec c 34); [lia|]. destruct (Z.eqb_spec c 123); [lia|].
    destruct (Z.eqb_spec c 91); [lia|].
    assert (Hpre : forall w ws, (w = 110 \/ w = 116 \/ w = 102) ->
                                strip_prefix (w :: ws) (c :: cs ++ rest) = None).
    { intros w ws Hw. simpl. destruct (Z.eqb_spec w c); [lia|reflexivity]. }
    change (str "null") with [110; 117; 108; 108].
    change (str "true") with [116; 114; 117; 101].
    change (str "false") with [102; 97; 108; 115; 101].
    rewrite (Hpre 110), (Hpre 116), (Hpre 102) by lia. exact Hnum.
  - destruct fuel as [|fuel]; [simpl in Hfuel; lia|].
    cbn [ok_val] in Hok. cbn [dumps]. unfold encode_string. cbn [app scan_once].
    change (34 =? 34) with true. cbv iota.
    replace ((flat_map escape_char s ++ [34]) ++ rest)
      with (flat_map escape_char s ++ 34 :: rest)
      by (rewrite <- app_assoc; reflexivity).
    rewrite scanstring_escaped by assumption. reflexivity.
  - apply ok_val_list in Hok.
    destruct fuel as [|fuel]; [simpl in Hfuel; lia|].
    destruct l as [|x l]; [reflexivity|].
    assert (Hall : Forall reads_back (x :: l)).
    { apply Forall_forall. intros y Hy.
      rewrite Forall_forall in IHl, Hok. apply IHl; auto. }
    assert (Hr : (list_rounds (x :: l) <= fuel)%nat).
    { change (rounds (PList (x :: l))) with (S (list_rounds (x :: l))) in Hfuel. lia. }
    pose proof (scan_elements_dumps x l Hall fuel rest Hr) as Hscan.
    cbn [dumps app]. rewrite <- app_assoc. cbn [app scan_once].
    change (91 =? 34) with false. change (91 =? 123) with false.
    change (91 =? 91) with true. cbv iota.
    assert (Hstart : exists c cs, join_sep (map dumps (x :: l)) ++ 93 :: rest = c :: cs /\
                                  value_start c).
    { destruct (dumps_start x) as (c & cs & He & Hc).
      cbn [map]. destruct (map dumps l); cbn [join_sep]; rewrite He;
        do 2 eexists; (split; [reflexivity|assumption]). }
    destruct Hstart as (c & cs & He & Hc). rewrite He in *.
    rewrite skip_ws_start by assumption.
    destruct Hc as (_ & Hc & _). destruct (Z.eqb_spec c 93); [contradiction|].
    rewrite Hscan. reflexivity.
  - apply ok_val_dict in Hok as [Hdist Hok].
    destruct fuel as [|fuel]; [simpl in Hfuel; lia|].
    destruct d as [|kv d]; [reflexivity|].
    assert (Hall : Forall (fun kv => reads_back (snd kv)) (kv :: d)).
    { apply Forall_forall. intros y Hy.
      rewrite Forall_forall in IHd, Hok. apply IHd; [assumption|].
      apply (Hok y Hy). }
    assert (Hr : (dict_rounds (kv :: d) <= fuel)%nat).
    { change (rounds (PDict (kv :: d))) with (S (dict_rounds (kv :: d))) in Hfuel. lia. }
    destruct (scan_members_dumps kv d Hok Hall fuel rest Hr) as (body & Hbody & Hscan).
    cbn [dumps app]. change (map _ (kv :: d)) with (map member_text (kv :: d)).
    rewrite <- app_assoc. cbn [app scan_once].
    change (123 =? 34) with false. change (123 =? 123) with true. cbv iota.
    rewrite Hbody. change (skip_ws (34 :: body)) with (34 :: body). cbv iota.
    change (34 =? 125) with false. change (34 =? 34) with true. cbv iota.
    rewrite Hscan. rewrite dict_of_pairs_of by assumption. reflexivity.
Qed.

End JsonObjects.

Section JsonText.
Import Protocol.
Local Close Scope string_scope.

Lemma join_sep_cons2 a b r :
  join_sep (a :: b :: r) = a ++ 44 :: 32 :: join_sep (b :: r).
Proof. reflexivity. Qed.

Lemma join_sep_length_bound {A} (f : A -> list Z) (w : A -> nat) (l : list A) :
  Forall (fun x => (w x <= length (f x))%nat) l ->
  (fold_right (fun x n => S (w x + n)) O l <= length (join_sep (map f l)) + 1)%nat.
Proof.
  induction 1 as [|x l Hx Hl IH]; [simpl; lia|].
  destruct l as [|y l].
  - simpl. lia.
  - cbn [map fold_right] in *. rewrite join_sep_cons2, length_app. cbn [length].
    lia.
Qed.

(** The scanner's rounds are at most the length of the text. *)
Lemma rounds_le_length v : (rounds v <= length (dumps v))%nat.
Proof.
  induction v as [| b | z | s | l IHl | d IHd] using pyval_induction.
  - simpl. lia.
  - destruct b; simpl; lia.
  - destruct (int_to_str_chars z) as (c & cs & He & _). cbn [dumps rounds].
    rewrite He. simpl. lia.
  - cbn [dumps rounds]. unfold encode_string. simpl. lia.
  - pose proof (join_sep_length_bound dumps rounds l IHl) as H.
    cbn [dumps rounds length]. rewrite length_app. cbn [length]. lia.
  - assert (Hm : Forall (fun kv => (rounds (snd kv) <= length (member_text kv))%nat) d).
    { eapply Forall_impl; [exact IHd|]. intros [k x] Hx. simpl in *.
      rewrite length_app. simpl. lia. }
    pose proof (join_sep_length_bound member_text (fun kv => rounds (snd kv)) d Hm) as H.
    cbn [dumps rounds length]. rewrite length_app. cbn [length].
    change (map _ d) with (map member_text d).
    assert (Hfold : fold_right (fun kv n => let '(_, x) := kv in S (rounds x + n)) O d =
                    fold_right (fun kv n => S (rounds (snd kv) + n)) O d).
    { clear. induction d as [|[k x] d IH]; [reflexivity|]. simpl. rewrite IH. reflexivity. }
    rewrite Hfold. lia.
Qed.

(** [json.loads(json.dumps(v)) == v] for a well-formed value. *)
Lemma loads_dumps v : ok_val v = true -> loads (dumps v) = Some v.
Proof.
  intros Hok. unfold loads.
  pose proof (skip_ws_dumps v []) as Hskip. rewrite app_nil_r in Hskip. rewrite Hskip.
  pose proof (scan_once_dumps v Hok (S (length (dumps v))) []) as Hscan.
  rewrite app_nil_r in Hscan. rewrite Hscan; [reflexivity| |exact I].
  pose proof (rounds_le_length v). lia.
Qed.

Lemma join_sep_printable (l : list (list Z)) :
  Forall (Forall printable) l -> Forall printable (join_sep l).
Proof.
  induction 1 as [|x l Hx Hl IH]; [constructor|].
  destruct l as [|y l]; [exact Hx|].
  rewrite join_sep_cons2. apply Forall_app. split; [exact Hx|].
  constructor; [unfold printable; lia|]. constructor; [unfold printable; lia|]. exact IH.
Qed.

(** The text of a well-formed value is printable ASCII. *)
Lemma dumps_printable v : ok_val v = true -> Forall printable (dumps v).
Proof.
  induction v as [| b | z | s | l IHl | d IHd] using pyval_induction; intros Hok.
  - vm_compute. repeat constructor; discriminate.
  - destruct b; vm_compute; repeat constructor; discriminate.
  - destruct (int_to_str_chars z) as (c & cs & He & _ & Hp). cbn [dumps]. rewrite He.
    exact Hp.
  - apply encode_string_printable. exact Hok.
  - apply ok_val_list in Hok. cbn [dumps].
    constructor; [unfold printable; lia|]. apply Forall_app. split.
    + apply join_sep_printable. apply Forall_forall. intros t Ht.
      apply elem_of_map_1 in Ht as (x & -> & Hx).
      rewrite Forall_forall in IHl, Hok. apply IHl; auto.
    + repeat constructor; unfold printable; lia.
  - apply ok_val_dict in Hok as [_ Hok]. cbn [dumps].
    constructor; [unfold printable; lia|]. apply Forall_app. split.
    + apply join_sep_printable. apply Forall_forall. intros t Ht.
      apply elem_of_map_1 in Ht as ([k x] & -> & Hx).
      rewrite Forall_forall in IHd, Hok.
      destruct (Hok _ Hx) as [(s & Hk & Hs) Hv]. simpl in Hk, Hv. subst k.
      apply Forall_app. split; [apply encode_string_printable; assumption|].
      constructor; [unfold printable; lia|]. constructor; [unfold printable; lia|].
      apply (IHd _ Hx Hv).
    + repeat constructor; unfold printable; lia.
Qed.

End JsonText.

Section Framing.
Import Protocol.
Local Close Scope string_scope.

Lemma utf8_encode_ascii s :
  Forall (fun c => 0 <= c < 128) s -> utf8_encode s = Some s.
Proof.
  induction 1 as [|c s Hc _ IH]; [reflexivity|]. cbn [utf8_encode].
  rewrite IH. unfold utf8_encode_char.
  destruct (Z.ltb_spec c 0); [lia|]. destruct (Z.ltb_spec c 128); [|lia]. reflexivity.
Qed.

Lemma utf8_decode_ascii s :
  Forall (fun c => 0 <= c < 128) s -> utf8_decode s = Some s.
Proof.
  induction 1 as [|c s Hc _ IH]; [reflexivity|]. cbn [utf8_decode].
  rewrite IH. unfold in_range.
  destruct (Z.leb_spec 0 c); [|lia]. destruct (Z.leb_spec c 127); [|lia]. reflexivity.
Qed.

Lemma printable_ascii s : Forall printable s -> Forall (fun c => 0 <= c < 128) s.
Proof. intros H. eapply Forall_impl; [exact H|]. unfold printable. intros c Hc. lia. Qed.

Lemma printable_not_space c : printable c -> c <> 32 -> py_isspace c = false.
Proof.
  unfold printable, py_isspace, in_range. intros Hc Hn.
  repeat match goal with
  | |- context [?a <=? ?b] => destruct (Z.leb_spec a b); try lia
  | |- context [?a =? ?b] => destruct (Z.eqb_spec a b); try lia
  end; reflexivity.
Qed.

Lemma lstrip_clean l : starts_clean l -> lstrip l = l.
Proof. intros (c & cs & -> & Hc). simpl. rewrite Hc. reflexivity. Qed.

Lemma rstrip_clean l : ends_clean l -> rstrip l = l.
Proof.
  intros (cs & c & -> & Hc). unfold rstrip.
  rewrite rev_app_distr. simpl. rewrite Hc. simpl. rewrite rev_involutive. reflexivity.
Qed.

Lemma strip_clean l : starts_clean l -> ends_clean l -> strip l = l.
Proof. intros H1 H2. unfold strip. rewrite lstrip_clean, rstrip_clean; auto. Qed.

Lemma rstrip_newline s : rstrip (s ++ [10]) = rstrip s.
Proof. unfold rstrip. rewrite rev_app_distr. reflexivity. Qed.

Lemma join_lines_cons2 a b r : join_lines (a :: b :: r) = a ++ 10 :: join_lines (b :: r).
Proof. reflexivity. Qed.

Lemma frame_join_lines l lines :
  concat (map (fun x => x ++ [10]) (l :: lines)) = join_lines (l :: lines) ++ [10].
Proof.
  revert l. induction lines as [|l' lines IH]; intros l.
  - simpl. rewrite app_nil_r. reflexivity.
  - cbn [map concat]. rewrite join_lines_cons2. cbn [map concat] in IH. rewrite IH.
    rewrite <- !app_assoc. reflexivity.
Qed.

Lemma join_lines_clean l lines :
  Forall clean_line (l :: lines) ->
  starts_clean (join_lines (l :: lines)) /\ ends_clean (join_lines (l :: lines)).
Proof.
  revert l. induction lines as [|l' lines IH]; intros l Hall.
  - apply Forall_cons in Hall as [(H1 & H2 & _) _]. auto.
  - apply Forall_cons in Hall as [Hl Hall]. destruct (IH l' Hall) as [_ Hend].
    rewrite join_lines_cons2.
    destruct Hl as ((c & cs & -> & Hc) & _ & _).
    destruct Hend as (cs' & c' & He & Hc').
    split.
    + exists c, (cs ++ 10 :: join_lines (l' :: lines)). auto.
    + exists ((c :: cs) ++ 10 :: cs'), c'. split; [|assumption].
      rewrite He. rewrite <- app_assoc. reflexivity.
Qed.

Lemma split_lines_one l : Forall (fun c => c <> 10) l -> split_lines l = [l].
Proof.
  induction 1 as [|c l Hc _ IH]; [reflexivity|]. cbn [split_lines].
  destruct (Z.eqb_spec c 10); [contradiction|]. rewrite IH. reflexivity.
Qed.

Lemma split_lines_app l rest :
  Forall (fun c => c <> 10) l -> split_lines (l ++ 10 :: rest) = l :: split_lines rest.
Proof.
  induction 1 as [|c l Hc _ IH]; [reflexivity|]. cbn [app split_lines].
  destruct (Z.eqb_spec c 10); [contradiction|]. rewrite IH. reflexivity.
Qed.

Lemma split_join_lines l lines :
  Forall clean_line (l :: lines) -> split_lines (join_lines (l :: lines)) = l :: lines.
Proof.
  revert l. induction lines as [|l' lines IH]; intros l Hall.
  - apply Forall_cons in Hall as [(_ & _ & Hnl) _]. apply split_lines_one. assumption.
  - apply Forall_cons in Hall as [(_ & _ & Hnl) Hall].
    rewrite join_lines_cons2, split_lines_app by assumption.
    rewrite IH by assumption. reflexivity.
Qed.

(** The text of a message, a dictionary, is a clean line. *)
Lemma dumps_dict_clean d : ok_val (PDict d) = true -> clean_line (dumps (PDict d)).
Proof.
  intros Hok. pose proof (dumps_printable (PDict d) Hok) as Hp.
  split; [|split].
  - cbn [dumps]. do 2 eexists. split; [reflexivity|].
    apply printable_not_space; unfold printable; lia.
  - cbn [dumps]. exists (123 :: join_sep (map member_text d)), 125. split; [reflexivity|].
    apply printable_not_space; unfold printable; lia.
  - eapply Forall_impl; [exact Hp|]. unfold printable. intros c Hc. lia.
Qed.

Lemma read_line_dumps d : ok_val (PDict d) = true -> read_line (dumps (PDict d)) = Some (PDict d).
Proof.
  intros Hok. destruct (dumps_dict_clean d Hok) as (H1 & H2 & _).
  unfold read_line. rewrite strip_clean by assumption.
  rewrite loads_dumps by assumption.
  destruct H1 as (c & cs & -> & _). reflexivity.
Qed.

(** Several messages, each followed by a newline, are parsed back in order. *)
Lemma parse_messages_frames msgs :
  Forall ok_message msgs ->
  exists raw,
    utf8_encode (concat (map (fun m => dumps m ++ [10]) msgs)) = Some raw /\
    raw = concat (map (fun m => dumps m ++ [10]) msgs) /\
    parse_messages raw = msgs.
Proof.
  intros Hall. exists (concat (map (fun m => dumps m ++ [10]) msgs)).
  assert (Hascii : Forall (fun c => 0 <= c < 128)
                     (concat (map (fun m => dumps m ++ [10]) msgs))).
  { apply Forall_concat. apply Forall_forall. intros t Ht.
    apply elem_of_map_1 in Ht as (m & -> & Hm).
    rewrite Forall_forall in Hall. destruct (Hall m Hm) as (d & _ & Hok).
    apply Forall_app. split; [apply printable_ascii, dumps_printable; assumption|].
    repeat constructor; lia. }
  split; [apply utf8_encode_ascii; assumption|]. split; [reflexivity|].
  unfold parse_messages. rewrite utf8_decode_ascii by assumption.
  destruct msgs as [|m msgs]; [reflexivity|].
  assert (Hlines : Forall clean_line (map dumps (m :: msgs))).
  { apply Forall_forall. intros t Ht. apply elem_of_map_1 in Ht as (m' & -> & Hm').
    rewrite Forall_forall in Hall. destruct (Hall m' Hm') as (d & -> & Hok).
    apply dumps_dict_clean. assumption. }
  assert (Hframe : concat (map (fun m => dumps m ++ [10]) (m :: msgs)) =
                   join_lines (map dumps (m :: msgs)) ++ [10]).
  { change (map dumps (m :: msgs)) with (dumps m :: map dumps msgs).
    rewrite <- (frame_join_lines (dumps m) (map dumps msgs)).
    cbn [map]. rewrite map_map. reflexivity. }
  rewrite Hframe. cbn [map] in Hlines |- *.
  destruct (join_lines_clean _ _ Hlines) as [Hs He].
  assert (Hstrip : strip (join_lines (dumps m :: map dumps msgs) ++ [10]) =
                   join_lines (dumps m :: map dumps msgs)).
  { unfold strip. rewrite lstrip_clean.
    - rewrite rstrip_newline. apply rstrip_clean. assumption.
    - destruct Hs as (c & cs & -> & Hc). exists c, (cs ++ [10]). auto. }
  rewrite Hstrip. cbv zeta. rewrite split_join_lines by assumption.
  change (omap _ ?l) with (omap read_line l).
  change (dumps m :: map dumps msgs) with (map dumps (m :: msgs)).
  clear -Hall. induction Hall as [|m' msgs' (d & -> & Hok) _ IH]; [reflexivity|].
  change (omap read_line (map dumps (PDict d :: msgs'))) with
    (match read_line (dumps (PDict d)) with
     | Some y => y :: omap read_line (map dumps msgs')
     | None => omap read_line (map dumps msgs')
     end).
  rewrite read_line_dumps by assumption. rewrite IH. reflexivity.
Qed.

End Framing.

(** ** The wire protocol *)

Section WireClaims.
Import Protocol.
Local Close Scope string_scope.

Lemma data_field_ok d : ok_val d = true -> ok_val (data_field d) = true.
Proof. intros Hd. unfold data_field. destruct (py_truthy d); [exact Hd|reflexivity]. Qed.

Lemma message_of_ok c : ok_call c -> ok_message (message_of c).
Proof.
  intros (Hts & Ht & Hd). unfold message_of, envelope. eexists. split; [reflexivity|].
  assert (Hkeys : distinct_keys [KStr (str "type"); KStr (str "data"); KStr (str "timestamp")]
                  = true) by (vm_compute; reflexivity).
  assert (Hk1 : ok_str (str "type") = true) by (vm_compute; reflexivity).
  assert (Hk2 : ok_str (str "data") = true) by (vm_compute; reflexivity).
  assert (Hk3 : ok_str (str "timestamp") = true) by (vm_compute; reflexivity).
  cbn [ok_val map fst forallb ok_key].
  rewrite Hkeys, Hk1, Hk2, Hk3, Ht, Hts.
  fold (data_field (data c)). rewrite (data_field_ok _ Hd). reflexivity.
Qed.

Lemma message_of_carries c : carries c (message_of c).
Proof. unfold carries, message_of, envelope, data_field. repeat split. Qed.

Lemma create_message_frame c :
  ok_call c ->
  create_message (at_time c) (msg_type c) (data c) = Some (dumps (message_of c) ++ [10]).
Proof.
  intros Hc. destruct (message_of_ok c Hc) as (d & _ & Hok).
  unfold create_message. fold (message_of c). apply utf8_encode_ascii.
  apply Forall_app. split; [apply printable_ascii, dumps_printable; exact Hok|].
  repeat constructor; lia.
Qed.

Lemma create_messages_frames calls :
  Forall ok_call calls ->
  create_messages calls =
  Some (concat (map (fun m => dumps m ++ [10]) (map message_of calls))).
Proof.
  induction 1 as [|c calls Hc _ IH]; [reflexivity|].
  cbn [create_messages map concat]. rewrite (create_message_frame c Hc), IH. reflexivity.
Qed.




(** What is read instead: the key has become a string. *)
Lemma int_key_read_back :
  option_map parse_messages (create_message [] (str "READY") int_key_data) =
  Some [envelope [] (str "READY") (PDict [(KStr (str "1"), PNone)])].
Proof. vm_compute. reflexivity. Qed.

End WireClaims.

(** ** Further properties of the board *)

Section BoardCounts.
Import Board.

Lemma count_cell_total n c : count_total (count_cell n c) = count_total n + 1.
Proof. unfold count_cell, count_total. repeat case_match; simpl; lia. Qed.

Lemma count_row_total row n :
  count_total (fold_left count_cell row n) = count_total n + Z.of_nat (length row).
Proof.
  revert n. induction row as [|c row IH]; intros n; simpl; [lia|].
  rewrite IH, count_cell_total. lia.
Qed.

Lemma count_rows_total g n :
  count_total (fold_left (fun n row => fold_left count_cell row n) g n) =
  count_total n + Z.of_nat (length (concat g)).
Proof.
  revert n. induction g as [|row g IH]; intros n; simpl; [lia|].
  rewrite IH, count_row_total, length_app. lia.
Qed.

Lemma length_concat_square (g : list (list cell)) (k : nat) :
  Forall (fun row => length row = k) g -> length (concat g) = (length g * k)%nat.
Proof. induction 1 as [|row g Hrow _ IH]; simpl; [reflexivity|]. rewrite length_app. lia. Qed.

(** The counter of a colour is the number of cells that hold it. *)
Lemma count_row_color (color : string) (pick : StoneCount -> Z) row n :
  (forall m c, pick (count_cell m c) = pick m + (if cell_is c color then 1 else 0)) ->
  pick (fold_left count_cell row n) =
  pick n + Z.of_nat (length (filter (fun c => cell_is c color = true) row)).
Proof.
  intros Hpick. revert n. induction row as [|c row IH]; intros n; simpl; [lia|].
  rewrite IH, Hpick, filter_cons. destruct (cell_is c color) eqn:Hc; case_decide;
    simpl; congruence || lia.
Qed.

Lemma count_rows_color (color : string) (pick : StoneCount -> Z) g n :
  (forall m c, pick (count_cell m c) = pick m + (if cell_is c color then 1 else 0)) ->
  pick (fold_left (fun n row => fold_left count_cell row n) g n) =
  pick n + Z.of_nat (count_color color g).
Proof.
  intros Hpick. unfold count_color. revert n.
  induction g as [|row g IH]; intros n; simpl; [lia|].
  rewrite IH, (count_row_color color pick) by assumption.
  rewrite filter_app, length_app. lia.
Qed.

Lemma pick_black m c :
  black_count (count_cell m c) = black_count m + (if cell_is c "black" then 1 else 0).
Proof. unfold count_cell. repeat case_match; simpl; lia. Qed.

Lemma pick_white m c :
  white_count (count_cell m c) = white_count m + (if cell_is c "white" then 1 else 0).
Proof.
  unfold count_cell. destruct c as [s|]; simpl; [|lia].
  destruct (String.eqb s "black") eqn:Hb; simpl.
  - apply String.eqb_eq in Hb. subst s. simpl. lia.
  - destruct (String.eqb s "white"); simpl; lia.
Qed.

Lemma count_stones_black b :
  black_count (count_stones b) = Z.of_nat (count_color "black" (board b)).
Proof. unfold count_stones. rewrite (count_rows_color "black" black_count); [simpl; lia|apply pick_black]. Qed.

Lemma count_stones_white b :
  white_count (count_stones b) = Z.of_nat (count_color "white" (board b)).
Proof. unfold count_stones. rewrite (count_rows_color "white" white_count); [simpl; lia|apply pick_white]. Qed.

Lemma count_stones_sum b :
  wf b -> count_total (count_stones b) = size b * size b.
Proof.
  intros (Hs & Hl & Hr). unfold count_stones. rewrite count_rows_total.
  rewrite (length_concat_square _ _ Hr), Hl. unfold count_total. simpl. lia.
Qed.

(** X1. On a [size] x [size] board the three counters of [count_stones]
    add up to the number of cells, and none is negative. *)
Theorem count_stones_total b :
  wf b ->
  black_count (count_stones b) + white_count (count_stones b)
    + empty_count (count_stones b) = size b * size b /\
  0 <= black_count (count_stones b) /\ 0 <= white_count (count_stones b) /\
  0 <= empty_count (count_stones b).
Proof.
  intros Hwf. pose proof (count_stones_sum b Hwf) as Hsum. unfold count_total in Hsum.
  split; [exact Hsum|]. rewrite count_stones_black, count_stones_white.
  split; [lia|]. split; [lia|].
  assert (He : forall row n, empty_count n <= empty_count (fold_left count_cell row n)).
  { induction row as [|c row IH]; intros n; simpl; [lia|].
    etransitivity; [|apply IH]. unfold count_cell. repeat case_match; simpl; lia. }
  assert (Hg : forall g n, empty_count n <=
                 empty_count (fold_left (fun n row => fold_left count_cell row n) g n)).
  { induction g as [|row g IH]; intros n; simpl; [lia|].
    etransitivity; [apply (He row)|apply IH]. }
  apply (Hg (board b) (mkCount 0 0 0)).
Qed.

Lemma count_stones_total_witness :
  wf (init 15) /\
  black_count (count_stones (init 15)) + white_count (count_stones (init 15))
    + empty_count (count_stones (init 15)) = size (init 15) * size (init 15).
Proof.
  assert (Hwf : wf (init 15)) by (apply wf_init; lia).
  split; [exact Hwf|]. exact (proj1 (count_stones_total (init 15) Hwf)).
Defined.

(** X2. A stone that [place_stone] accepts moves exactly one cell from the
    empty counter of [count_stones] to the counter of its colour. *)
Theorem place_stone_count_stones b x y color b' :
  wf b -> place_stone b x y color = (Ok true, b') ->
  black_count (count_stones b') =
    black_count (count_stones b) + (if String.eqb color "black" then 1 else 0) /\
  white_count (count_stones b') =
    white_count (count_stones b) + (if String.eqb color "white" then 1 else 0) /\
  empty_count (count_stones b') = empty_count (count_stones b) - 1.
Proof.
  intros Hwf Hplace.
  destruct (place_stone_cases b x y color Hwf) as [[e He]|(Hv & Hst & Hc & Hok)];
    [rewrite He in Hplace; discriminate|].
  rewrite Hok in Hplace. injection Hplace as <-.
  pose proof (wf_grid_with b x y color Hwf) as Hwf'.
  pose proof (count_stones_sum _ Hwf) as Hsum.
  pose proof (count_stones_sum _ Hwf') as Hsum'.
  unfold count_total in Hsum, Hsum'. simpl size in Hsum'.
  assert (Hb : black_count (count_stones (mkBoard (size b) (grid_with b x y color))) =
               black_count (count_stones b) + (if String.eqb color "black" then 1 else 0)).
  { rewrite !count_stones_black. simpl board.
    rewrite (count_color_grid_with b x y "black" color) by assumption.
    destruct (String.eqb color "black"); lia. }
  assert (Hw : white_count (count_stones (mkBoard (size b) (grid_with b x y color))) =
               white_count (count_stones b) + (if String.eqb color "white" then 1 else 0)).
  { rewrite !count_stones_white. simpl board.
    rewrite (count_color_grid_with b x y "white" color) by assumption.
    destruct (String.eqb color "white"); lia. }
  split; [exact Hb|]. split; [exact Hw|].
  destruct Hc as [-> | ->]; simpl in Hb, Hw; lia.
Qed.

Lemma place_stone_count_stones_witness :
  empty_count (count_stones (snd (place_stone (init 15) 7 7 "black"))) =
  empty_count (count_stones (init 15)) - 1.
Proof.
  assert (Hwf : wf (init 15)) by (apply wf_init; lia).
  assert (Hp : place_stone (init 15) 7 7 "black" =
               (Ok true, snd (place_stone (init 15) 7 7 "black")))
    by (vm_compute; reflexivity).
  exact (proj2 (proj2 (place_stone_count_stones (init 15) 7 7 "black" _ Hwf Hp))).
Defined.

End BoardCounts.

Section BoardEdges.
Import Board.

Lemma none_in_lookup (row : list cell) :
  none_in row = true <-> exists j, row !! j = Some None.
Proof.
  unfold none_in. induction row as [|c row IH]; simpl.
  - split; [discriminate|]. intros [j Hj]. rewrite lookup_nil in Hj. discriminate.
  - rewrite orb_true_iff, IH. split.
    + intros [Hc|[j Hj]].
      * exists 0%nat. destruct c; [discriminate|reflexivity].
      * exists (S j). exact Hj.
    + intros [[|j] Hj]; simpl in Hj.
      * left. injection Hj as ->. reflexivity.
      * right. eauto.
Qed.

Lemma is_board_full_lookup b :
  is_board_full b = false <-> exists i j row, board b !! i = Some row /\ row !! j = Some None.
Proof.
  unfold is_board_full. induction (board b) as [|row g IH]; simpl.
  - split; [discriminate|]. intros (i & j & row & Hi & _). rewrite lookup_nil in Hi. discriminate.
  - rewrite andb_false_iff, IH, negb_false_iff, none_in_lookup. split.
    + intros [[j Hj]|(i & j & row' & Hi & Hj)].
      * exists 0%nat, j, row. auto.
      * exists (S i), j, row'. auto.
    + intros ([|i] & j & row' & Hi & Hj); simpl in Hi.
      * left. injection Hi as ->. eauto.
      * right. eauto.
Qed.

(** X3. A board is full exactly when [place_stone] refuses every call,
    whatever the position and the colour, and leaves the board as it is. *)
Theorem full_board_refuses b :
  wf b ->
  (is_board_full b = true <->
   forall x y color, exists e, place_stone b x y color = (Raise e, b)).
Proof.
  intros Hwf. split.
  - intros Hfull x y color.
    destruct (place_stone_cases b x y color Hwf) as [He|(Hv & Hst & _)]; [exact He|].
    exfalso. apply valid_bounds in Hv as [Hx Hy].
    destruct (wf_row b x Hwf Hx) as (row & Hrow & Hlen).
    assert (Hnot : is_board_full b = false).
    { apply is_board_full_lookup. exists (Z.to_nat x), (Z.to_nat y), row.
      split; [exact Hrow|]. unfold stone in Hst. rewrite Hrow in Hst.
      destruct (lookup_lt_is_Some_2 row (Z.to_nat y)) as [c Hc]; [lia|].
      rewrite Hc in Hst. subst c. exact Hc. }
    congruence.
  - intros Hall. destruct (is_board_full b) eqn:Hfull; [reflexivity|]. exfalso.
    apply is_board_full_lookup in Hfull as (i & j & row & Hi & Hj).
    pose proof (lookup_lt_Some _ _ _ Hi) as Hil.
    pose proof (lookup_lt_Some _ _ _ Hj) as Hjl.
    assert (Hlen : length row = Z.to_nat (size b)).
    { destruct Hwf as (_ & _ & Hr). rewrite Forall_forall in Hr. apply Hr.
      eapply list_elem_of_lookup_2; eauto. }
    assert (Hl : length (board b) = Z.to_nat (size b)) by apply Hwf.
    assert (Hv : is_valid_position b (Z.of_nat i) (Z.of_nat j) = true)
      by (apply valid_bounds; lia).
    assert (Hst : stone b (Z.of_nat i) (Z.of_nat j) = None).
    { unfold stone. rewrite !Nat2Z.id, Hi, Hj. reflexivity. }
    destruct (Hall (Z.of_nat i) (Z.of_nat j) "black") as [e He].
    unfold place_stone in He. rewrite Hv in He. simpl in He.
    rewrite is_empty_valid, Hst in He by assumption. simpl in He.
    rewrite set_valid in He by assumption. discriminate.
Qed.

(** X4. After an accepted [place_stone], [get_stone_at] returns the colour
    at that position and what it returned before everywhere else, off the
    board included. *)
Theorem get_stone_at_place_stone b x y color b' :
  wf b -> place_stone b x y color = (Ok true, b') ->
  forall x' y',
    get_stone_at b' x' y' =
      (if bool_decide (x' = x /\ y' = y) then Ok (Some color) else get_stone_at b x' y') /\
    (is_valid_position b' x' y' = false -> get_stone_at b' x' y' = Ok None).
Proof.
  intros Hwf Hplace x' y'.
  split; [|intros Hoff; unfold get_stone_at; rewrite Hoff; reflexivity].
  destruct (place_stone_cases b x y color Hwf) as [[e He]|(Hv & Hst & Hc & Hok)];
    [rewrite He in Hplace; discriminate|].
  rewrite Hok in Hplace. injection Hplace as <-.
  pose proof (wf_grid_with b x y color Hwf) as Hwf'.
  unfold get_stone_at.
  change (is_valid_position (mkBoard (size b) (grid_with b x y color)) x' y')
    with (is_valid_position b x' y').
  case_bool_decide as Heq.
  - destruct Heq as [-> ->]. rewrite Hv. simpl.
    rewrite get_valid by assumption. rewrite stone_grid_with_same by assumption.
    reflexivity.
  - destruct (is_valid_position b x' y') eqn:Hv'; simpl; [|reflexivity].
    rewrite !get_valid by assumption. f_equal.
    apply valid_bounds in Hv, Hv'. apply stone_grid_with_other; try lia.
    intros Hp. apply Heq. injection Hp as -> ->. auto.
Qed.

Lemma get_stone_at_place_stone_witness :
  get_stone_at (snd (place_stone (init 15) 7 7 "black")) 7 7 = Ok (Some "black") /\
  get_stone_at (snd (place_stone (init 15) 7 7 "black")) 15 0 = Ok None.
Proof.
  assert (Hwf : wf (init 15)) by (apply wf_init; lia).
  assert (Hp : place_stone (init 15) 7 7 "black" =
               (Ok true, snd (place_stone (init 15) 7 7 "black")))
    by (vm_compute; reflexivity).
  pose proof (get_stone_at_place_stone (init 15) 7 7 "black" _ Hwf Hp) as H.
  split; [rewrite (proj1 (H 7 7))|rewrite (proj1 (H 15 0))]; vm_compute; reflexivity.
Defined.

Lemma full_board_refuses_witness :
  is_board_full (snd (place_stone (init 1) 0 0 "black")) = true /\
  exists e, place_stone (snd (place_stone (init 1) 0 0 "black")) 0 0 "white" =
            (Raise e, snd (place_stone (init 1) 0 0 "black")).
Proof.
  assert (Hwf : wf (snd (place_stone (init 1) 0 0 "black"))).
  { unfold wf. split; [vm_compute; discriminate|]. split; [vm_compute; reflexivity|].
    vm_compute. repeat constructor. }
  assert (Hfull : is_board_full (snd (place_stone (init 1) 0 0 "black")) = true)
    by (vm_compute; reflexivity).
  split; [exact Hfull|].
  exact (proj1 (full_board_refuses _ Hwf) Hfull 0 0 "white").
Defined.

(** X6. A stone stays where it was placed: whatever calls of
    [place_stone] follow, accepted or refused, the position keeps its
    colour and every further call on it is refused as occupied. *)
Theorem placed_stone_stays b x y c moves :
  wf b -> is_valid_position b x y = true -> stone b x y = Some c ->
  stone (place_many b moves) x y = Some c /\
  forall c', place_stone (place_many b moves) x y c' =
             (Raise (Occupied x y), place_many b moves).
Proof.
  intros Hwf Hv Hst.
  assert (Hkeep : wf (place_many b moves) /\
                  is_valid_position (place_many b moves) x y = true /\
                  stone (place_many b moves) x y = Some c).
  { revert b Hwf Hv Hst. induction moves as [|[[x0 y0] c0] moves IH]; intros b Hwf Hv Hst.
    - simpl. auto.
    - unfold place_many. cbn [fold_left]. fold (place_many (snd (place_stone b x0 y0 c0)) moves).
      destruct (place_stone_cases b x0 y0 c0 Hwf) as [[e He]|(Hv0 & Hst0 & _ & Hok)].
      + rewrite He. simpl. apply IH; assumption.
      + rewrite Hok. simpl. apply IH.
        * apply wf_grid_with. assumption.
        * exact Hv.
        * apply valid_bounds in Hv, Hv0. rewrite stone_grid_with_other; try lia; [exact Hst|].
          intros Hp. injection Hp as -> ->. congruence. }
  destruct Hkeep as (Hwf' & Hv' & Hst'). split; [exact Hst'|].
  intros c'. unfold place_stone. rewrite Hv'. simpl.
  rewrite is_empty_valid, Hst' by assumption. reflexivity.
Qed.

Lemma placed_stone_stays_witness :
  stone (place_many board_S1 [ (7, 7, "white"); (0, 0, "white") ]) 7 7 = Some "black".
Proof.
  assert (Hv : is_valid_position board_S1 7 7 = true) by (vm_compute; reflexivity).
  assert (Hst : stone board_S1 7 7 = Some "black") by (vm_compute; reflexivity).
  exact (proj1 (placed_stone_stays board_S1 7 7 "black" _ wf_board_S1 Hv Hst)).
Defined.

Lemma py_norm_index_spec len i :
  (- Z.of_nat len <= i < Z.of_nat len ->
   exists n, py_norm_index len i = Some n /\ (n < len)%nat) /\
  (~ (- Z.of_nat len <= i < Z.of_nat len) -> py_norm_index len i = None).
Proof.
  unfold py_norm_index.
  destruct (Z.leb_spec 0 i); destruct (Z.ltb_spec i (Z.of_nat len)); simpl;
    destruct (Z.leb_spec (- Z.of_nat len) i); destruct (Z.ltb_spec i 0); simpl;
    split; intros Hr; try lia; try reflexivity; eexists; split; try reflexivity; lia.
Qed.

Lemma py_getitem_spec {A} (l : list A) i :
  (- Z.of_nat (length l) <= i < Z.of_nat (length l) ->
   exists a, py_getitem l i = Ok a /\ a ∈ l) /\
  (~ (- Z.of_nat (length l) <= i < Z.of_nat (length l)) -> py_getitem l i = Raise IndexError).
Proof.
  unfold py_getitem. destruct (py_norm_index_spec (length l) i) as [Hin Hout]. split.
  - intros Hr. destruct (Hin Hr) as (n & -> & Hn).
    destruct (lookup_lt_is_Some_2 l n Hn) as [a Ha]. rewrite Ha.
    exists a. split; [reflexivity|]. eapply list_elem_of_lookup_2; eauto.
  - intros Hr. rewrite (Hout Hr). reflexivity.
Qed.

Lemma get_index_spec b x y :
  wf b ->
  (- size b <= x < size b /\ - size b <= y < size b -> exists c, get b x y = Ok c) /\
  (~ (- size b <= x < size b /\ - size b <= y < size b) -> get b x y = Raise IndexError).
Proof.
  intros (Hs & Hl & Hr). unfold get.
  destruct (py_getitem_spec (board b) x) as [Hin Hout]. rewrite Hl in Hin, Hout.
  split.
  - intros [Hx Hy]. destruct Hin as (row & -> & Hrow); [lia|].
    rewrite Forall_forall in Hr. specialize (Hr row Hrow). simpl.
    destruct (py_getitem_spec row y) as [Hin' _]. rewrite Hr in Hin'.
    destruct Hin' as (c & -> & _); [lia|]. eauto.
  - intros Hno. destruct (decide (- size b <= x < size b)) as [Hx|Hx].
    + destruct Hin as (row & -> & Hrow); [lia|].
      rewrite Forall_forall in Hr. specialize (Hr row Hrow). simpl.
      destruct (py_getitem_spec row y) as [_ Hout']. rewrite Hr in Hout'.
      apply Hout'. lia.
    + rewrite Hout by lia. reflexivity.
Qed.

Lemma check_axes_returns fuel b color x y dirs :
  wf b -> size b < Z.of_nat fuel -> Forall axis_pair dirs ->
  exists w, check_axes fuel b color x y dirs = Some (Ok w).
Proof.
  intros Hwf Hfuel. induction 1 as [|p dirs Hp _ IH]; simpl; [eauto|].
  destruct p as [[dx dy] q]. destruct Hp as [Hdir Hq]. simpl in Hdir, Hq. subst q.
  destruct (count_axis_spec fuel b color x y dx dy Hwf Hdir Hfuel)
    as (n1 & n2 & _ & _ & -> & _).
  destruct (5 <=? 1 + n1 + n2); [eauto|exact IH].
Qed.

(** X5. [check_winner] does not check its position itself.  An index
    below [-size] or from [size] on raises [IndexError]; every other
    position is answered without an error, the negative ones because
    Python counts them from the far edge. *)
Theorem check_winner_off_board b x y :
  wf b ->
  (- size b <= x < size b /\ - size b <= y < size b ->
   exists w, check_winner b x y = Some (Ok w)) /\
  (~ (- size b <= x < size b /\ - size b <= y < size b) ->
   check_winner b x y = Some (Raise IndexError)).
Proof.
  intros Hwf. destruct (get_index_spec b x y Hwf) as [Hin Hout].
  unfold check_winner, check_winner_fuel. split.
  - intros Hr. destruct (Hin Hr) as [c ->]. destruct c as [color|]; [|eauto].
    apply check_axes_returns; [assumption| |exact directions_axis_pairs].
    destruct Hwf; lia.
  - intros Hr. rewrite (Hout Hr). reflexivity.
Qed.

Lemma check_winner_off_board_witness :
  (exists w, check_winner board_S1 (-8) 7 = Some (Ok w)) /\
  check_winner board_S1 15 0 = Some (Raise IndexError).
Proof.
  assert (Hs : size board_S1 = 15) by (vm_compute; reflexivity).
  destruct (check_winner_off_board board_S1 (-8) 7 wf_board_S1) as [Hin _].
  destruct (check_winner_off_board board_S1 15 0 wf_board_S1) as [_ Hout].
  rewrite Hs in Hin, Hout.
  split; [apply Hin|apply Hout]; lia.
Defined.

(** Read through a negative index, the colour comes from the far edge but
    the walks start off the board: black's five are not seen. *)
Example check_winner_wraps :
  check_winner board_S1 (-8) 7 = Some (Ok None).
Proof. vm_compute. reflexivity. Qed.

End BoardEdges.

(** ** Further properties of a room *)

(** Reduce the field updates and projections of a room given by its fields. *)
Ltac room_fields :=
  cbv beta iota delta
    [Room.set_players Room.set_spectators Room.set_status Room.set_board
     Room.set_current_turn Room.set_turn_start_time Room.set_timer_alive
     Room.set_timer_callback Room.set_disconnected_players Room.set_is_paused
     Room.set_reconnect_attempts Room.set_rematch_requests Room.room_id
     Room.players Room.spectators Room.status Room.board Room.current_turn
     Room.turn_start_time Room.timer_alive Room.timer_callback
     Room.disconnected_players Room.is_paused Room.reconnect_attempts
     Room.rematch_requests].

Ltac room_fields_in H :=
  cbv beta iota delta
    [Room.set_players Room.set_spectators Room.set_status Room.set_board
     Room.set_current_turn Room.set_turn_start_time Room.set_timer_alive
     Room.set_timer_callback Room.set_disconnected_players Room.set_is_paused
     Room.set_reconnect_attempts Room.set_rematch_requests Room.room_id
     Room.players Room.spectators Room.status Room.board Room.current_turn
     Room.turn_start_time Room.timer_alive Room.timer_callback
     Room.disconnected_players Room.is_paused Room.reconnect_attempts
     Room.rematch_requests] in H.

Section RoomInvariants.
Import Room Server Invariants.
Implicit Types (r : GameRoom) (ev : event).

(** X7. Whatever the requests, a room never has more than two seats, and
    a game is being played only while both are taken. *)
Theorem playing_has_two_seats r :
  reachable r ->
  (length (players r) <= 2)%nat /\
  (status r = Playing -> length (players r) = 2%nat).
Proof.
  intros Hr. pose proof (reachable_game_inv r Hr) as Hinv.
  pose proof (inv_seats r Hinv) as Hle. split; [exact Hle|].
  intros Hp. destruct (decide (length (players r) <= 1)%nat) as [H1|H1]; [|lia].
  destruct (inv_few_seats r Hinv H1) as [Hno _]. contradiction.
Qed.

Lemma playing_has_two_seats_witness : length (players started) = 2%nat.
Proof.
  assert (Hs : status started = Playing) by (vm_compute; reflexivity).
  exact (proj2 (playing_has_two_seats started reachable_started) Hs).
Defined.

(** X8. In every state of a room the board is a 15 x 15 grid and the turn
    is black's or white's; while the room is waiting the board is empty
    and black is to move. *)
Theorem waiting_room_is_fresh r :
  reachable r ->
  Board.wf (board r) /\ Board.size (board r) = 15 /\
  (current_turn r = "black" \/ current_turn r = "white") /\
  (status r = Waiting -> board r = Board.init 15 /\ current_turn r = "black").
Proof.
  intros Hr. pose proof (reachable_game_inv r Hr) as Hinv.
  split; [apply (inv_board_wf r Hinv)|]. split; [apply (inv_board_size r Hinv)|].
  split; [apply (inv_turn r Hinv)|]. apply (inv_waiting r Hinv).
Qed.

Lemma reachable_rejoined : reachable rejoined.
Proof. apply reachable_run. apply reachable_init. Qed.

Lemma waiting_room_is_fresh_witness :
  status rejoined = Waiting /\ board rejoined = Board.init 15 /\ current_turn rejoined = "black".
Proof.
  assert (Hs : status rejoined = Waiting) by (vm_compute; reflexivity).
  split; [exact Hs|].
  exact (proj2 (proj2 (proj2 (waiting_room_is_fresh rejoined reachable_rejoined))) Hs).
Defined.

(** X9. The turn timer never runs while the game is paused; the game is
    paused only while some seat has lost its connection; and every
    disconnection record belongs to a seat, of that name, without a
    connection. *)
Theorem paused_means_lost_seat r :
  reachable r ->
  (timer_alive r = true -> is_paused r = false) /\
  (is_paused r = true -> exists p, p ∈ players r /\ socket p = None) /\
  (forall n d, disconnected_players r !! n = Some d ->
               exists p, p ∈ players r /\ name p = n /\ socket p = None).
Proof.
  intros Hr. pose proof (reachable_pause_inv r Hr) as Hinv.
  split; [exact (reachable_timer_inv r Hr)|].
  split; [exact (inv_paused_ghost r Hinv)|].
  intros n d Hd. apply (inv_record_seat r Hinv). rewrite Hd. eauto.
Qed.

Lemma paused_means_lost_seat_witness :
  is_paused lost_once = true /\ exists p, p ∈ players lost_once /\ socket p = None.
Proof.
  assert (Hp : is_paused lost_once = true) by (vm_compute; reflexivity).
  assert (Hr : reachable lost_once).
  { unfold lost_once. apply reachable_step. exact reachable_started. }
  split; [exact Hp|].
  exact (proj1 (proj2 (paused_means_lost_seat lost_once Hr)) Hp).
Defined.

End RoomInvariants.

Section ReconnectBudget.
Import Room Server Invariants.
Implicit Types (r : GameRoom) (ev : event).

Lemma attempts_start_timer now r :
  reconnect_attempts (start_timer now r) = reconnect_attempts r.
Proof. unfold start_timer. destruct (is_paused r); reflexivity. Qed.

Lemma attempts_remove_player sock is_disconnect now r :
  reconnect_attempts (snd (remove_player sock is_disconnect now r)) = reconnect_attempts r.
Proof. unfold remove_player. repeat case_match; reflexivity. Qed.

Lemma attempts_forfeit n c r :
  reconnect_attempts (snd (forfeit_player n c r)) = reconnect_attempts r.
Proof. reflexivity. Qed.

Lemma attempts_sweep now r :
  reconnect_attempts (forfeit_sweep now r) = reconnect_attempts r.
Proof.
  unfold forfeit_sweep. generalize (check_reconnect_timeout now r).
  intros l. revert r. induction l as [|nc l IH]; intros r; [reflexivity|].
  cbn [fold_left]. rewrite IH. apply attempts_forfeit.
Qed.

Lemma attempts_rematch_if_agreed now r :
  reconnect_attempts (rematch_if_agreed now r) = reconnect_attempts r.
Proof.
  unfold rematch_if_agreed. destruct (is_rematch_agreed r); [|reflexivity].
  rewrite attempts_start_timer. reflexivity.
Qed.

Lemma attempts_request_rematch n r :
  reconnect_attempts (snd (request_rematch n r)) = reconnect_attempts r.
Proof. unfold request_rematch. case_match; reflexivity. Qed.

(** A reconnection either leaves the counters alone or adds one to the
    counter of a name that was below the maximum. *)
Lemma attempts_reconnect_player n sock now r :
  reconnect_attempts (snd (reconnect_player n sock now r)) = reconnect_attempts r \/
  (attempts_of n r < max_reconnect_attempts /\
   reconnect_attempts (snd (reconnect_player n sock now r)) =
   <[n := attempts_of n r + 1]> (reconnect_attempts r)).
Proof.
  unfold reconnect_player.
  destruct (disconnected_players r !! n) as [d|] eqn:Hd; [|left; reflexivity].
  destruct (can_reconnect n now r) eqn:Hcan; simpl; [|left; reflexivity].
  right. split.
  - unfold can_reconnect in Hcan. rewrite Hd in Hcan.
    destruct (Z.leb_spec max_reconnect_attempts (attempts_of n r)); [discriminate|lia].
  - repeat case_match; rewrite ?attempts_start_timer; reflexivity.
Qed.

Lemma attempts_bounded_same r r' :
  reconnect_attempts r' = reconnect_attempts r -> attempts_bounded r -> attempts_bounded r'.
Proof. intros He Hb n. unfold attempts_of. rewrite He. apply Hb. Qed.

Lemma attempts_bounded_reconnect n sock now r :
  attempts_bounded r -> attempts_bounded (snd (reconnect_player n sock now r)).
Proof.
  intros Hb. destruct (attempts_reconnect_player n sock now r) as [He|[Hlt He]].
  - eapply attempts_bounded_same; eauto.
  - intros m. unfold attempts_of. rewrite He.
    destruct (decide (m = n)) as [->|Hne].
    + rewrite lookup_insert_eq. simpl. specialize (Hb n). lia.
    + rewrite lookup_insert_ne by congruence. apply Hb.
Qed.

Lemma attempts_bounded_handle_reconnect n sock now r :
  attempts_bounded r -> attempts_bounded (handle_reconnect n sock now r).
Proof.
  intros Hb. unfold handle_reconnect. repeat case_match; try assumption.
  apply attempts_bounded_reconnect. assumption.
Qed.

Lemma attempts_bounded_step r ev :
  attempts_bounded r -> attempts_bounded (step r ev).
Proof.
  intros Hb. destruct ev; cbn [step].
  - unfold handle_join_room. repeat case_match; try assumption.
    + apply attempts_bounded_handle_reconnect. assumption.
    + eapply attempts_bounded_same; [|exact Hb]. unfold add_player.
      repeat case_match; reflexivity.
  - exact Hb.
  - eapply attempts_bounded_same; [|exact Hb]. unfold handle_ready.
    repeat case_match; rewrite ?attempts_start_timer; try reflexivity;
      unfold set_player_ready; repeat case_match; reflexivity.
  - eapply attempts_bounded_same; [|exact Hb]. unfold handle_place_stone.
    repeat case_match; rewrite ?attempts_start_timer; try reflexivity;
      match goal with
      | H : Room.place_stone _ _ _ _ = (_, ?r1) |- _ =>
          unfold Room.place_stone in H; destruct (Board.place_stone _ _ _ _);
          injection H as _ <-; reflexivity
      end.
  - eapply attempts_bounded_same; [|exact Hb]. apply attempts_remove_player.
  - eapply attempts_bounded_same; [|exact Hb]. apply attempts_remove_player.
  - eapply attempts_bounded_same; [|exact Hb]. unfold remove_from_room_spectator, remove_spectator.
    repeat case_match; reflexivity.
  - eapply attempts_bounded_same; [|exact Hb]. unfold time_up, handle_timer_timeout.
    repeat case_match; rewrite ?attempts_start_timer; reflexivity.
  - apply attempts_bounded_handle_reconnect. assumption.
  - eapply attempts_bounded_same; [|exact Hb]. apply attempts_sweep.
  - eapply attempts_bounded_same; [|exact Hb]. unfold handle_surrender.
    repeat case_match; reflexivity.
  - eapply attempts_bounded_same; [|exact Hb]. unfold handle_rematch.
    repeat case_match; try reflexivity;
      match goal with
      | H : request_rematch ?n ?r = (_, ?r1) |- _ =>
          pose proof (attempts_request_rematch n r) as Hq; rewrite H in Hq; simpl in Hq
      end; rewrite ?attempts_rematch_if_agreed; assumption.
  - eapply attempts_bounded_same; [|exact Hb]. unfold handle_rematch_response.
    repeat case_match; try reflexivity.
    rewrite attempts_rematch_if_agreed. apply attempts_request_rematch.
Qed.

(** X10. Nobody reconnects to a room more than twice: the counter that
    [reconnect_player] keeps for a name never exceeds 2, and at 2 every
    further reconnection under that name is refused. *)
Theorem reconnect_budget r :
  reachable r ->
  forall n, 0 <= attempts_of n r <= max_reconnect_attempts /\
            (attempts_of n r = max_reconnect_attempts ->
             forall sock now, reconnect_player n sock now r = (false, r)).
Proof.
  intros Hr n.
  assert (Hb : attempts_bounded r).
  { induction Hr as [rid|r ev _ IH].
    - intros m. unfold attempts_of. simpl. rewrite lookup_empty. simpl.
      unfold max_reconnect_attempts. lia.
    - apply attempts_bounded_step. exact IH. }
  split; [apply Hb|]. intros Hmax sock now. unfold reconnect_player.
  destruct (disconnected_players r !! n) as [d|] eqn:Hd; [|reflexivity].
  unfold can_reconnect. rewrite Hd, Hmax.
  unfold max_reconnect_attempts. reflexivity.
Qed.

Lemma reachable_reconnected_twice : reachable reconnected_twice.
Proof. apply reachable_run. exact reachable_started. Qed.

Lemma reconnect_budget_witness :
  attempts_of "A" reconnected_twice = max_reconnect_attempts /\
  reconnect_player "A" 9 60 reconnected_twice = (false, reconnected_twice).
Proof.
  assert (Ha : attempts_of "A" reconnected_twice = max_reconnect_attempts)
    by (vm_compute; reflexivity).
  split; [exact Ha|].
  exact (proj2 (reconnect_budget reconnected_twice reachable_reconnected_twice "A") Ha 9 60).
Defined.

End ReconnectBudget.

Section BoardSteps.
Import Room Server Invariants.
Implicit Types (r : GameRoom) (ev : event).

Lemma board_start_timer now r : board (start_timer now r) = board r.
Proof. unfold start_timer. destruct (is_paused r); reflexivity. Qed.

Lemma board_reconnect_player n sock now r :
  board (snd (reconnect_player n sock now r)) = board r.
Proof. unfold reconnect_player. repeat case_match; rewrite ?board_start_timer; reflexivity. Qed.

Lemma board_handle_reconnect n sock now r : board (handle_reconnect n sock now r) = board r.
Proof. unfold handle_reconnect. repeat case_match; rewrite ?board_reconnect_player; reflexivity. Qed.

Lemma board_remove_player sock is_disconnect now r :
  Board.size (board r) = 15 ->
  board (snd (remove_player sock is_disconnect now r)) = board r \/
  board (snd (remove_player sock is_disconnect now r)) = Board.init 15.
Proof.
  intros Hs. unfold remove_player. repeat case_match; simpl; auto.
  right. apply reset_is_init. exact Hs.
Qed.

Lemma board_forfeit_sweep now r : board (forfeit_sweep now r) = board r.
Proof.
  unfold forfeit_sweep. generalize (check_reconnect_timeout now r).
  intros l. revert r. induction l as [|nc l IH]; intros r; [reflexivity|].
  cbn [fold_left]. rewrite IH. reflexivity.
Qed.

Lemma board_rematch_if_agreed now r :
  Board.size (board r) = 15 ->
  board (rematch_if_agreed now r) = board r \/ board (rematch_if_agreed now r) = Board.init 15.
Proof.
  intros Hs. unfold rematch_if_agreed. destruct (is_rematch_agreed r); [|auto].
  right. rewrite board_start_timer. simpl. apply reset_is_init. exact Hs.
Qed.

Lemma board_handle_place_stone sock x y now r :
  board (handle_place_stone sock x y now r) = board r \/
  exists x' y' p,
    x = Some x' /\ y = Some y' /\
    get_player_by_socket sock r = Some p /\
    status r = Playing /\ color p = current_turn r /\
    Board.place_stone (board r) x' y' (current_turn r) =
      (Ok true, board (handle_place_stone sock x y now r)).
Proof.
  unfold handle_place_stone.
  destruct (get_player_by_socket sock r) as [p|] eqn:Hp; [|auto].
  destruct (bool_decide (status r = Playing)) eqn:Hst; simpl; [|auto].
  apply bool_decide_eq_true in Hst.
  destruct (String.eqb (color p) (current_turn r)) eqn:Hc; simpl; [|auto].
  apply String.eqb_eq in Hc.
  destruct x as [x'|]; [|auto]. destruct y as [y'|]; [|auto].
  unfold Room.place_stone. rewrite Hc.
  destruct (Board.place_stone (board r) x' y' (current_turn r)) as [res b1] eqn:Hpl.
  destruct res as [ok|e]; [|auto].
  assert (Hok : ok = true).
  { unfold Board.place_stone in Hpl. repeat case_match; congruence. }
  subst ok. right. exists x', y', p. repeat split; try assumption.
  unfold Room.check_winner. simpl.
  repeat case_match; rewrite ?board_start_timer; simpl; exact Hpl.
Qed.

Lemma board_change_step r ev : game_inv r -> board_change r ev.
Proof.
  intros Hinv. pose proof (inv_board_size r Hinv) as Hs.
  unfold board_change. destruct ev; cbn [step].
  - left. unfold handle_join_room. repeat case_match; rewrite ?board_handle_reconnect;
      try reflexivity. unfold add_player. repeat case_match; reflexivity.
  - left. reflexivity.
  - left. unfold handle_ready. repeat case_match; rewrite ?board_start_timer; try reflexivity;
      unfold set_player_ready; repeat case_match; reflexivity.
  - destruct (board_handle_place_stone sock x y now r)
      as [H|(x' & y' & p & -> & -> & Hp & Hst & Hc & Hpl)]; [auto|].
    right. right. exists sock, x', y', now, p. auto.
  - destruct (board_remove_player sock false now r Hs); auto.
  - destruct (board_remove_player sock true now r Hs); auto.
  - left. unfold remove_from_room_spectator, remove_spectator. repeat case_match; reflexivity.
  - left. unfold time_up, handle_timer_timeout.
    repeat case_match; rewrite ?board_start_timer; reflexivity.
  - left. apply board_handle_reconnect.
  - left. apply board_forfeit_sweep.
  - left. unfold handle_surrender. repeat case_match; reflexivity.
  - unfold handle_rematch. destruct (negb _); [auto|].
    destruct (get_player_by_socket sock r) as [q|]; [|auto].
    pose proof (request_rematch_board (name q) r) as Hb.
    destruct (request_rematch (name q) r) as [[|] r1]; simpl in Hb; [|auto].
    rewrite <- Hb in Hs |- *. destruct (board_rematch_if_agreed now r1 Hs); auto.
  - unfold handle_rematch_response.
    destruct (get_player_by_socket sock r) as [q|]; [|auto].
    destruct accepted; [|auto].
    pose proof (request_rematch_board (name q) r) as Hb.
    rewrite <- Hb in Hs |- *.
    destruct (board_rematch_if_agreed now _ Hs); auto.
Qed.

(** X11. One request changes the board in one of three ways only: not at
    all; back to the empty board (a leave or a rematch); or by one stone
    that [place_stone] accepts, in the colour to move, sent by the seat of
    that colour while the game is being played.  No stone is ever moved,
    removed or recoloured during a game. *)
Theorem board_changes_by_moves_only r ev :
  reachable r ->
  board (step r ev) = board r \/
  board (step r ev) = Board.init 15 \/
  exists sock x y now p,
    ev = PlaceStone sock (Some x) (Some y) now /\
    get_player_by_socket sock r = Some p /\
    status r = Playing /\ color p = current_turn r /\
    Board.place_stone (board r) x y (current_turn r) = (Ok true, board (step r ev)).
Proof. intros Hr. apply board_change_step. apply reachable_game_inv. exact Hr. Qed.

Lemma board_changes_by_moves_only_witness :
  board first_move = board started \/
  board first_move = Board.init 15 \/
  exists sock x y now p,
    PlaceStone 1 (Some 7) (Some 7) 5 = PlaceStone sock (Some x) (Some y) now /\
    get_player_by_socket sock started = Some p /\
    status started = Playing /\ color p = current_turn started /\
    Board.place_stone (board started) x y (current_turn started) = (Ok true, board first_move).
Proof.
  exact (board_changes_by_moves_only started (PlaceStone 1 (Some 7) (Some 7) 5)
           reachable_started).
Defined.

(** X12. When the player to move puts a stone on a free position, the
    stone is on the board; if it completes a run of five or more the game
    is Finished with the timer stopped and the turn left as it is;
    otherwise the game goes on and the turn passes to the other colour. *)
Theorem winning_move_ends_game r sock x y now p :
  reachable r ->
  get_player_by_socket sock r = Some p -> status r = Playing ->
  color p = current_turn r ->
  Board.is_valid_position (board r) x y = true -> Board.stone (board r) x y = None ->
  let r' := handle_place_stone sock (Some x) (Some y) now r in
  Board.stone (board r') x y = Some (color p) /\
  (Board.winning_run (board r') (color p) x y ->
   status r' = Finished /\ timer_alive r' = false /\ turn_start_time r' = None /\
   current_turn r' = current_turn r) /\
  (~ Board.winning_run (board r') (color p) x y ->
   status r' = Playing /\ current_turn r' = other_color (current_turn r)).
Proof.
  intros Hr Hp Hst Hc Hv Hempty. cbv zeta.
  pose proof (reachable_game_inv r Hr) as Hinv.
  pose proof (inv_board_wf r Hinv) as Hwf.
  pose proof (inv_turn r Hinv) as Hturn.
  unfold handle_place_stone. rewrite Hp.
  rewrite (bool_decide_eq_true_2 _ Hst). simpl.
  rewrite Hc, String.eqb_refl. simpl.
  unfold Room.place_stone.
  destruct (place_stone_cases (board r) x y (current_turn r) Hwf)
    as [[e He]|(_ & _ & _ & Hok)].
  { exfalso. unfold Board.place_stone in He. rewrite Hv in He. simpl in He.
    rewrite is_empty_valid, Hempty in He by assumption.
    assert (Hcol : Board.color_in_black_white (current_turn r) = true)
      by (destruct Hturn as [-> | ->]; reflexivity).
    rewrite Hcol in He. simpl in He. rewrite set_valid in He by assumption.
    discriminate. }
  rewrite Hok.
  set (b1 := Board.mkBoard (Board.size (board r))
               (Board.grid_with (board r) x y (current_turn r))).
  assert (Hwf1 : Board.wf b1) by (apply wf_grid_with; assumption).
  assert (Hst1 : Board.stone b1 x y = Some (current_turn r))
    by (apply stone_grid_with_same; assumption).
  assert (Hfuel : Board.size b1 < Z.of_nat (S (Z.to_nat (Board.size b1))))
    by (destruct Hwf1; lia).
  assert (Htruthy : truthy (Some (current_turn r)) = true)
    by (destruct Hturn as [-> | ->]; reflexivity).
  unfold Room.check_winner. cbn [board set_board]. unfold Board.check_winner.
  destruct (check_winner_fuel_spec _ b1 x y (current_turn r) Hwf1 Hfuel Hv Hst1)
    as [[-> Hrun]|[-> Hno]].
  - rewrite Htruthy. simpl. split; [exact Hst1|]. split; [auto|].
    intros Hcontra. contradiction.
  - simpl. rewrite board_start_timer. simpl. split; [exact Hst1|]. split.
    + intros Hcontra. contradiction.
    + intros _. unfold start_timer. destruct (is_paused _); simpl; auto.
Qed.

Lemma reachable_four_in_row : reachable four_in_row.
Proof. apply reachable_run. exact reachable_started. Qed.

Lemma winning_move_ends_game_witness :
  status (handle_place_stone 1 (Some 7) (Some 7) 9 four_in_row) = Finished.
Proof.
  assert (Hp : get_player_by_socket 1 four_in_row = Some (mkPlayer (Some 1) "A" "black" true))
    by (vm_compute; reflexivity).
  assert (Hst : status four_in_row = Playing) by (vm_compute; reflexivity).
  assert (Hc : color (mkPlayer (Some 1) "A" "black" true) = current_turn four_in_row)
    by (vm_compute; reflexivity).
  assert (Hv : Board.is_valid_position (board four_in_row) 7 7 = true)
    by (vm_compute; reflexivity).
  assert (He : Board.stone (board four_in_row) 7 7 = None) by (vm_compute; reflexivity).
  destruct (winning_move_ends_game four_in_row 1 7 7 9 _ reachable_four_in_row Hp Hst Hc Hv He)
    as (_ & Hwin & _).
  apply Hwin. exists 0, 1, 5. split; [vm_compute; left; reflexivity
                                       || (repeat constructor)|].
  split; [lia|]. exists (-4), 0. split; [lia|]. split; [lia|].
  intros k Hk.
  assert (Hcases : k = -4 \/ k = -3 \/ k = -2 \/ k = -1 \/ k = 0) by lia.
  destruct Hcases as [->|[->|[->|[->| ->]]]]; split; vm_compute; reflexivity.
Defined.

End BoardSteps.

Section Sessions.
Import Room Server Invariants.
Implicit Types (r : GameRoom) (ev : event) (p : Player).

(** X13. A connection that holds no seat cannot act on the game: its
    READY, PLACE_STONE, SURRENDER, REMATCH and REMATCH_RESPONSE requests,
    and its leaving or losing the connection as a player, leave the room
    exactly as it is. *)
Theorem strangers_cannot_act r sock :
  get_player_by_socket sock r = None ->
  forall now x y accepted,
    step r (Ready sock now) = r /\
    step r (PlaceStone sock x y now) = r /\
    step r (Leave sock now) = r /\
    step r (ConnectionLost sock now) = r /\
    step r (Surrender sock) = r /\
    step r (Rematch sock now) = r /\
    step r (RematchResponse sock accepted now) = r.
Proof.
  intros Hp now x y accepted. cbn [step].
  unfold handle_ready, handle_place_stone, remove_from_room_player, remove_player,
    handle_surrender, handle_rematch, handle_rematch_response.
  unfold get_player_by_socket in Hp. unfold get_player_by_socket. rewrite Hp.
  repeat split; repeat case_match; reflexivity.
Qed.

Lemma strangers_cannot_act_witness :
  step started (PlaceStone 9 (Some 7) (Some 7) 5) = started /\
  step started (Surrender 9) = started.
Proof.
  assert (Hp : get_player_by_socket 9 started = None) by (vm_compute; reflexivity).
  destruct (strangers_cannot_act started 9 Hp 5 (Some 7) (Some 7) true)
    as (_ & H2 & _ & _ & H5 & _).
  split; [exact H2|exact H5].
Defined.

(** X14. When one of two seated players leaves, the game in the room is
    discarded: one seat remains, not ready; the room is Waiting with an
    empty board, black to move, the timer stopped and the rematch
    requests cleared. *)
Theorem leave_resets_room r sock now p :
  reachable r ->
  length (players r) = 2%nat -> get_player_by_socket sock r = Some p ->
  let r' := step r (Leave sock now) in
  length (players r') = 1%nat /\
  (forall q, q ∈ players r' -> ready q = false /\
                               exists q0, q0 ∈ players r /\ q = with_ready false q0) /\
  status r' = Waiting /\ board r' = Board.init 15 /\ current_turn r' = "black" /\
  turn_start_time r' = None /\ timer_alive r' = false /\ rematch_requests r' = ∅.
Proof.
  intros Hr Hlen Hp. cbv zeta. cbn [step]. unfold remove_from_room_player, remove_player.
  unfold get_player_by_socket in Hp. rewrite Hp. cbn [andb].
  destruct (find_Some_elem _ _ _ Hp) as [Hin _].
  assert (Hl1 : length (py_remove p (players r)) = 1%nat).
  { pose proof (length_py_remove p (players r) Hin). lia. }
  cbn [players set_players]. rewrite Hl1. cbn [Nat.eqb snd].
  pose proof (reachable_game_inv r Hr) as Hinv.
  split; [cbn; rewrite length_map; exact Hl1|].
  split.
  - intros q Hq. cbn in Hq. apply elem_of_map_1 in Hq as (q0 & -> & Hq0).
    split; [reflexivity|]. exists q0. split; [|reflexivity].
    eapply elem_of_py_remove. exact Hq0.
  - cbn. repeat split. apply reset_is_init. apply (inv_board_size r Hinv).
Qed.

Lemma leave_resets_room_witness :
  status (step first_move (Leave 2 6)) = Waiting /\
  board (step first_move (Leave 2 6)) = Board.init 15.
Proof.
  assert (Hr : reachable first_move).
  { unfold first_move. apply reachable_step. exact reachable_started. }
  assert (Hl : length (players first_move) = 2%nat) by (vm_compute; reflexivity).
  assert (Hp : get_player_by_socket 2 first_move = Some (mkPlayer (Some 2) "B" "white" true))
    by (vm_compute; reflexivity).
  destruct (leave_resets_room first_move 2 6 _ Hr Hl Hp) as (_ & _ & Hs & Hb & _).
  split; [exact Hs|exact Hb].
Defined.

Lemma update_first_rejoin s s' (l : list Player) p :
  find (has_socket s) l = Some p -> NoDup (map name l) ->
  update_first (has_name (name p)) (with_socket s')
    (update_first (has_socket s) lost_socket l) =
  update_first (has_socket s) (with_socket s') l.
Proof.
  induction l as [|x l IH]; intros Hf Hnd; [discriminate|].
  cbn [find update_first] in *. apply NoDup_cons in Hnd as [Hx Hnd].
  destruct (has_socket s x) eqn:Hs.
  - injection Hf as ->. cbn [update_first]. unfold has_name at 1. simpl.
    rewrite String.eqb_refl. reflexivity.
  - cbn [update_first]. unfold has_name at 1.
    destruct (String.eqb (name x) (name p)) eqn:Hn.
    + exfalso. apply String.eqb_eq in Hn. apply Hx. rewrite Hn.
      apply elem_of_map_2. eapply (proj1 (find_Some_elem _ _ _ Hf)).
    + f_equal. apply IH; assumption.
Qed.



End Sessions.

Section ForfeitSweep.
Import Room Server Invariants.
Implicit Types (r : GameRoom) (ev : event).

Lemma omap_nil_Forall {A B} (f : A -> option B) (l : list A) :
  omap f l = [] <-> Forall (fun x => f x = None) l.
Proof.
  induction l as [|x l IH]; [split; [constructor|reflexivity]|].
  change (omap f (x :: l)) with (match f x with Some y => y :: omap f l | None => omap f l end).
  destruct (f x) eqn:Hx.
  - split; [discriminate|]. intros H. apply Forall_cons in H as [H _]. congruence.
  - rewrite IH. split; [intros H; apply Forall_cons; auto|].
    intros H. apply Forall_cons in H as [_ H]. exact H.
Qed.

Lemma elem_of_omap_cons {A B} (f : A -> option B) (l : list A) y :
  y ∈ omap f l <-> exists x, x ∈ l /\ f x = Some y.
Proof. apply list_elem_of_omap. Qed.

(** The names that a pass forfeits are those with an overdue record. *)
Lemma check_reconnect_timeout_names now r n :
  n ∈ map fst (check_reconnect_timeout now r) <->
  exists d, disconnected_players r !! n = Some d /\
            reconnect_timeout < now - disconnect_time d.
Proof.
  unfold check_reconnect_timeout. split.
  - intros Hin. apply elem_of_map_1 in Hin as ([n' c] & -> & Hin).
    apply elem_of_omap_cons in Hin as ([k d] & Hkd & Hf). simpl in Hf.
    apply elem_of_map_to_list in Hkd.
    destruct (Z.ltb_spec reconnect_timeout (now - disconnect_time d)); [|discriminate].
    injection Hf as <- _. simpl. eauto.
  - intros (d & Hd & Hlate).
    change n with (fst (n, last_color d)). apply elem_of_map_2.
    apply elem_of_omap_cons. exists (n, d). split; [apply elem_of_map_to_list; exact Hd|].
    simpl. destruct (Z.ltb_spec reconnect_timeout (now - disconnect_time d)); [reflexivity|lia].
Qed.

Lemma forfeit_fold_records (l : list (string * string)) r n :
  disconnected_players
    (fold_left (fun r nc => snd (forfeit_player (fst nc) (snd nc) r)) l r) !! n =
  if decide (n ∈ map fst l) then None else disconnected_players r !! n.
Proof.
  revert r. induction l as [|[k c] l IH]; intros r.
  - cbn [fold_left map]. destruct (decide (n ∈ [])) as [Hin|_]; [inversion Hin|reflexivity].
  - cbn [fold_left map fst snd]. rewrite IH. cbn.
    destruct (decide (n ∈ map fst l)) as [Hin|Hnin].
    + rewrite decide_True by (apply elem_of_cons; auto). reflexivity.
    + destruct (decide (n = k)) as [->|Hne].
      * rewrite decide_True by (apply elem_of_cons; auto). apply lookup_delete_eq.
      * rewrite decide_False by (rewrite elem_of_cons; tauto).
        apply lookup_delete_ne. congruence.
Qed.

Lemma forfeit_fold_ends (l : list (string * string)) r :
  l <> [] ->
  let r' := fold_left (fun r nc => snd (forfeit_player (fst nc) (snd nc) r)) l r in
  status r' = Finished /\ is_paused r' = false /\
  timer_alive r' = false /\ turn_start_time r' = None.
Proof.
  intros Hne. cbv zeta.
  assert (Hkeep : forall l r,
            (status r = Finished /\ is_paused r = false /\
             timer_alive r = false /\ turn_start_time r = None) ->
            let r' := fold_left (fun r nc => snd (forfeit_player (fst nc) (snd nc) r)) l r in
            status r' = Finished /\ is_paused r' = false /\
            timer_alive r' = false /\ turn_start_time r' = None).
  { clear. induction l as [|nc l IH]; intros r H; [exact H|].
    cbn [fold_left]. apply IH. cbn. auto. }
  destruct l as [|nc l]; [contradiction|]. cbn [fold_left]. apply Hkeep. cbn. auto.
Qed.

(** X16. One pass of the forfeit monitor over a room removes exactly the
    disconnection records older than 180 seconds and keeps the others, so
    that no overdue record is left; if there was an overdue record the
    game is Finished, not paused and its timer stopped, otherwise the room
    is untouched. *)
Theorem forfeit_sweep_clears_overdue now r :
  (forall n d, disconnected_players (forfeit_sweep now r) !! n = Some d <->
               disconnected_players r !! n = Some d /\
               now - disconnect_time d <= reconnect_timeout) /\
  check_reconnect_timeout now (forfeit_sweep now r) = [] /\
  ((exists n d, disconnected_players r !! n = Some d /\
                reconnect_timeout < now - disconnect_time d) ->
   status (forfeit_sweep now r) = Finished /\ is_paused (forfeit_sweep now r) = false /\
   timer_alive (forfeit_sweep now r) = false /\ turn_start_time (forfeit_sweep now r) = None) /\
  ((forall n d, disconnected_players r !! n = Some d ->
                now - disconnect_time d <= reconnect_timeout) ->
   forfeit_sweep now r = r).
Proof.
  assert (Hrec : forall n d, disconnected_players (forfeit_sweep now r) !! n = Some d <->
               disconnected_players r !! n = Some d /\
               now - disconnect_time d <= reconnect_timeout).
  { intros n d. unfold forfeit_sweep. rewrite forfeit_fold_records.
    destruct (decide (n ∈ map fst (check_reconnect_timeout now r))) as [Hin|Hnin].
    - apply check_reconnect_timeout_names in Hin as (d' & Hd' & Hlate).
      split; [discriminate|]. intros [Hd Hok]. rewrite Hd in Hd'. injection Hd' as <-. lia.
    - split; [|tauto]. intros Hd. split; [exact Hd|].
      destruct (Z.le_gt_cases (now - disconnect_time d) reconnect_timeout) as [|Hlate];
        [assumption|].
      exfalso. apply Hnin. apply check_reconnect_timeout_names. eauto. }
  split; [exact Hrec|]. split; [|split].
  - unfold check_reconnect_timeout at 1. apply omap_nil_Forall.
    apply Forall_forall. intros [n d] Hin. apply elem_of_map_to_list in Hin.
    apply Hrec in Hin as [_ Hok]. simpl.
    destruct (Z.ltb_spec reconnect_timeout (now - disconnect_time d)); [lia|reflexivity].
  - intros (n & d & Hd & Hlate). unfold forfeit_sweep. apply forfeit_fold_ends.
    intros Hnil.
    assert (Hin : n ∈ map fst (check_reconnect_timeout now r))
      by (apply check_reconnect_timeout_names; eauto).
    rewrite Hnil in Hin. inversion Hin.
  - intros Hall. unfold forfeit_sweep.
    assert (Hnil : check_reconnect_timeout now r = []).
    { unfold check_reconnect_timeout. apply omap_nil_Forall.
      apply Forall_forall. intros [n d] Hin. apply elem_of_map_to_list in Hin.
      specialize (Hall n d Hin). simpl.
      destruct (Z.ltb_spec reconnect_timeout (now - disconnect_time d)); [lia|reflexivity]. }
    rewrite Hnil. reflexivity.
Qed.

(** A's record of time 10 is overdue at time 191, not at time 190. *)
Example forfeit_sweep_lost_once :
  status (forfeit_sweep 191 lost_once) = Finished /\
  forfeit_sweep 190 lost_once = lost_once.
Proof. split; vm_compute; reflexivity. Qed.

End ForfeitSweep.

(** ** The room manager *)

Section ManagerFacts.
Import Room Server Manager.
Implicit Types (m : RoomManager) (d : list (string * GameRoom)) (k : string).

Lemma room_name_inj a b : room_name a = room_name b -> a = b.
Proof.
  unfold room_name. simpl. intros H. injection H as H.
  apply (inj pretty). exact H.
Qed.

Lemma dict_lookup_None k d : dict_lookup k d = None <-> k ∉ map fst d.
Proof.
  induction d as [|[k' v] d IH]; simpl.
  - split; [intros _ H; inversion H|reflexivity].
  - destruct (String.eqb_spec k' k) as [->|Hne].
    + split; [discriminate|]. intros H. exfalso. apply H. apply elem_of_cons. auto.
    + rewrite IH. rewrite elem_of_cons. split; [intros H [->|H']; auto|tauto].
Qed.

Lemma dict_store_fresh k v d : k ∉ map fst d -> dict_store k v d = (d ++ [(k, v)])%list.
Proof.
  induction d as [|[k' v'] d IH]; simpl; intros Hk; [reflexivity|].
  rewrite elem_of_cons in Hk.
  destruct (String.eqb_spec k' k) as [->|Hne]; [tauto|].
  rewrite IH by tauto. reflexivity.
Qed.

Lemma dict_lookup_app k d d' :
  dict_lookup k (d ++ d')%list =
  match dict_lookup k d with Some v => Some v | None => dict_lookup k d' end.
Proof.
  induction d as [|[k' v] d IH]; simpl; [reflexivity|].
  destruct (String.eqb k' k); [reflexivity|exact IH].
Qed.

Lemma keys_dict_delete k d k' : k' ∈ map fst (dict_delete k d) -> k' ∈ map fst d.
Proof.
  induction d as [|[k0 v] d IH]; simpl; [auto|].
  destruct (String.eqb k0 k); simpl; rewrite !elem_of_cons; intuition.
Qed.

Lemma NoDup_dict_delete k d : NoDup (map fst d) -> NoDup (map fst (dict_delete k d)).
Proof.
  induction d as [|[k0 v] d IH]; simpl; intros Hnd; [constructor|].
  apply NoDup_cons in Hnd as [Hk0 Hnd].
  destruct (String.eqb k0 k); [exact Hnd|]. simpl. apply NoDup_cons. split; [|auto].
  intros Hin. apply Hk0. eapply keys_dict_delete. exact Hin.
Qed.

Lemma keys_update_room k f d : map fst (update_room k f d) = map fst d.
Proof.
  induction d as [|[k0 v] d IH]; simpl; [reflexivity|].
  destruct (String.eqb k0 k); simpl; [reflexivity|]. rewrite IH. reflexivity.
Qed.

Lemma rooms_fold_remove (ks : list string) m :
  rooms (fold_left (fun m room_id => remove_room room_id m) ks m) =
    fold_left (fun d room_id => dict_delete room_id d) ks (rooms m) /\
  next_room_id (fold_left (fun m room_id => remove_room room_id m) ks m) = next_room_id m.
Proof.
  revert m. induction ks as [|k ks IH]; intros m; [auto|].
  cbn [fold_left]. destruct (IH (remove_room k m)) as [-> ->]. auto.
Qed.

Lemma keys_fold_delete (ks : list string) d k' :
  k' ∈ map fst (fold_left (fun d room_id => dict_delete room_id d) ks d) -> k' ∈ map fst d.
Proof.
  revert d. induction ks as [|k ks IH]; intros d; [auto|].
  cbn [fold_left]. intros H. apply IH in H. eapply keys_dict_delete. exact H.
Qed.

Lemma NoDup_fold_delete (ks : list string) d :
  NoDup (map fst d) ->
  NoDup (map fst (fold_left (fun d room_id => dict_delete room_id d) ks d)).
Proof.
  revert d. induction ks as [|k ks IH]; intros d Hnd; [exact Hnd|].
  cbn [fold_left]. apply IH. apply NoDup_dict_delete. exact Hnd.
Qed.

Lemma manager_inv_step m e : manager_inv m -> manager_inv (manager_step m e).
Proof.
  intros (Hnd & Hnext & Hkeys). destruct e; cbn [manager_step].
  - unfold create_room, manager_inv. cbn [snd rooms next_room_id].
    assert (Hfresh : room_name (next_room_id m) ∉ map fst (rooms m)).
    { intros Hin. destruct (Hkeys _ Hin) as (j & Hj & He).
      apply room_name_inj in He. lia. }
    rewrite dict_store_fresh by assumption. rewrite map_app. cbn [map fst].
    split; [|split; [lia|]].
    + apply NoDup_app. split; [exact Hnd|]. split; [|apply NoDup_singleton].
      intros k Hk Hk'. apply list_elem_of_singleton in Hk'. subst k. contradiction.
    + intros k Hk. apply elem_of_app in Hk as [Hk|Hk].
      * destruct (Hkeys k Hk) as (j & Hj & He). exists j. split; [lia|exact He].
      * apply list_elem_of_singleton in Hk. subst k. exists (next_room_id m). split; [lia|auto].
  - unfold remove_room, manager_inv. cbn [rooms next_room_id].
    split; [apply NoDup_dict_delete; exact Hnd|]. split; [exact Hnext|].
    intros k Hk. apply Hkeys. eapply keys_dict_delete. exact Hk.
  - unfold cleanup_empty_rooms.
    destruct (rooms_fold_remove
                (map fst (List.filter (fun kv => deserted (snd kv)) (rooms m))) m) as [Hr Hn].
    unfold manager_inv. rewrite Hr, Hn.
    split; [apply NoDup_fold_delete; exact Hnd|]. split; [exact Hnext|].
    intros k Hk. apply Hkeys. eapply keys_fold_delete. exact Hk.
  - unfold manager_inv. cbn [rooms next_room_id]. rewrite keys_update_room. auto.
Qed.

Lemma manager_inv_run es m : manager_inv m -> manager_inv (manager_run m es).
Proof.
  revert m. induction es as [|e es IH]; intros m Hinv; [exact Hinv|].
  unfold manager_run. cbn [fold_left]. apply IH. apply manager_inv_step. exact Hinv.
Qed.

Lemma manager_inv_init : manager_inv init.
Proof.
  unfold manager_inv, init. simpl. split; [constructor|]. split; [lia|].
  intros k Hk. inversion Hk.
Qed.

Lemma next_room_id_step m e : next_room_id m <= next_room_id (manager_step m e).
Proof.
  destruct e; cbn [manager_step]; try (simpl; lia).
  unfold cleanup_empty_rooms.
  destruct (rooms_fold_remove
              (map fst (List.filter (fun kv => deserted (snd kv)) (rooms m))) m) as [_ ->].
  lia.
Qed.

Lemma next_room_id_run es m : next_room_id m <= next_room_id (manager_run m es).
Proof.
  revert m. induction es as [|e es IH]; intros m; [simpl; lia|].
  unfold manager_run. cbn [fold_left].
  etransitivity; [apply next_room_id_step|apply IH].
Qed.

(** X17. Whatever was created, changed, removed and cleaned up before,
    [create_room] returns an id that is not in use, puts a new waiting
    room under it at the end of the dictionary, and leaves every other
    room as it is. *)
Theorem create_room_is_fresh (es : list manager_event) :
  let m := manager_run init es in
  let room_id := fst (create_room m) in
  let m' := snd (create_room m) in
  get_room room_id m = None /\
  rooms m' = (rooms m ++ [(room_id, Room.init room_id)])%list /\
  get_room room_id m' = Some (Room.init room_id) /\
  (forall k, k <> room_id -> get_room k m' = get_room k m).
Proof.
  cbv zeta. set (m := manager_run init es).
  destruct (manager_inv_run es init manager_inv_init) as (Hnd & Hnext & Hkeys).
  fold m in Hnd, Hnext, Hkeys.
  assert (Hfresh : room_name (next_room_id m) ∉ map fst (rooms m)).
  { intros Hin. destruct (Hkeys _ Hin) as (j & Hj & He).
    apply room_name_inj in He. lia. }
  unfold create_room, get_room. cbn [fst snd rooms].
  split; [apply dict_lookup_None; exact Hfresh|].
  rewrite dict_store_fresh by assumption. split; [reflexivity|].
  split.
  - rewrite dict_lookup_app. apply dict_lookup_None in Hfresh. rewrite Hfresh.
    cbn [dict_lookup]. rewrite String.eqb_refl. reflexivity.
  - intros k Hk. rewrite dict_lookup_app. destruct (dict_lookup k (rooms m)); [reflexivity|].
    cbn [dict_lookup]. destruct (String.eqb_spec (room_name (next_room_id m)) k); [congruence|reflexivity].
Qed.

(** X18. A room id is never handed out twice: whatever happens after a
    [create_room], removals included, a later [create_room] returns a
    different id. *)
Theorem room_ids_never_reused m (es : list manager_event) :
  fst (create_room (manager_run (snd (create_room m)) es)) <> fst (create_room m).
Proof.
  unfold create_room at 1 3. cbn [fst]. intros He. apply room_name_inj in He.
  pose proof (next_room_id_run es (snd (create_room m))) as Hle.
  unfold create_room in Hle at 1. cbn [snd next_room_id] in Hle. lia.
Qed.

Lemma deserted_no_socket sock (r : GameRoom) :
  deserted r = true ->
  get_player_by_socket sock r = None /\ get_spectator_by_socket sock r = None.
Proof.
  unfold deserted, active_players, active_spectators, get_player_by_socket,
    get_spectator_by_socket.
  rewrite andb_true_iff, !Nat.eqb_eq. intros [Hp Hs]. split.
  - destruct (find (has_socket sock) (players r)) as [p|] eqn:Hf; [|reflexivity].
    exfalso. apply find_some in Hf as [Hin Hsock].
    assert (Hin' : In p (List.filter
                    (fun p => match socket p with Some _ => true | None => false end)
                    (players r))).
    { apply filter_In. split; [exact Hin|]. unfold has_socket in Hsock.
      destruct (socket p); [reflexivity|discriminate]. }
    destruct (List.filter _ (players r)); [inversion Hin'|discriminate].
  - destruct (find (spec_has_socket sock) (spectators r)) as [p|] eqn:Hf; [|reflexivity].
    exfalso. apply find_some in Hf as [Hin Hsock].
    assert (Hin' : In p (List.filter
                    (fun s => match spec_socket s with Some _ => true | None => false end)
                    (spectators r))).
    { apply filter_In. split; [exact Hin|]. unfold spec_has_socket in Hsock.
      destruct (spec_socket p); [reflexivity|discriminate]. }
    destruct (List.filter _ (spectators r)); [inversion Hin'|discriminate].
Qed.

Lemma dict_delete_filter k d :
  NoDup (map fst d) ->
  dict_delete k d = List.filter (fun kv => negb (String.eqb (fst kv) k)) d.
Proof.
  induction d as [|[k0 v] d IH]; intros Hnd; [reflexivity|].
  cbn [dict_delete List.filter fst map] in *. apply NoDup_cons in Hnd as [Hk0 Hnd].
  destruct (String.eqb_spec k0 k) as [->|Hne]; cbn [negb].
  - symmetry. apply forallb_filter_id. apply forallb_forall. intros [k1 v1] Hin. simpl.
    destruct (String.eqb_spec k1 k) as [->|]; [|reflexivity].
    exfalso. apply Hk0. apply list_elem_of_In. apply (in_map fst _ _ Hin).
  - rewrite IH by assumption. reflexivity.
Qed.

Lemma NoDup_keys_filter (keep : string * GameRoom -> bool) d :
  NoDup (map fst d) -> NoDup (map fst (List.filter keep d)).
Proof.
  induction d as [|kv d IH]; intros Hnd; [constructor|].
  cbn [List.filter map] in *. apply NoDup_cons in Hnd as [Hk Hnd].
  destruct (keep kv); [|auto]. cbn [map]. apply NoDup_cons. split; [|auto].
  intros Hin. apply Hk. apply list_elem_of_In in Hin. apply list_elem_of_In.
  apply in_map_iff in Hin as (x & Hx & Hin). apply filter_In in Hin as [Hin _].
  apply in_map_iff. eauto.
Qed.

Lemma fold_delete_filter (ks : list string) d :
  NoDup (map fst d) ->
  fold_left (fun d room_id => dict_delete room_id d) ks d =
  List.filter (fun kv => negb (existsb (String.eqb (fst kv)) ks)) d.
Proof.
  revert d. induction ks as [|k ks IH]; intros d Hnd.
  - simpl. symmetry. apply forallb_filter_id. apply forallb_forall. reflexivity.
  - cbn [fold_left existsb]. rewrite IH by (apply NoDup_dict_delete; exact Hnd).
    rewrite dict_delete_filter by assumption.
    clear. induction d as [|kv d IHd]; [reflexivity|]. cbn [List.filter].
    destruct (String.eqb (fst kv) k); cbn [negb orb List.filter]; [exact IHd|].
    destruct (existsb (String.eqb (fst kv)) ks); cbn [negb]; [exact IHd|].
    rewrite IHd. reflexivity.
Qed.

Lemma deserted_key d k v :
  NoDup (map fst d) -> In (k, v) d ->
  existsb (String.eqb k) (map fst (List.filter (fun kv => deserted (snd kv)) d)) =
  deserted v.
Proof.
  intros Hnd Hin. destruct (deserted v) eqn:Hv.
  - apply existsb_exists. exists k. split; [|apply String.eqb_refl].
    change k with (fst (k, v)). apply in_map. apply filter_In. auto.
  - apply not_true_is_false. intros Hex. apply existsb_exists in Hex as (k' & Hk' & He).
    apply String.eqb_eq in He. subst k'.
    apply in_map_iff in Hk' as ([k1 v1] & Hk1 & Hin1). simpl in Hk1. subst k1.
    apply filter_In in Hin1 as [Hin1 Hd]. simpl in Hd.
    assert (v1 = v); [|congruence].
    clear -Hnd Hin Hin1. induction d as [|[k0 v0] d IH]; [inversion Hin|].
    cbn [map fst] in Hnd. apply NoDup_cons in Hnd as [Hk0 Hnd].
    destruct Hin as [Hin|Hin]; destruct Hin1 as [Hin1|Hin1].
    + congruence.
    + injection Hin as -> ->. exfalso. apply Hk0. apply list_elem_of_In.
      apply (in_map fst _ _ Hin1).
    + injection Hin1 as -> ->. exfalso. apply Hk0. apply list_elem_of_In.
      apply (in_map fst _ _ Hin).
    + auto.
Qed.

Lemma find_room_filter sock (keep : string * GameRoom -> bool) d :
  (forall kv, In kv d -> keep kv = false -> deserted (snd kv) = true) ->
  find_room sock (List.filter keep d) = find_room sock d.
Proof.
  induction d as [|[k v] d IH]; intros Hkeep; [reflexivity|].
  cbn [List.filter]. destruct (keep (k, v)) eqn:Hk.
  - cbn [find_room]. rewrite IH; [reflexivity|]. intros kv Hin. apply Hkeep. right. exact Hin.
  - cbn [find_room].
    destruct (deserted_no_socket sock v (Hkeep (k, v) (or_introl eq_refl) Hk)) as [-> ->].
    apply IH. intros kv Hin. apply Hkeep. right. exact Hin.
Qed.

(** X19. [cleanup_empty_rooms] keeps, in their order and unchanged, exactly
    the rooms in which somebody is connected; the next id is not touched,
    and no connection loses its room: [find_room_by_socket] answers as
    before. *)
Theorem cleanup_keeps_live_rooms (es : list manager_event) :
  let m := manager_run init es in
  rooms (cleanup_empty_rooms m) =
    List.filter (fun kv => negb (deserted (snd kv))) (rooms m) /\
  next_room_id (cleanup_empty_rooms m) = next_room_id m /\
  forall sock, find_room_by_socket sock (cleanup_empty_rooms m) = find_room_by_socket sock m.
Proof.
  cbv zeta. set (m := manager_run init es).
  destruct (manager_inv_run es init manager_inv_init) as (Hnd & _). fold m in Hnd.
  unfold cleanup_empty_rooms.
  destruct (rooms_fold_remove
              (map fst (List.filter (fun kv => deserted (snd kv)) (rooms m))) m) as [Hr Hn].
  assert (Hrooms : fold_left (fun d room_id => dict_delete room_id d)
                     (map fst (List.filter (fun kv => deserted (snd kv)) (rooms m))) (rooms m)
                   = List.filter (fun kv => negb (deserted (snd kv))) (rooms m)).
  { rewrite fold_delete_filter by assumption. apply filter_ext_in.
    intros [k v] Hin. cbn [fst snd]. rewrite (deserted_key _ k v Hnd Hin). reflexivity. }
  split; [rewrite Hr; exact Hrooms|]. split; [exact Hn|].
  intros sock. unfold find_room_by_socket. rewrite Hr, Hrooms.
  apply find_room_filter. intros kv _ Hk. apply negb_false_iff. exact Hk.
Qed.

(** After the first room was left and cleaned up, the second one remains
    and the next room is the third. *)
Example busy_manager_rooms :
  map fst (rooms busy_manager) = ["room_2"] /\ fst (create_room busy_manager) = "room_3".
Proof. split; vm_compute; reflexivity. Qed.

End ManagerFacts.

(** ** Further properties of the wire protocol *)

Section WireEdges.
Import Protocol.
Local Close Scope string_scope.

Lemma cont_range b : cont b = true -> 128 <= b <= 191.
Proof. unfold cont, in_range. rewrite andb_true_iff, !Z.leb_le. lia. Qed.

Lemma in_range_spec lo hi b : in_range lo hi b = true <-> lo <= b <= hi.
Proof. unfold in_range. rewrite andb_true_iff, !Z.leb_le. tauto. Qed.

Lemma utf8_decode_never (n : nat) :
  forall raw, (length raw <= n)%nat ->
              (exists b, b ∈ raw /\ never_utf8 b) -> utf8_decode raw = None.
Proof.
  induction n as [|n IH]; intros raw Hlen (b & Hin & Hbad).
  { destruct raw; [inversion Hin|simpl in Hlen; lia]. }
  destruct raw as [|b0 r]; [inversion Hin|]. simpl in Hlen.
  cbn [utf8_decode].
  destruct (in_range 0 127 b0) eqn:H0.
  { apply in_range_spec in H0. apply elem_of_cons in Hin as [->|Hin];
      [unfold never_utf8 in Hbad; lia|].
    rewrite (IH r); [reflexivity|lia|eauto]. }
  destruct (in_range 194 223 b0) eqn:H1.
  { apply in_range_spec in H1. apply elem_of_cons in Hin as [->|Hin];
      [unfold never_utf8 in Hbad; lia|].
    destruct r as [|b1 r1]; [reflexivity|].
    destruct (cont b1) eqn:Hc1; [|reflexivity]. apply cont_range in Hc1.
    apply elem_of_cons in Hin as [->|Hin]; [unfold never_utf8 in Hbad; lia|].
    simpl in Hlen. rewrite (IH r1); [reflexivity|lia|eauto]. }
  destruct (in_range 224 239 b0) eqn:H2.
  { apply in_range_spec in H2. apply elem_of_cons in Hin as [->|Hin];
      [unfold never_utf8 in Hbad; lia|].
    destruct r as [|b1 [|b2 r2]]; [reflexivity|reflexivity|].
    match goal with |- (if ?c then _ else _) = _ => destruct c eqn:Hc end; [|reflexivity].
    apply andb_true_iff in Hc as [Hc1 Hc2]. apply cont_range in Hc2.
    assert (Hb1 : 128 <= b1 <= 191).
    { destruct (b0 =? 224); [apply in_range_spec in Hc1; lia|].
      destruct (b0 =? 237); [apply in_range_spec in Hc1; lia|].
      apply cont_range. exact Hc1. }
    apply elem_of_cons in Hin as [->|Hin]; [unfold never_utf8 in Hbad; lia|].
    apply elem_of_cons in Hin as [->|Hin]; [unfold never_utf8 in Hbad; lia|].
    simpl in Hlen. rewrite (IH r2); [reflexivity|lia|eauto]. }
  destruct (in_range 240 244 b0) eqn:H3; [|reflexivity].
  apply in_range_spec in H3. apply elem_of_cons in Hin as [->|Hin];
    [unfold never_utf8 in Hbad; lia|].
  destruct r as [|b1 [|b2 [|b3 r3]]]; [reflexivity|reflexivity|reflexivity|].
  match goal with |- (if ?c then _ else _) = _ => destruct c eqn:Hc end; [|reflexivity].
  apply andb_true_iff in Hc as [Hc12 Hc3]. apply andb_true_iff in Hc12 as [Hc1 Hc2].
  apply cont_range in Hc2, Hc3.
  assert (Hb1 : 128 <= b1 <= 191).
  { destruct (b0 =? 240); [apply in_range_spec in Hc1; lia|].
    destruct (b0 =? 244); [apply in_range_spec in Hc1; lia|].
    apply cont_range. exact Hc1. }
  apply elem_of_cons in Hin as [->|Hin]; [unfold never_utf8 in Hbad; lia|].
  apply elem_of_cons in Hin as [->|Hin]; [unfold never_utf8 in Hbad; lia|].
  apply elem_of_cons in Hin as [->|Hin]; [unfold never_utf8 in Hbad; lia|].
  simpl in Hlen. rewrite (IH r3); [reflexivity|lia|eauto].
Qed.

(** X20. One byte that cannot occur in UTF-8 (0xC0, 0xC1, 0xF5 and above)
    anywhere in a received buffer makes [parse_messages] return no message
    at all, also when the buffer holds complete messages, and
    [parse_message] return [None]. *)
Theorem undecodable_buffer_is_dropped (raw : bytes) (b : Z) :
  b ∈ raw -> never_utf8 b ->
  parse_messages raw = [] /\ parse_message raw = None.
Proof.
  intros Hin Hbad.
  assert (Hnone : utf8_decode raw = None).
  { apply (utf8_decode_never (length raw)); [lia|eauto]. }
  unfold parse_message, parse_messages. rewrite Hnone. auto.
Qed.

Lemma undecodable_buffer_is_dropped_witness :
  parse_messages (dumps (envelope (str "t1") (str "READY") (PDict [])) ++ [10; 255]) = [].
Proof.
  refine (proj1 (undecodable_buffer_is_dropped _ 255 _ _)).
  - apply elem_of_app. right. apply elem_of_cons. right. apply list_elem_of_singleton.
    reflexivity.
  - unfold never_utf8. lia.
Defined.

Lemma lstrip_starts_clean s t : starts_clean s -> lstrip (s ++ t) = s ++ t.
Proof. intros (c & cs & -> & Hc). cbn [app lstrip]. rewrite Hc. reflexivity. Qed.

Lemma split_join_plain l lines :
  Forall (Forall (fun c => c <> 10)) (l :: lines) ->
  split_lines (join_lines (l :: lines)) = l :: lines.
Proof.
  revert l. induction lines as [|l' lines IH]; intros l Hall.
  - apply Forall_cons in Hall as [Hl _]. apply split_lines_one. exact Hl.
  - apply Forall_cons in Hall as [Hl Hall].
    rewrite join_lines_cons2, split_lines_app by assumption.
    rewrite IH by assumption. reflexivity.
Qed.

Lemma join_lines_starts l lines : starts_clean l -> starts_clean (join_lines (l :: lines)).
Proof.
  intros (c & cs & -> & Hc). destruct lines as [|l' lines].
  - exists c, cs. auto.
  - rewrite join_lines_cons2. exists c, (cs ++ 10 :: join_lines (l' :: lines)). auto.
Qed.

Lemma join_lines_ends l lines final :
  last (l :: lines) = Some final -> ends_clean final -> ends_clean (join_lines (l :: lines)).
Proof.
  revert l. induction lines as [|l' lines IH]; intros l Hlast Hend.
  - simpl in Hlast. injection Hlast as ->. exact Hend.
  - rewrite join_lines_cons2. change (last (l :: l' :: lines)) with (last (l' :: lines)) in Hlast.
    destruct (IH l' Hlast Hend) as (cs & c & -> & Hc).
    exists (l ++ 10 :: cs), c. rewrite <- app_assoc. auto.
Qed.



End WireEdges.

Section Replies.
Import Protocol.
Local Close Scope string_scope.

Lemma find_key_dict_set k v d k' :
  find (fun kv : pykey * pyval => bool_decide (fst kv = k')) (dict_set k v d) =
  if decide (k = k') then Some (k, v)
  else find (fun kv : pykey * pyval => bool_decide (fst kv = k')) d.
Proof.
  induction d as [|[k0 v0] d IH]; cbn [dict_set find fst].
  - destruct (decide (k = k')) as [->|Hne].
    + rewrite bool_decide_eq_true_2 by reflexivity. reflexivity.
    + rewrite bool_decide_eq_false_2 by assumption. reflexivity.
  - destruct (decide (k0 = k)) as [->|Hne0]; cbn [find fst].
    + destruct (decide (k = k')) as [->|Hne].
      * rewrite bool_decide_eq_true_2 by reflexivity. reflexivity.
      * rewrite !bool_decide_eq_false_2 by assumption. reflexivity.
    + destruct (decide (k0 = k')) as [->|Hne1].
      * rewrite bool_decide_eq_true_2 by reflexivity.
        destruct (decide (k = k')); [congruence|reflexivity].
      * rewrite bool_decide_eq_false_2 by assumption. exact IH.
Qed.

Lemma find_key_absent (k : pykey) (d : list (pykey * pyval)) :
  k ∉ map fst d -> find (fun kv : pykey * pyval => bool_decide (fst kv = k)) d = None.
Proof.
  induction d as [|[k0 v0] d IH]; intros Hk; [reflexivity|].
  cbn [map fst] in Hk. apply not_elem_of_cons in Hk as [Hne Hk].
  cbn [find fst]. rewrite bool_decide_eq_false_2 by congruence. auto.
Qed.

Lemma dict_get_dict_update e : forall d k,
  NoDup (map fst e) ->
  dict_get k (PDict (dict_update d e)) =
  match dict_get k (PDict e) with
  | Some v => Some v
  | None => dict_get k (PDict d)
  end.
Proof.
  unfold dict_get, dict_update.
  induction e as [|[k0 v0] e IH]; intros d k Hnd; [reflexivity|].
  cbn [map fst] in Hnd. apply NoDup_cons in Hnd as [Hk0 Hnd].
  cbn [fold_left find fst snd]. rewrite IH by assumption.
  rewrite find_key_dict_set.
  destruct (decide (k0 = k)) as [->|Hne].
  - rewrite bool_decide_eq_true_2 by reflexivity.
    rewrite find_key_absent by assumption. reflexivity.
  - rewrite bool_decide_eq_false_2 by assumption. reflexivity.
Qed.

Lemma keys_dict_set k v d k' :
  k' ∈ map fst (dict_set k v d) -> k' = k \/ k' ∈ map fst d.
Proof.
  induction d as [|[k0 v0] d IH]; cbn [dict_set map fst].
  - intros H. apply list_elem_of_singleton in H. auto.
  - destruct (decide (k0 = k)) as [->|Hne]; cbn [map fst]; rewrite !elem_of_cons;
      intuition.
Qed.

Lemma ok_dict_set k v d :
  NoDup (map fst d) -> Forall ok_member d -> ok_member (k, v) ->
  NoDup (map fst (dict_set k v d)) /\ Forall ok_member (dict_set k v d).
Proof.
  intros Hnd Hall Hkv. induction d as [|[k0 v0] d IH]; cbn [dict_set map fst].
  - split; [apply NoDup_singleton|]. apply Forall_cons. split; [exact Hkv|apply Forall_nil; trivial].
  - cbn [map fst] in Hnd. apply NoDup_cons in Hnd as [Hk0 Hnd].
    apply Forall_cons in Hall as [H0 Hall].
    destruct (decide (k0 = k)) as [->|Hne]; cbn [map fst].
    + split; [apply NoDup_cons; auto|]. apply Forall_cons. auto.
    + destruct (IH Hnd Hall) as [Hnd' Hall'].
      split; [|apply Forall_cons; auto].
      apply NoDup_cons. split; [|exact Hnd'].
      intros Hin. apply keys_dict_set in Hin as [->|Hin]; [congruence|contradiction].
Qed.

Lemma ok_dict_update e : forall d,
  NoDup (map fst d) -> Forall ok_member d -> Forall ok_member e ->
  NoDup (map fst (dict_update d e)) /\ Forall ok_member (dict_update d e).
Proof.
  unfold dict_update. induction e as [|[k v] e IH]; intros d Hnd Hall He; [auto|].
  apply Forall_cons in He as [Hkv He]. cbn [fold_left fst snd].
  destruct (ok_dict_set k v d Hnd Hall Hkv) as [Hnd' Hall'].
  apply IH; assumption.
Qed.

(** What [parse_message] reads from the bytes of a call. *)
Lemma parse_message_frame c :
  ok_call c ->
  exists raw, create_message (at_time c) (msg_type c) (data c) = Some raw /\
              parse_message raw = Some (message_of c).
Proof.
  intros Hc. exists (dumps (message_of c) ++ [10]).
  split; [apply create_message_frame; exact Hc|].
  assert (Hm : Forall ok_message [message_of c]).
  { apply Forall_cons. split; [apply message_of_ok; exact Hc|apply Forall_nil; trivial]. }
  destruct (parse_messages_frames _ Hm) as (raw & _ & -> & Hparse).
  cbn [map concat] in Hparse. rewrite app_nil_r in Hparse.
  unfold parse_message. rewrite Hparse. reflexivity.
Qed.



End Replies.

Section SessionsMore.
Import Room Server Invariants.
Implicit Types (r : GameRoom) (ev : event) (p : Player).

Lemma update_first_undo {A} (test : A -> bool) (f g : A -> A) (l : list A) x :
  find test l = Some x -> test (f x) = true -> g (f x) = x ->
  update_first test g (update_first test f l) = l.
Proof.
  induction l as [|y l IH]; intros Hf Ht Hg; [discriminate|].
  cbn [find update_first] in *. destruct (test y) eqn:Hy.
  - injection Hf as ->. cbn [update_first]. rewrite Ht, Hg. reflexivity.
  - cbn [update_first]. rewrite Hy. f_equal. apply IH; assumption.
Qed.

Lemma find_update_first_hit {A} (test : A -> bool) (f : A -> A) (l : list A) x :
  find test l = Some x -> test (f x) = true ->
  find test (update_first test f l) = Some (f x).
Proof.
  induction l as [|y l IH]; intros Hf Ht; [discriminate|].
  cbn [find update_first] in *. destruct (test y) eqn:Hy.
  - injection Hf as ->. cbn [find]. rewrite Ht. reflexivity.
  - cbn [find]. rewrite Hy. apply IH; assumption.
Qed.

(** X23. READY is a toggle.  A seat that was not ready and whose READY
    did not start the game is taken back by a second READY: the room is
    exactly as it was before the two requests. *)
Theorem ready_twice_restores r sock now now' p :
  get_player_by_socket sock r = Some p -> ready p = false ->
  are_all_players_ready (step r (Ready sock now)) = false ->
  step (step r (Ready sock now)) (Ready sock now') = r.
Proof.
  intros Hp Hready Hnot. cbn [step] in *.
  unfold handle_ready, set_player_ready, get_player_by_socket in *.
  destruct r as [rid pl sp st b ct tst ta tcb dp ip ra rr]. room_fields_in Hp.
  assert (Hsock : has_socket sock (with_ready true p) = true).
  { destruct (find_Some_elem _ _ _ Hp) as [_ Hs]. exact Hs. }
  room_fields. room_fields_in Hnot. rewrite Hp in *. rewrite Hready in *.
  cbn [negb snd] in *. room_fields. room_fields_in Hnot.
  set (r1 := mkRoom rid (update_first (has_socket sock) (with_ready true) pl)
               sp st b ct tst ta tcb dp ip ra rr) in *.
  destruct (are_all_players_ready r1) eqn:Hall.
  { exfalso. unfold start_timer in Hnot. room_fields_in Hnot.
    unfold are_all_players_ready in Hnot, Hall. subst r1. room_fields_in Hall.
    destruct ip; room_fields_in Hnot; congruence. }
  subst r1. room_fields. rewrite (find_update_first_hit _ _ _ p Hp Hsock).
  cbn [ready with_ready negb snd]. room_fields.
  rewrite (update_first_undo _ _ _ _ p Hp Hsock).
  2:{ destruct p as [s n c rd]. simpl in Hready. subst rd. reflexivity. }
  destruct (are_all_players_ready (mkRoom rid pl sp st b ct tst ta tcb dp ip ra rr))
    eqn:Hr; [|reflexivity].
  exfalso. unfold are_all_players_ready in Hr. room_fields_in Hr.
  destruct (length pl <? 2)%nat; [discriminate|].
  rewrite forallb_forall in Hr. destruct (find_Some_elem _ _ _ Hp) as [Hin _].
  apply list_elem_of_In in Hin. specialize (Hr p Hin). congruence.
Qed.

Lemma ready_twice_restores_witness :
  step (step (step (Room.init "room_1") (Join 1 "A" 0)) (Ready 1 1)) (Ready 1 2) =
  step (Room.init "room_1") (Join 1 "A" 0).
Proof.
  apply (ready_twice_restores _ 1 1 2 (mkPlayer (Some 1) "A" "black" false));
    vm_compute; reflexivity.
Defined.

(** X24. Outside a game nothing is played: while the room is not Playing,
    a PLACE_STONE, a SURRENDER and the timeout callback leave it exactly
    as it is, whoever sends them. *)
Theorem idle_room_ignores_play r :
  status r <> Playing ->
  forall sock x y now,
    step r (PlaceStone sock x y now) = r /\
    step r (Surrender sock) = r /\
    handle_timer_timeout now r = r.
Proof.
  intros Hst sock x y now. cbn [step].
  unfold handle_place_stone, handle_surrender, handle_timer_timeout.
  rewrite (bool_decide_eq_false_2 _ Hst). cbn [negb].
  destruct (get_player_by_socket sock r); auto.
Qed.

Lemma idle_room_ignores_play_witness :
  step rematch_asked (PlaceStone 2 (Some 7) (Some 7) 101) = rematch_asked.
Proof.
  assert (Hst : status rematch_asked <> Playing) by (vm_compute; discriminate).
  exact (proj1 (idle_room_ignores_play rematch_asked Hst 2 (Some 7) (Some 7) 101)).
Defined.

(** X25. One rematch request is not enough: in a Finished room, while
    another seat, under a different name, has not asked, a REMATCH only
    records the request; the game stays Finished on the same board. *)
Theorem rematch_needs_both r sock now p q :
  status r = Finished -> get_player_by_socket sock r = Some p ->
  q ∈ players r -> name q <> name p -> rematch_requests r !! name q = None ->
  let r' := step r (Rematch sock now) in
  status r' = Finished /\ board r' = board r /\ players r' = players r /\
  rematch_requests r' = <[name p := true]> (rematch_requests r).
Proof.
  intros Hst Hp Hq Hne Hreq. cbv zeta. cbn [step]. unfold handle_rematch.
  rewrite (bool_decide_eq_true_2 _ Hst). cbn [negb]. rewrite Hp.
  unfold request_rematch. rewrite (bool_decide_eq_true_2 _ Hst). cbn [negb].
  unfold rematch_if_agreed.
  set (r1 := set_rematch_requests _ r).
  assert (Hno : is_rematch_agreed r1 = false).
  { unfold is_rematch_agreed. destruct (negb _); [reflexivity|].
    apply not_true_is_false. intros Hall. rewrite forallb_forall in Hall.
    apply list_elem_of_In in Hq. specialize (Hall q Hq).
    subst r1. cbn in Hall. rewrite lookup_insert_ne in Hall by congruence.
    rewrite Hreq in Hall. discriminate. }
  rewrite Hno. subst r1. cbn. auto.
Qed.

Lemma rematch_needs_both_witness :
  status rematch_asked = Finished /\
  rematch_requests rematch_asked = <[ "A" := true ]> ∅.
Proof.
  assert (Hr : rematch_asked = step (step started (Surrender 1)) (Rematch 1 100))
    by reflexivity.
  assert (Hst : status (step started (Surrender 1)) = Finished) by (vm_compute; reflexivity).
  assert (Hp : get_player_by_socket 1 (step started (Surrender 1)) =
               Some (mkPlayer (Some 1) "A" "black" true)) by (vm_compute; reflexivity).
  assert (Hq : mkPlayer (Some 2) "B" "white" true ∈ players (step started (Surrender 1))).
  { vm_compute. apply elem_of_cons. right. apply elem_of_cons. left. reflexivity. }
  assert (Hne : name (mkPlayer (Some 2) "B" "white" true) <>
                name (mkPlayer (Some 1) "A" "black" true)) by discriminate.
  assert (Hreq : rematch_requests (step started (Surrender 1)) !!
                   name (mkPlayer (Some 2) "B" "white" true) = None)
    by (vm_compute; reflexivity).
  destruct (rematch_needs_both _ 1 100 _ _ Hst Hp Hq Hne Hreq) as (H1 & _ & _ & H4).
  rewrite Hr. split; [exact H1|]. rewrite H4. vm_compute. reflexivity.
Defined.

Lemma find_app_miss {A} (test : A -> bool) (l : list A) x :
  find test l = None -> test x = true -> find test (l ++ [x]) = Some x.
Proof.
  induction l as [|y l IH]; cbn [find app]; intros Hf Hx; [rewrite Hx; reflexivity|].
  destruct (test y); [discriminate|]. auto.
Qed.

Lemma py_remove_last {A} `{EqDecision A} (l : list A) x :
  x ∉ l -> py_remove x (l ++ [x]) = l.
Proof.
  induction l as [|y l IH]; cbn [py_remove app]; intros Hx.
  - rewrite decide_True by reflexivity. reflexivity.
  - apply not_elem_of_cons in Hx as [Hne Hx].
    rewrite decide_False by congruence. rewrite IH by assumption. reflexivity.
Qed.

(** X26. Watching changes nothing for good: a connection that was not
    watching, starts to watch and goes away leaves the room exactly as it
    was, whatever name it gave. *)
Theorem spectate_and_go_restores r sock n :
  get_spectator_by_socket sock r = None ->
  step (step r (Spectate sock n)) (SpectatorGone sock) = r.
Proof.
  intros Hnone. cbn [step].
  unfold handle_spectate_room, remove_from_room_spectator, remove_spectator, add_spectator.
  unfold get_spectator_by_socket in Hnone. cbn [spectators set_spectators].
  assert (Hs : spec_has_socket sock (mkSpectator (Some sock) n) = true).
  { unfold spec_has_socket. simpl. apply Z.eqb_refl. }
  rewrite (find_app_miss _ _ _ Hnone Hs). cbn [snd spectators set_spectators].
  rewrite py_remove_last.
  - destruct r; reflexivity.
  - intros Hin. apply list_elem_of_In in Hin.
    pose proof (find_none _ _ Hnone _ Hin) as Hf. congruence.
Qed.

Lemma spectate_and_go_restores_witness :
  step (step started (Spectate 7 "W")) (SpectatorGone 7) = started.
Proof. apply spectate_and_go_restores. vm_compute. reflexivity. Defined.

(** X27. A player whose connection is lost can either still reconnect or
    is due for the forfeit, never both and never neither: for every
    disconnection record of a room, [can_reconnect] holds exactly when
    [check_reconnect_timeout] does not list the name. *)
Theorem reconnect_or_forfeit r n d now :
  reachable r -> disconnected_players r !! n = Some d ->
  (can_reconnect n now r = true <-> n ∉ map fst (check_reconnect_timeout now r)) /\
  (can_reconnect n now r = true <-> now - disconnect_time d <= reconnect_timeout).
Proof.
  intros Hr Hd. destruct (reachable_record_inv r Hr n d Hd) as [_ Hatt].
  assert (Hcan : can_reconnect n now r = true <->
                 now - disconnect_time d <= reconnect_timeout).
  { unfold can_reconnect. rewrite Hd.
    destruct (Z.leb_spec max_reconnect_attempts (attempts_of n r)); [lia|].
    apply Z.leb_le. }
  split; [|exact Hcan]. rewrite Hcan. rewrite check_reconnect_timeout_names. split.
  - intros Hle (d' & Hd' & Hlate). rewrite Hd in Hd'. injection Hd' as <-. lia.
  - intros Hno. destruct (Z.le_gt_cases (now - disconnect_time d) reconnect_timeout);
      [assumption|]. exfalso. apply Hno. exists d. split; [exact Hd|lia].
Qed.

Lemma reconnect_or_forfeit_witness :
  can_reconnect "A" 190 lost_once = true <->
  "A" ∉ map fst (check_reconnect_timeout 190 lost_once).
Proof.
  assert (Hr : reachable lost_once).
  { unfold lost_once. apply reachable_step. exact reachable_started. }
  assert (Hd : disconnected_players lost_once !! "A" =
               Some (mkDisconnection 10 (mkPlayer (Some 1) "A" "black" true) "black" 0))
    by (vm_compute; reflexivity).
  exact (proj1 (reconnect_or_forfeit lost_once "A" _ 190 Hr Hd)).
Defined.

End SessionsMore.

Section ManagerRequests.
Import Room Server Manager.
Implicit Types (m : RoomManager) (d : list (string * GameRoom)) (k : string)
  (r : GameRoom).

Lemma room_id_start_timer now r : room_id (start_timer now r) = room_id r.
Proof. unfold start_timer. destruct (is_paused r); reflexivity. Qed.

Lemma room_id_remove_player sock is_disconnect now r :
  room_id (snd (remove_player sock is_disconnect now r)) = room_id r.
Proof. unfold remove_player. repeat case_match; reflexivity. Qed.

Lemma room_id_remove_spectator sock r :
  room_id (snd (remove_spectator sock r)) = room_id r.
Proof. unfold remove_spectator. case_match; reflexivity. Qed.

Lemma room_id_reconnect_player n sock now r :
  room_id (snd (reconnect_player n sock now r)) = room_id r.
Proof. unfold reconnect_player. repeat case_match; rewrite ?room_id_start_timer; reflexivity. Qed.

Lemma room_id_handle_reconnect n sock now r :
  room_id (handle_reconnect n sock now r) = room_id r.
Proof. unfold handle_reconnect. repeat case_match; rewrite ?room_id_reconnect_player; reflexivity. Qed.

Lemma room_id_forfeit_sweep now r : room_id (forfeit_sweep now r) = room_id r.
Proof.
  unfold forfeit_sweep. generalize (check_reconnect_timeout now r).
  intros l. revert r. induction l as [|nc l IH]; intros r; [reflexivity|].
  cbn [fold_left]. rewrite IH. reflexivity.
Qed.

Lemma room_id_rematch_if_agreed now r : room_id (rematch_if_agreed now r) = room_id r.
Proof.
  unfold rematch_if_agreed. destruct (is_rematch_agreed r); [|reflexivity].
  rewrite room_id_start_timer. reflexivity.
Qed.

Lemma room_id_request_rematch n r : room_id (snd (request_rematch n r)) = room_id r.
Proof. unfold request_rematch. case_match; reflexivity. Qed.

Lemma room_id_step r ev : room_id (step r ev) = room_id r.
Proof.
  destruct ev; cbn [step].
  - unfold Server.handle_join_room. repeat case_match; rewrite ?room_id_handle_reconnect;
      try reflexivity. unfold add_player. repeat case_match; reflexivity.
  - reflexivity.
  - unfold handle_ready. repeat case_match; rewrite ?room_id_start_timer; try reflexivity;
      unfold set_player_ready; repeat case_match; reflexivity.
  - unfold handle_place_stone.
    repeat case_match; rewrite ?room_id_start_timer; try reflexivity;
      match goal with
      | H : Room.place_stone _ _ _ _ = (_, ?r1) |- _ =>
          unfold Room.place_stone in H; destruct (Board.place_stone _ _ _ _);
          injection H as _ <-; reflexivity
      end.
  - apply room_id_remove_player.
  - apply room_id_remove_player.
  - apply room_id_remove_spectator.
  - unfold time_up, handle_timer_timeout.
    repeat case_match; rewrite ?room_id_start_timer; reflexivity.
  - apply room_id_handle_reconnect.
  - apply room_id_forfeit_sweep.
  - unfold handle_surrender. repeat case_match; reflexivity.
  - unfold handle_rematch. repeat case_match; try reflexivity;
      match goal with
      | H : request_rematch ?n ?r = (_, ?r1) |- _ =>
          pose proof (room_id_request_rematch n r) as Hq; rewrite H in Hq; simpl in Hq
      end; rewrite ?room_id_rematch_if_agreed; assumption.
  - unfold handle_rematch_response. repeat case_match; try reflexivity.
    rewrite room_id_rematch_if_agreed. apply room_id_request_rematch.
Qed.

Lemma In_dict_delete k d kv : In kv (dict_delete k d) -> In kv d.
Proof.
  induction d as [|[k0 v] d IH]; cbn [dict_delete]; [auto|].
  destruct (String.eqb k0 k); cbn [In]; intuition.
Qed.

Lemma In_fold_delete (ks : list string) d kv :
  In kv (fold_left (fun d room_id => dict_delete room_id d) ks d) -> In kv d.
Proof.
  revert d. induction ks as [|k ks IH]; intros d; [auto|].
  cbn [fold_left]. intros H. apply IH in H. eapply In_dict_delete. exact H.
Qed.

Lemma In_update_room k f d k' r' :
  In (k', r') (update_room k f d) ->
  In (k', r') d \/ exists r, In (k', r) d /\ r' = f r.
Proof.
  induction d as [|[k0 v] d IH]; cbn [update_room]; [auto|].
  destruct (String.eqb k0 k); cbn [In].
  - intros [H|H]; [injection H as <- <-; right; eauto|auto].
  - intros [H|H]; [auto|]. destruct (IH H) as [H'|(r & Hr & ->)]; [auto|right; eauto].
Qed.

Lemma keyed_update k (f : GameRoom -> GameRoom) m :
  (forall r, room_id (f r) = room_id r) -> keyed m -> keyed (in_room k f m).
Proof.
  intros Hf Hk k' r' Hin. unfold in_room in Hin. cbn [rooms] in Hin.
  apply In_update_room in Hin as [Hin|(r & Hin & ->)]; [auto|].
  rewrite Hf. auto.
Qed.

Lemma keyed_cleanup m : keyed m -> keyed (cleanup_empty_rooms m).
Proof.
  intros Hk k r Hin. unfold cleanup_empty_rooms in Hin.
  destruct (rooms_fold_remove
              (map fst (List.filter (fun kv => deserted (snd kv)) (rooms m))) m) as [Hr _].
  rewrite Hr in Hin. apply In_fold_delete in Hin. auto.
Qed.

Lemma keyed_step m e : manager_inv m -> keyed m -> keyed (manager_step m e).
Proof.
  intros Hinv Hk. destruct e as [|rid| |rid ev]; cbn [manager_step].
  - intros k r Hin. unfold create_room in Hin. cbn [snd rooms] in Hin.
    destruct Hinv as (_ & _ & Hkeys).
    rewrite dict_store_fresh in Hin.
    + apply in_app_or in Hin as [Hin|[Hin|[]]]; [auto|]. injection Hin as <- <-. reflexivity.
    + intros Hin'. destruct (Hkeys _ Hin') as (j & Hj & He).
      apply room_name_inj in He. lia.
  - intros k r Hin. unfold remove_room in Hin. cbn [rooms] in Hin.
    apply In_dict_delete in Hin. auto.
  - apply keyed_cleanup. exact Hk.
  - apply (keyed_update rid (fun r => step r ev)); [|exact Hk].
    intros r. apply room_id_step.
Qed.

Lemma reachable_manager (es : list manager_event) :
  manager_inv (manager_run init es) /\ keyed (manager_run init es).
Proof.
  assert (H : forall m, manager_inv m -> keyed m ->
                        manager_inv (manager_run m es) /\ keyed (manager_run m es)).
  { induction es as [|e es IH]; intros m Hinv Hk; [auto|].
    unfold manager_run. cbn [fold_left]. apply IH.
    - apply manager_inv_step. exact Hinv.
    - apply keyed_step; assumption. }
  apply H; [exact manager_inv_init|]. intros k r [].
Qed.

(** *** Counting a socket *)

Lemma occurrences_none sock r :
  get_player_by_socket sock r = None -> get_spectator_by_socket sock r = None ->
  occurrences sock r = 0%nat.
Proof.
  unfold get_player_by_socket, get_spectator_by_socket, occurrences. intros Hp Hs.
  assert (Hf : forall {A} (t : A -> bool) (l : list A), find t l = None -> List.filter t l = []).
  { intros A t l. induction l as [|x l IH]; cbn [find List.filter]; [reflexivity|].
    destruct (t x); [discriminate|exact IH]. }
  rewrite (Hf _ _ _ Hp), (Hf _ _ _ Hs). reflexivity.
Qed.

Lemma filter_find_Some {A} (t : A -> bool) (l : list A) x :
  find t l = Some x -> (0 < length (List.filter t l))%nat.
Proof.
  induction l as [|y l IH]; cbn [find List.filter]; [discriminate|].
  destruct (t y); [intros _; simpl; lia|exact IH].
Qed.

Lemma filter_py_remove {A} `{EqDecision A} (t : A -> bool) (l : list A) x :
  find t l = Some x ->
  S (length (List.filter t (py_remove x l))) = length (List.filter t l).
Proof.
  induction l as [|y l IH]; cbn [find List.filter py_remove]; [discriminate|].
  destruct (t y) eqn:Hy.
  - intros Hx. injection Hx as ->. rewrite decide_True by reflexivity. reflexivity.
  - intros Hx. destruct (decide (y = x)) as [->|Hne].
    + apply find_some in Hx as [_ Hx]. congruence.
    + cbn [List.filter]. rewrite Hy. apply IH. exact Hx.
Qed.

Lemma filter_with_ready sock v (l : list Player) :
  length (List.filter (has_socket sock) (map (with_ready v) l)) =
  length (List.filter (has_socket sock) l).
Proof.
  induction l as [|p l IH]; [reflexivity|]. cbn [map List.filter].
  change (has_socket sock (with_ready v p)) with (has_socket sock p).
  destruct (has_socket sock p); cbn [length]; rewrite IH; reflexivity.
Qed.

Lemma occurrences_remove_player sock now r p :
  get_player_by_socket sock r = Some p ->
  S (occurrences sock (snd (remove_player sock false now r))) = occurrences sock r.
Proof.
  unfold get_player_by_socket. intros Hp. unfold remove_player. rewrite Hp. cbn [andb].
  pose proof (filter_py_remove _ _ _ Hp) as Hrm.
  unfold occurrences.
  repeat case_match; unfold stop_timer; cbn; rewrite ?filter_with_ready; lia.
Qed.

Lemma occurrences_remove_spectator sock r s :
  get_spectator_by_socket sock r = Some s ->
  S (occurrences sock (snd (remove_spectator sock r))) = occurrences sock r.
Proof.
  unfold get_spectator_by_socket. intros Hs. unfold remove_spectator. rewrite Hs.
  pose proof (filter_py_remove _ _ _ Hs) as Hrm.
  unfold occurrences. cbn. lia.
Qed.

Lemma dict_lookup_In k d r :
  NoDup (map fst d) -> In (k, r) d -> dict_lookup k d = Some r.
Proof.
  induction d as [|[k0 v] d IH]; intros Hnd Hin; [inversion Hin|].
  cbn [map fst] in Hnd. apply NoDup_cons in Hnd as [Hk0 Hnd]. cbn [dict_lookup].
  destruct Hin as [Hin|Hin].
  - injection Hin as -> ->. rewrite String.eqb_refl. reflexivity.
  - destruct (String.eqb_spec k0 k) as [->|Hne]; [|auto].
    exfalso. apply Hk0. apply list_elem_of_In. apply (in_map fst _ _ Hin).
Qed.

(** Changing one room changes the count by what changes in that room. *)
Lemma presence_update sock k f d r :
  dict_lookup k d = Some r ->
  (list_sum (map (fun kv => occurrences sock (snd kv)) (update_room k f d))
   + occurrences sock r =
   list_sum (map (fun kv => occurrences sock (snd kv)) d) + occurrences sock (f r))%nat.
Proof.
  induction d as [|[k0 v] d IH]; cbn [dict_lookup update_room]; [discriminate|].
  destruct (String.eqb k0 k).
  - intros Hr. injection Hr as ->. simpl. lia.
  - intros Hr. specialize (IH Hr). simpl. simpl in IH. lia.
Qed.

Lemma presence_filter sock (keep : string * GameRoom -> bool) d :
  (forall kv, In kv d -> keep kv = false -> occurrences sock (snd kv) = 0%nat) ->
  list_sum (map (fun kv => occurrences sock (snd kv)) (List.filter keep d)) =
  list_sum (map (fun kv => occurrences sock (snd kv)) d).
Proof.
  induction d as [|kv d IH]; intros Hk; [reflexivity|].
  assert (IH' := IH (fun kv' Hin => Hk kv' (or_intror Hin))).
  cbn [List.filter]. destruct (keep kv) eqn:Hkv; simpl; simpl in IH'.
  - rewrite IH'. reflexivity.
  - rewrite (Hk kv (or_introl eq_refl) Hkv). exact IH'.
Qed.

Lemma presence_cleanup sock m :
  NoDup (map fst (rooms m)) -> presence sock (cleanup_empty_rooms m) = presence sock m.
Proof.
  intros Hnd. unfold presence, cleanup_empty_rooms.
  destruct (rooms_fold_remove
              (map fst (List.filter (fun kv => deserted (snd kv)) (rooms m))) m) as [Hr _].
  rewrite Hr, fold_delete_filter by assumption.
  apply presence_filter. intros [k v] Hin Hkeep. cbn [fst snd] in *.
  apply negb_false_iff in Hkeep. rewrite (deserted_key _ k v Hnd Hin) in Hkeep.
  destruct (deserted_no_socket sock v Hkeep) as [Hp Hs].
  apply occurrences_none; assumption.
Qed.

Lemma find_room_found sock d room role :
  find_room sock d = (Some room, role) ->
  (exists k, In (k, room) d) /\
  ((role = Some "player" /\ exists p, get_player_by_socket sock room = Some p) \/
   (role = Some "spectator" /\ exists s, get_spectator_by_socket sock room = Some s)).
Proof.
  induction d as [|[k v] d IH]; cbn [find_room]; [discriminate|].
  destruct (get_player_by_socket sock v) as [p|] eqn:Hp.
  - intros H. injection H as <- <-. split; [exists k; left; reflexivity|]. left. eauto.
  - destruct (get_spectator_by_socket sock v) as [s|] eqn:Hs.
    + intros H. injection H as <- <-. split; [exists k; left; reflexivity|]. right. eauto.
    + intros H. destruct (IH H) as [(k' & Hin) Hrole]. split; [exists k'; right; exact Hin|].
      exact Hrole.
Qed.

Lemma find_room_none sock d :
  fst (find_room sock d) = None ->
  list_sum (map (fun kv => occurrences sock (snd kv)) d) = 0%nat.
Proof.
  induction d as [|[k v] d IH]; cbn [find_room]; [reflexivity|].
  destruct (get_player_by_socket sock v) as [p|] eqn:Hp; [discriminate|].
  destruct (get_spectator_by_socket sock v) as [s|] eqn:Hs; [discriminate|].
  intros H. specialize (IH H). simpl. simpl in IH. rewrite (occurrences_none _ _ Hp Hs), IH.
  reflexivity.
Qed.

(** A client that is in at most one place is nowhere after
    [leave_existing]; ids and the shape of the dictionary are kept. *)
Lemma leave_existing_absent sock now m :
  manager_inv m -> keyed m -> (presence sock m <= 1)%nat ->
  presence sock (leave_existing sock now m) = 0%nat /\
  manager_inv (leave_existing sock now m) /\ keyed (leave_existing sock now m) /\
  next_room_id (leave_existing sock now m) = next_room_id m.
Proof.
  intros Hinv Hk Hle. unfold leave_existing, find_room_by_socket.
  destruct (find_room sock (rooms m)) as [[old|] role] eqn:Hfind.
  2:{ split; [|auto]. unfold presence. apply find_room_none. rewrite Hfind. reflexivity. }
  destruct (find_room_found _ _ _ _ Hfind) as [(k & Hin) Hrole].
  pose proof (Hk k old Hin) as Hid. subst k.
  destruct Hinv as (Hnd & Hnext & Hkeys).
  pose proof (dict_lookup_In _ _ _ Hnd Hin) as Hlook.
  unfold remove_from_room.
  assert (Hgen : forall f : GameRoom -> GameRoom,
            (forall r, room_id (f r) = room_id r) ->
            S (occurrences sock (f old)) = occurrences sock old ->
            let m1 := in_room (room_id old) f m in
            presence sock (cleanup_empty_rooms m1) = 0%nat /\
            manager_inv (cleanup_empty_rooms m1) /\ keyed (cleanup_empty_rooms m1) /\
            next_room_id (cleanup_empty_rooms m1) = next_room_id m).
  { intros f Hf Hocc. cbv zeta.
    assert (Hinv1 : manager_inv (in_room (room_id old) f m)).
    { unfold manager_inv, in_room. cbn [rooms next_room_id]. rewrite keys_update_room. auto. }
    assert (Hk1 : keyed (in_room (room_id old) f m)) by (apply keyed_update; assumption).
    split; [|split; [|split]].
    - rewrite presence_cleanup by apply Hinv1.
      unfold presence, in_room. cbn [rooms].
      pose proof (presence_update sock (room_id old) f (rooms m) old Hlook) as Hsum.
      unfold presence in Hle. lia.
    - apply (manager_inv_step _ Cleanup). exact Hinv1.
    - apply keyed_cleanup. exact Hk1.
    - unfold cleanup_empty_rooms.
      destruct (rooms_fold_remove
                  (map fst (List.filter (fun kv => deserted (snd kv))
                              (rooms (in_room (room_id old) f m))))
                  (in_room (room_id old) f m)) as [_ Hn].
      rewrite Hn. reflexivity. }
  destruct Hrole as [[-> (p & Hp)]|[-> (s & Hs)]]; cbn [String.eqb Ascii.eqb Bool.eqb].
  - change (String.eqb "player" "player") with true. cbv iota.
    apply Hgen; [intros r; apply room_id_remove_player|].
    eapply occurrences_remove_player. exact Hp.
  - change (String.eqb "spectator" "player") with false.
    change (String.eqb "spectator" "spectator") with true. cbv iota.
    apply Hgen; [intros r; apply room_id_remove_spectator|].
    eapply occurrences_remove_spectator. exact Hs.
Qed.

Lemma dict_lookup_update k f d :
  dict_lookup k (update_room k f d) = f <$> dict_lookup k d.
Proof.
  induction d as [|[k0 v] d IH]; cbn [update_room dict_lookup]; [reflexivity|].
  destruct (String.eqb k0 k) eqn:He; cbn [dict_lookup]; rewrite He; [reflexivity|exact IH].
Qed.

Lemma update_room_last k f d r :
  k ∉ map fst d ->
  update_room k f (d ++ [(k, r)])%list = (d ++ [(k, f r)])%list.
Proof.
  induction d as [|[k0 v] d IH]; cbn [update_room app map fst]; intros Hk.
  - rewrite String.eqb_refl. reflexivity.
  - apply not_elem_of_cons in Hk as [Hne Hk].
    destruct (String.eqb_spec k0 k); [congruence|]. rewrite IH by assumption. reflexivity.
Qed.

Lemma find_room_last sock d k r :
  list_sum (map (fun kv => occurrences sock (snd kv)) d) = 0%nat ->
  find_room sock (d ++ [(k, r)])%list = find_room sock [(k, r)].
Proof.
  induction d as [|[k0 v] d IH]; intros Hz; [reflexivity|].
  simpl in Hz. cbn [app find_room].
  assert (Hv : occurrences sock v = 0%nat) by lia.
  unfold occurrences in Hv.
  destruct (get_player_by_socket sock v) as [p|] eqn:Hp.
  { apply filter_find_Some in Hp. lia. }
  destruct (get_spectator_by_socket sock v) as [s|] eqn:Hs.
  { apply filter_find_Some in Hs. lia. }
  apply IH. lia.
Qed.

(** X28. CREATE_ROOM moves the client.  For a client that is in at most
    one place of at most one room, [handle_create_room] takes it out of
    that room and seats it, alone and as black, in a new waiting room
    under the next id; afterwards the client is in that room and nowhere
    else, and [find_room_by_socket] finds it there as a player. *)
Theorem create_room_moves_client (es : list manager_event) sock player_name now :
  let m := manager_run init es in
  (presence sock m <= 1)%nat ->
  let m' := handle_create_room sock player_name now m in
  let room_id := room_name (next_room_id m) in
  let room := set_players [mkPlayer (Some sock) player_name "black" false] (Room.init room_id) in
  get_room room_id m' = Some room /\
  presence sock m' = 1%nat /\
  find_room_by_socket sock m' = (Some room, Some "player") /\
  next_room_id m' = next_room_id m + 1.
Proof.
  cbv zeta. set (m := manager_run init es). intros Hle.
  destruct (reachable_manager es) as [Hinv Hk]. fold m in Hinv, Hk.
  destruct (leave_existing_absent sock now m Hinv Hk Hle) as (Habs & Hinv1 & Hk1 & Hnext1).
  unfold handle_create_room. set (m1 := leave_existing sock now m) in *.
  destruct Hinv1 as (Hnd1 & Hn1 & Hkeys1).
  assert (Hfresh : room_name (next_room_id m1) ∉ map fst (rooms m1)).
  { intros Hin. destruct (Hkeys1 _ Hin) as (j & Hj & He). apply room_name_inj in He. lia. }
  unfold create_room, get_room, in_room. cbn [rooms next_room_id].
  rewrite dict_store_fresh by assumption.
  rewrite dict_lookup_app. rewrite (proj2 (dict_lookup_None _ _) Hfresh).
  cbn [dict_lookup]. rewrite String.eqb_refl.
  cbn [rooms next_room_id]. rewrite update_room_last by assumption.
  rewrite Hnext1.
  assert (Hadd : snd (add_player sock player_name (Room.init (room_name (next_room_id m)))) =
                 set_players [mkPlayer (Some sock) player_name "black" false]
                   (Room.init (room_name (next_room_id m)))) by reflexivity.
  rewrite Hadd.
  assert (Hocc : occurrences sock
                   (set_players [mkPlayer (Some sock) player_name "black" false]
                      (Room.init (room_name (next_room_id m)))) = 1%nat).
  { unfold occurrences. cbn. unfold has_socket. cbn. rewrite Z.eqb_refl. reflexivity. }
  split; [|split; [|split; [|reflexivity]]].
  - rewrite dict_lookup_app. rewrite (proj2 (dict_lookup_None _ _)).
    + cbn [dict_lookup]. rewrite String.eqb_refl. reflexivity.
    + rewrite <- Hnext1. exact Hfresh.
  - unfold presence. cbn [rooms]. rewrite map_app, list_sum_app.
    unfold presence in Habs. rewrite Habs. simpl. rewrite Hocc. reflexivity.
  - unfold find_room_by_socket. cbn [rooms]. rewrite find_room_last by exact Habs.
    cbn [find_room]. unfold get_player_by_socket. cbn. unfold has_socket. cbn.
    rewrite Z.eqb_refl. reflexivity.
Qed.

Lemma create_room_moves_client_witness :
  presence 1 (handle_create_room 1 "A" 5 (manager_run init two_rooms)) = 1%nat /\
  get_room "room_1" (handle_create_room 1 "A" 5 (manager_run init two_rooms)) = None.
Proof.
  assert (Hle : (presence 1%Z (manager_run init two_rooms) <= 1)%nat)
    by (vm_compute; repeat constructor).
  destruct (create_room_moves_client two_rooms 1 "A" 5 Hle) as (_ & Hp & _).
  split; [exact Hp|]. vm_compute. reflexivity.
Defined.

(** X29. SPECTATE_ROOM with a room id that does not exist still makes
    the client leave: a client that was in at most one place is in no
    room afterwards; with the id of a room that is there after the
    leave, it is in that room, as a spectator, and nowhere else. *)
Theorem spectate_moves_client (es : list manager_event) sock room_id spectator_name now :
  let m := manager_run init es in
  (presence sock m <= 1)%nat ->
  let m1 := leave_existing sock now m in
  let m' := handle_spectate_room sock room_id spectator_name now m in
  (get_room room_id m1 = None -> m' = m1 /\ presence sock m' = 0%nat) /\
  (forall room, get_room room_id m1 = Some room ->
     get_room room_id m' = Some (add_spectator sock spectator_name room) /\
     presence sock m' = 1%nat).
Proof.
  cbv zeta. set (m := manager_run init es). intros Hle.
  destruct (reachable_manager es) as [Hinv Hk]. fold m in Hinv, Hk.
  destruct (leave_existing_absent sock now m Hinv Hk Hle) as (Habs & Hinv1 & Hk1 & Hnext1).
  unfold handle_spectate_room. set (m1 := leave_existing sock now m) in *.
  split.
  - intros Hnone. rewrite Hnone. auto.
  - intros room Hroom. rewrite Hroom. unfold get_room in *. unfold in_room. cbn [rooms].
    rewrite dict_lookup_update, Hroom. split; [reflexivity|].
    unfold presence. cbn [rooms].
    pose proof (presence_update sock room_id (add_spectator sock spectator_name)
                  (rooms m1) room Hroom) as Hsum.
    unfold presence in Habs. rewrite Habs in Hsum.
    assert (Hocc : occurrences sock (add_spectator sock spectator_name room) =
                   S (occurrences sock room)).
    { unfold occurrences, add_spectator. cbn [players spectators set_spectators].
      rewrite List.filter_app, length_app.
      cbn [List.filter]. unfold spec_has_socket at 2. cbn. rewrite Z.eqb_refl. cbn. lia. }
    change (fun r => add_spectator sock spectator_name r)
      with (add_spectator sock spectator_name).
    lia.
Qed.

Lemma spectate_moves_client_witness :
  presence 1 (handle_spectate_room 1 "room_9" "A" 5 (manager_run init two_rooms)) = 0%nat /\
  presence 1 (handle_spectate_room 1 "room_2" "A" 5 (manager_run init two_rooms)) = 1%nat.
Proof.
  assert (Hle : (presence 1%Z (manager_run init two_rooms) <= 1)%nat)
    by (vm_compute; repeat constructor).
  destruct (spectate_moves_client two_rooms 1 "room_9" "A" 5 Hle) as [Hnone _].
  destruct (spectate_moves_client two_rooms 1 "room_2" "A" 5 Hle) as [_ Hsome].
  split.
  - apply Hnone. vm_compute. reflexivity.
  - eapply Hsome. vm_compute. reflexivity.
Defined.

End ManagerRequests.
